(** * Onboarding script [setup.py]: reconciliation and polling, verified

    A shallow embedding of the provisioning script.  Every function of
    [setup.py] that talks to the outside world (AWS through boto3, the
    GitHub and Resourcely HTTP APIs, the terminal, the clock, the local
    credential file) becomes a program over an explicit alphabet of
    calls; the remote side is a handler that the theorems quantify over.
    Pure helpers (string replacement, the URL patterns, dictionary
    equality) are ordinary functions.

    Conventions used throughout:
    - [print] output is kept only where it precedes [sys.exit(1)]: the
      message travels with the [Exit] leaf.  The decorative glyphs at the
      start of the messages are left out.
    - Python [str] values are byte strings here; every character the code
      inspects (['/'], [".git"], ["https://"]) is ASCII, so the byte view
      and the code-point view of UTF-8 text agree on all operations used.
    - [str.strip] and [int], whose answers depend on the interpreter's
      Unicode tables and digit limit, are parameters of the one function
      that calls them, [prompt_for_vpc_cidr].
    - [time.time()] is read as an integer number of seconds. *)

From stdpp Require Import base list strings pretty gmap.
From Stdlib Require Import Ascii ZArith Lia.

Open Scope Z_scope.

(* [simpl] may unfold string concatenation on a literal prefix. *)
Arguments String.append !s1 s2 : simpl nomatch.

(* ===================================================================== *)
(** * Part I. The embedding                                               *)
(* ===================================================================== *)

(** ** Python string primitives *)

(** [old in s] begins at the head of [s]. *)
Fixpoint starts_with (old s : string) : bool :=
  match old, s with
  | EmptyString, _ => true
  | String a old', String b s' => if Ascii.eqb a b then starts_with old' s' else false
  | String _ _, EmptyString => false
  end.

(** [needle in hay] for strings. *)
Fixpoint str_contains (needle hay : string) : bool :=
  starts_with needle hay ||
  match hay with
  | EmptyString => false
  | String _ hay' => str_contains needle hay'
  end.

(** [s.replace(old, new)] for a non-empty [old]: scan from the left; at
    each position where [old] begins, emit [new] and jump over [old].
    [skip] counts the characters of a matched [old] still to be jumped. *)
Fixpoint replace_from (old new : string) (skip : nat) (s : string) : string :=
  match s with
  | EmptyString => EmptyString
  | String c s' =>
      match skip with
      | S k => replace_from old new k s'
      | O =>
          if starts_with old s
          then new +:+ replace_from old new (Nat.pred (String.length old)) s'
          else String c (replace_from old new O s')
      end
  end.

Definition str_replace (old new s : string) : string :=
  replace_from old new O s.

(** [sep.join(parts)]. *)
Fixpoint str_join (sep : string) (parts : list string) : string :=
  match parts with
  | [] => ""
  | [p] => p
  | p :: ps => p +:+ sep +:+ str_join sep ps
  end.

Fixpoint str_concat (parts : list string) : string :=
  match parts with
  | [] => ""
  | p :: ps => p +:+ str_concat ps
  end.

(** No character of [s] is [c]. *)
Fixpoint str_avoids (c : ascii) (s : string) : bool :=
  match s with
  | EmptyString => true
  | String a s' => negb (Ascii.eqb a c) && str_avoids c s'
  end.

(** ** The fragment of [re] that the script uses *)

Inductive regex : Type :=
| Lit (s : string)                  (* literal text; [\.] is a literal dot *)
| PlusNot (c : ascii)               (* [[^c]+], greedy *)
| Group (name : string) (r : regex) (* [(?P<name>r)] *)
| Opt (r : regex)                   (* [(r)?], greedy *)
| Seq (r1 r2 : regex).

Definition captures := list (string * string).

Fixpoint cap_lookup (name : string) (cs : captures) : option string :=
  match cs with
  | [] => None
  | (n, v) :: cs' => if String.eqb n name then Some v else cap_lookup name cs'
  end.

Fixpoint str_drop (n : nat) (s : string) : string :=
  match n, s with
  | O, _ => s
  | S n', String _ s' => str_drop n' s'
  | S _, EmptyString => EmptyString
  end.

Fixpoint str_take (n : nat) (s : string) : string :=
  match n, s with
  | O, _ => EmptyString
  | S n', String c s' => String c (str_take n' s')
  | S _, EmptyString => EmptyString
  end.

(** Greedy [[^c]+] with backtracking: take a character, prefer taking
    more, fall back to stopping here. *)
Fixpoint plus_not {A} (c : ascii) (s : string) (k : string -> option A) : option A :=
  match s with
  | EmptyString => None
  | String a s' =>
      if Ascii.eqb a c then None
      else match plus_not c s' k with
           | Some r => Some r
           | None => k s'
           end
  end.

(** Backtracking matcher in continuation-passing style: [k] receives the
    unread input and the groups captured so far. *)
Fixpoint re_run (r : regex) (s : string) (cs : captures)
    (k : string -> captures -> option captures) : option captures :=
  match r with
  | Lit l => if starts_with l s then k (str_drop (String.length l) s) cs else None
  | PlusNot c => plus_not c s (fun rest => k rest cs)
  | Group name r' =>
      re_run r' s cs (fun rest cs' =>
        k rest ((name, str_take (String.length s - String.length rest) s) :: cs'))
  | Opt r' =>
      match re_run r' s cs k with
      | Some res => Some res
      | None => k s cs
      end
  | Seq r1 r2 => re_run r1 s cs (fun rest cs' => re_run r2 rest cs' k)
  end.

(** [re.match(pattern, s)]: anchored at the start, free at the end. *)
Definition re_match (r : regex) (s : string) : option captures :=
  re_run r s [] (fun _ cs => Some cs).

(** ** Decoded JSON documents and Python's view of them *)

(** What [json.loads] and [response.json()] build.  A [JObj] lists its
    items in insertion order; numbers are integers. *)
#[warnings="-register-all"]
Inductive json : Type :=
| JNull
| JBool (b : bool)
| JNum (n : Z)
| JStr (s : string)
| JArr (items : list json)
| JObj (items : list (string * json)).

(** [d[k]] on the items of a dict, [None] when the key is absent. *)
Fixpoint dict_lookup {A} (k : string) (items : list (string * A)) : option A :=
  match items with
  | [] => None
  | (k', v) :: items' => if String.eqb k' k then Some v else dict_lookup k items'
  end.

(** [d[k] = v]: an existing key keeps its place, a new key goes last. *)
Fixpoint dict_set {A} (k : string) (v : A) (items : list (string * A)) : list (string * A) :=
  match items with
  | [] => [(k, v)]
  | (k', v') :: items' =>
      if String.eqb k' k then (k', v) :: items' else (k', v') :: dict_set k v items'
  end.

(** [d.update(other)]. *)
Definition dict_update {A} (items other : list (string * A)) : list (string * A) :=
  fold_left (fun acc kv => dict_set kv.1 kv.2 acc) other items.

(** Python's [==] on decoded documents: dicts compare by key, whatever
    the insertion order; lists compare position by position; [True == 1]. *)
Fixpoint py_eq (a b : json) {struct a} : bool :=
  match a, b with
  | JNull, JNull => true
  | JBool x, JBool y => Bool.eqb x y
  | JBool x, JNum n => Z.eqb (Z.b2z x) n
  | JNum n, JBool x => Z.eqb n (Z.b2z x)
  | JNum m, JNum n => Z.eqb m n
  | JStr s, JStr t => String.eqb s t
  | JArr xs, JArr ys =>
      (fix go (xs ys : list json) : bool :=
         match xs, ys with
         | [], [] => true
         | x :: xs', y :: ys' => py_eq x y && go xs' ys'
         | _, _ => false
         end) xs ys
  | JObj xs, JObj ys =>
      Nat.eqb (List.length xs) (List.length ys) &&
      (fix go (xs : list (string * json)) : bool :=
         match xs with
         | [] => true
         | (k, v) :: xs' =>
             match dict_lookup k ys with
             | Some v' => py_eq v v'
             | None => false
             end && go xs'
         end) xs
  | _, _ => false
  end.

(** Truth value of a document in a condition ([if x:], [not x], [x and y]). *)
Definition py_truthy (j : json) : bool :=
  match j with
  | JNull => false
  | JBool b => b
  | JNum n => negb (Z.eqb n 0)
  | JStr s => negb (String.eqb s "")
  | JArr l => match l with [] => false | _ => true end
  | JObj l => match l with [] => false | _ => true end
  end.

(** [str(x)] as an f-string shows it, for the values the messages print. *)
Definition py_show (j : json) : string :=
  match j with
  | JNull => "None"
  | JBool true => "True"
  | JBool false => "False"
  | JNum n => pretty n
  | JStr s => s
  | _ => "<value>"
  end.

(** A dict built by a decoder has no repeated key, at any depth. *)
Fixpoint wf_json (j : json) : Prop :=
  match j with
  | JArr l => (fix all (l : list json) : Prop :=
                 match l with [] => True | x :: l' => wf_json x /\ all l' end) l
  | JObj l => NoDup (map fst l) /\
              (fix all (l : list (string * json)) : Prop :=
                 match l with [] => True | (_, v) :: l' => wf_json v /\ all l' end) l
  | _ => True
  end.

(** [b] is [a] with the keys of its dicts written in another order, at
    any depth; lists keep their order. *)
#[warnings="-register-all"]
Inductive key_reordered : json -> json -> Prop :=
| kr_null : key_reordered JNull JNull
| kr_bool b : key_reordered (JBool b) (JBool b)
| kr_num n : key_reordered (JNum n) (JNum n)
| kr_str s : key_reordered (JStr s) (JStr s)
| kr_arr xs ys :
    Forall2 key_reordered xs ys -> key_reordered (JArr xs) (JArr ys)
| kr_obj xs ys zs :
    Forall2 (fun x y => x.1 = y.1 /\ key_reordered x.2 y.2) xs ys ->
    Permutation ys zs ->
    key_reordered (JObj xs) (JObj zs).

(** ** The outside world: results, calls, programs *)

(** What a boto3 client call can do: answer, raise
    [botocore.exceptions.ClientError] with an error code, or raise
    something else (a connection error, a [WaiterError], ...). *)
Inductive aws_result (A : Type) : Type :=
| AwsOk (a : A)
| ClientError (code : string)
| BotoError (exn : string).
Arguments AwsOk {A} a.
Arguments ClientError {A} code.
Arguments BotoError {A} exn.

Record caller_identity := { Account : string; Arn : string }.

Record public_access_block := {
  BlockPublicAcls : bool;
  IgnorePublicAcls : bool;
  BlockPublicPolicy : bool;
  RestrictPublicBuckets : bool }.

(** The part of [describe_clusters]' answer the script reads: the
    failures and the status of each cluster returned. *)
Record clusters_description := {
  failures : list string;
  clusters : list string }.

Record task_definition := {
  family : string;
  requiresCompatibilities : list string;
  networkMode : string;
  containerDefinitions : json;
  taskRoleArn : string;
  executionRoleArn : string;
  cpu : string;
  memory : string }.

Record network_config := {
  subnets : list string;
  securityGroups : list string }.

Record service_request := {
  cluster : string;
  serviceName : string;
  taskDefinition : string;
  desiredCount : Z;
  launchType : string;
  networkConfiguration : network_config;
  assignPublicIp : string }.

(** A [requests] response: [response.json()] raises when the body is not
    JSON, hence the option. *)
Record http_response := {
  status_code : Z;
  json_body : option json;
  text : string }.

Inductive http_result : Type :=
| Responded (r : http_response)
| RequestFailed (exn : string).

(** What is on disk at [~/.resourcely/credential]. *)
Inductive cred_file : Type :=
| NoCredFile
| UnreadableCredFile
| CredFile (data : json).

(** The calls the script makes, indexed by what they answer.  The
    [Authorization] header is the [auth] argument of the HTTP calls. *)
Inductive call : Type -> Type :=
(* sts *)
| GetCallerIdentity : call (aws_result caller_identity)
(* s3 *)
| HeadBucket (bucket : string) : call (aws_result unit)
| CreateBucket (bucket location : string) : call (aws_result unit)
| WaitBucketExists (bucket : string) : call (aws_result unit)
| PutPublicAccessBlock (bucket : string) (cfg : public_access_block) : call (aws_result unit)
| GetBucketPolicy (bucket : string) : call (aws_result json)
| PutBucketPolicy (bucket : string) (policy : json) : call (aws_result unit)
(* iam *)
| ListOpenIDConnectProviders : call (aws_result (list string))
| GetOpenIDConnectProvider (arn : string) : call (aws_result (option string))
| CreateOpenIDConnectProvider (url : string) (client_ids thumbprints : list string)
    : call (aws_result string)
| GetRole (role : string) : call (aws_result string)
| CreateRole (role : string) (trust : json) (description : string) : call (aws_result string)
| PutRolePolicy (role policy_name : string) (document : json) : call (aws_result unit)
(* secretsmanager *)
| DescribeSecret (secret_id : string) : call (aws_result string)
| PutSecretValue (secret_id : string) (value : json) : call (aws_result unit)
| CreateSecret (name : string) (value : json) (description : string) : call (aws_result string)
(* ecs *)
| DescribeClusters (names : list string) : call (aws_result clusters_description)
| CreateCluster (name : string) : call (aws_result unit)
| ListServices (cluster : string) : call (aws_result (list string))
| RegisterTaskDefinition (td : task_definition) : call (aws_result string)
| CreateService (req : service_request) : call (aws_result unit)
| ListTasks (cluster service : string) : call (aws_result (list string))
| DescribeTasks (cluster : string) (tasks : list string) : call (aws_result (list json))
(* requests *)
| HttpGet (url auth : string) (params : list (string * string)) : call http_result
| HttpPost (url auth : string) (payload : json) : call http_result
(* the local host *)
| Sleep (seconds : Z) : call unit
| Time : call Z
| Input (prompt : string) : call string
| ReadCredFile : call cred_file
| WriteCredFile (data : json) : call bool.

(** Calls that change remote state, as opposed to describe/list/get. *)
Definition is_mutating {R} (c : call R) : bool :=
  match c with
  | CreateBucket _ _ | PutPublicAccessBlock _ _ | PutBucketPolicy _ _
  | CreateOpenIDConnectProvider _ _ _ | CreateRole _ _ _ | PutRolePolicy _ _ _
  | PutSecretValue _ _ | CreateSecret _ _ _ | CreateCluster _
  | RegisterTaskDefinition _ | CreateService _ | HttpPost _ _ _ => true
  | _ => false
  end.

(** Remote calls that only read. *)
Definition is_read {R} (c : call R) : bool :=
  match c with
  | GetCallerIdentity | HeadBucket _ | WaitBucketExists _ | GetBucketPolicy _
  | ListOpenIDConnectProviders | GetOpenIDConnectProvider _ | GetRole _
  | DescribeSecret _ | DescribeClusters _ | ListServices _ | ListTasks _ _
  | DescribeTasks _ _ | HttpGet _ _ _ => true
  | _ => false
  end.

(** A program: it returns, or prints [msg] and calls [sys.exit(1)], or
    dies of an exception nobody catches, or asks the world something and
    goes on with the answer.  [OutOfFuel] marks a clock-driven loop cut
    off by its iteration bound. *)
Inductive prog (A : Type) : Type :=
| Ret (a : A)
| Exit (msg : string)
| Raise (exn : string)
| OutOfFuel
| Do (R : Type) (c : call R) (k : R -> prog A).
Arguments Ret {A} a.
Arguments Exit {A} msg.
Arguments Raise {A} exn.
Arguments OutOfFuel {A}.
Arguments Do {A R} c k.

Fixpoint prog_bind {A B} (f : A -> prog B) (p : prog A) : prog B :=
  match p with
  | Ret a => f a
  | Exit m => Exit m
  | Raise e => Raise e
  | OutOfFuel => OutOfFuel
  | Do c k => Do c (fun r => prog_bind f (k r))
  end.

#[global] Instance prog_mret : MRet prog := @Ret.
#[global] Instance prog_mbind : MBind prog := @prog_bind.
#[global] Instance prog_fmap : FMap prog := λ A B f, prog_bind (λ a, Ret (f a)).

Definition perform {R} (c : call R) : prog R := Do c Ret.

(** ** Running a program against a world *)

Definition handler (W : Type) : Type := forall R, call R -> W -> R * W.

Inductive event : Type :=
| Ev (R : Type) (c : call R) (r : R).
Arguments Ev {R} c r.

Inductive outcome (A : Type) : Type :=
| Returned (a : A)
| Exited (msg : string)
| Raised (exn : string)
| Unfinished.
Arguments Returned {A} a.
Arguments Exited {A} msg.
Arguments Raised {A} exn.
Arguments Unfinished {A}.

Record execution (A W : Type) := {
  result : outcome A;
  trace : list event;
  final : W }.
Arguments result {A W} e.
Arguments trace {A W} e.
Arguments final {A W} e.

Fixpoint run {A W} (h : handler W) (p : prog A) (w : W) : execution A W :=
  match p with
  | Ret a => {| result := Returned a; trace := []; final := w |}
  | Exit m => {| result := Exited m; trace := []; final := w |}
  | Raise e => {| result := Raised e; trace := []; final := w |}
  | OutOfFuel => {| result := Unfinished; trace := []; final := w |}
  | Do c k =>
      let '(r, w') := h _ c w in
      let e := run h (k r) w' in
      {| result := result e; trace := Ev c r :: trace e; final := final e |}
  end.

Definition event_mutating (e : event) : bool :=
  match e with Ev c _ => is_mutating c end.

Definition event_read (e : event) : bool :=
  match e with Ev c _ => is_read c end.

Definition mutating_calls (t : list event) : nat :=
  List.length (List.filter event_mutating t).

Definition read_calls (t : list event) : nat :=
  List.length (List.filter event_read t).

(** The run ended the whole script: [sys.exit(1)] or a traceback. *)
Definition aborted {A} (o : outcome A) : Prop :=
  match o with
  | Exited _ | Raised _ => True
  | _ => False
  end.

(** ** [parse_github_repo] *)

Definition ssh_pattern : regex :=
  Seq (Lit "git@github.com:")
  (Seq (Group "owner" (PlusNot "/"))
  (Seq (Lit "/")
  (Seq (Group "repo" (PlusNot "/"))
       (Opt (Group "3" (Lit ".git")))))).

Definition https_pattern : regex :=
  Seq (Lit "https://github.com/")
  (Seq (Group "owner" (PlusNot "/"))
  (Seq (Lit "/")
  (Seq (Group "repo" (PlusNot "/"))
       (Opt (Group "3" (Lit ".git")))))).

(** [match.group(name)]. *)
Definition group (m : captures) (name : string) : prog string :=
  match cap_lookup name m with
  | Some v => Ret v
  | None => Raise "IndexError"
  end.

Definition parse_github_repo (url : string) : prog (string * string) :=
  let m := match re_match ssh_pattern url with
           | Some m => Some m
           | None => re_match https_pattern url
           end in
  match m with
  | Some m =>
      owner ← group m "owner";
      repo ← group m "repo";
      let repo := str_replace ".git" "" repo in
      Ret (owner, repo)
  | None =>
      Exit ("Could not parse GitHub repository info from remote URL: " +:+ url)
  end.

(** ** [prompt_for_vpc_cidr] *)

Definition cidr_options : list string :=
  ["10.0.0.0/16"; "192.168.0.0/16"; "172.31.0.0/16"].

Section Prompt.
(** The two builtins the prompt calls are parameters of its model:
    [strip s] is [s.strip()] and [int_of s] is [int(s)], [None] when it
    raises.  Nothing is assumed of them, so that what is proved of the
    prompt holds for the interpreter's own, on any text. *)
Variable strip : string -> string.
Variable int_of : string -> option Z.

(** The [try] block: the index, or [None] when [int] or the range check
    raises. *)
Definition cidr_index (choice : string) : option Z :=
  idx ← (if String.eqb choice "" then Some 0 else (λ n, n - 1) <$> int_of choice);
  if (idx <? 0) || (idx >=? Z.of_nat (List.length cidr_options)) then None else Some idx.

Definition prompt_for_vpc_cidr : prog string :=
  line ← perform (Input "Enter option number (default 1): ");
  let choice := strip line in
  let idx := match cidr_index choice with
             | Some idx => idx
             | None => 0
             end in
  match cidr_options !! Z.to_nat idx with
  | Some selected_vpc_cidr => Ret selected_vpc_cidr
  | None => Raise "IndexError"
  end.
End Prompt.

Definition compute_public_subnet_cidr (vpc_cidr : string) : string :=
  if String.eqb vpc_cidr "10.0.0.0/16" then "10.0.1.0/24"
  else if String.eqb vpc_cidr "192.168.0.0/16" then "192.168.1.0/24"
  else if String.eqb vpc_cidr "172.31.0.0/16" then "172.31.0.0/16"
  else "10.0.1.0/24".

(** ** Python idioms over decoded documents *)

(** [d.get(key, default)]: [AttributeError] unless [d] is a dict. *)
Definition py_get (d : json) (key : string) (default : json) : prog json :=
  match d with
  | JObj items => Ret (from_option id default (dict_lookup key items))
  | _ => Raise "AttributeError"
  end.

(** [d[key]]. *)
Definition py_item (d : json) (key : string) : prog json :=
  match d with
  | JObj items =>
      match dict_lookup key items with
      | Some v => Ret v
      | None => Raise "KeyError"
      end
  | _ => Raise "TypeError"
  end.

(** [for x in v]: the elements of a list, the keys of a dict, the
    characters of a string; anything else is not iterable. *)
Definition py_iter (v : json) : prog (list json) :=
  match v with
  | JArr l => Ret l
  | JObj items => Ret ((λ kv, JStr kv.1) <$> items)
  | JStr s => Ret ((λ c, JStr (String c EmptyString)) <$> String.list_ascii_of_string s)
  | _ => Raise "TypeError"
  end.

(** [v[0]] for a truthy [v]. *)
Definition py_first (v : json) : prog json :=
  match v with
  | JArr (x :: _) => Ret x
  | JArr [] => Raise "IndexError"
  | JStr (String c _) => Ret (JStr (String c EmptyString))
  | JStr EmptyString => Raise "IndexError"
  | JObj _ => Raise "KeyError"
  | _ => Raise "TypeError"
  end.

(** [response.json()]. *)
Definition response_json (r : http_response) : prog json :=
  match json_body r with
  | Some j => Ret j
  | None => Raise "JSONDecodeError"
  end.

(** [requests.get(...)] outside any [try]. *)
Definition requests_get (url auth : string) (params : list (string * string))
    : prog http_response :=
  r ← perform (HttpGet url auth params);
  match r with
  | Responded resp => Ret resp
  | RequestFailed e => Raise e
  end.

Definition requests_post (url auth : string) (payload : json) : prog http_response :=
  r ← perform (HttpPost url auth payload);
  match r with
  | Responded resp => Ret resp
  | RequestFailed e => Raise e
  end.

(** ** boto3 calls under the script's three [try] shapes *)

(** No [try] around the call: every exception leaves the script. *)
Definition unguarded {A} (c : call (aws_result A)) : prog A :=
  r ← perform c;
  match r with
  | AwsOk a => Ret a
  | ClientError code => Raise ("ClientError: " +:+ code)
  | BotoError e => Raise e
  end.

(** [try: call  except ClientError as e: print(msg, e); sys.exit(1)]. *)
Definition or_exit_on_client_error {A} (msg : string) (c : call (aws_result A)) : prog A :=
  r ← perform c;
  match r with
  | AwsOk a => Ret a
  | ClientError code => Exit (msg +:+ " " +:+ code)
  | BotoError e => Raise e
  end.

(** [try: call  except Exception as e: print(msg, e); sys.exit(1)]. *)
Definition or_exit_on_exception {A} (msg : string) (c : call (aws_result A)) : prog A :=
  r ← perform c;
  match r with
  | AwsOk a => Ret a
  | ClientError code => Exit (msg +:+ " " +:+ code)
  | BotoError e => Exit (msg +:+ " " +:+ e)
  end.

(** ** S3 bucket functions *)

Definition get_account_id : prog string :=
  Account <$> or_exit_on_client_error "Failed to retrieve AWS account ID:" GetCallerIdentity.

Definition block_all_public_access : public_access_block :=
  {| BlockPublicAcls := true; IgnorePublicAcls := true;
     BlockPublicPolicy := true; RestrictPublicBuckets := true |}.

Definition create_s3_bucket (base_bucket_name region : string) : prog string :=
  account_id ← get_account_id;
  let bucket_name := base_bucket_name +:+ "-" +:+ account_id +:+ "-" +:+ region in
  head ← perform (HeadBucket bucket_name);
  (match head with
   | AwsOk _ => Ret tt
   | ClientError error_code =>
       if String.eqb error_code "404" || String.eqb error_code "NoSuchBucket" then
         or_exit_on_client_error
           ("Failed to create S3 bucket '" +:+ bucket_name +:+ "':")
           (CreateBucket bucket_name region);;
         or_exit_on_client_error
           ("Failed to create S3 bucket '" +:+ bucket_name +:+ "':")
           (WaitBucketExists bucket_name)
       else
         Exit ("Error checking S3 bucket '" +:+ bucket_name +:+ "': " +:+ error_code)
   | BotoError e => Raise e
   end);;
  (* Apply public access block *)
  or_exit_on_client_error
    ("Failed to set public access block for bucket '" +:+ bucket_name +:+ "':")
    (PutPublicAccessBlock bucket_name block_all_public_access);;
  Ret bucket_name.

Definition default_base_bucket_name : string := "resourcely-campaigns-terraform-state".
Definition default_region : string := "us-west-2".

(** ** S3 bucket permissions *)

Definition get_current_aws_principal : prog string :=
  Arn <$> or_exit_on_client_error "Failed to retrieve AWS principal ARN:" GetCallerIdentity.

Definition intended_statement_items (principal_arn bucket_name : string)
    : list (string * json) :=
  [ ("Sid", JStr "AllowLocalDockerAccess");
    ("Effect", JStr "Allow");
    ("Principal", JObj [("AWS", JStr principal_arn)]);
    ("Action", JArr [JStr "s3:GetObject"; JStr "s3:PutObject"; JStr "s3:ListBucket"]);
    ("Resource", JArr [JStr ("arn:aws:s3:::" +:+ bucket_name);
                       JStr ("arn:aws:s3:::" +:+ bucket_name +:+ "/*")]) ].

Definition intended_statement (principal_arn bucket_name : string) : json :=
  JObj (intended_statement_items principal_arn bucket_name).

(** What the [for stmt in current_policy["Statement"]] loop decides. *)
Inductive statement_scan : Type :=
| AlreadyApplied                     (* the [return] inside the loop *)
| Updated (statements : list json)   (* [stmt.update(...)] then [break] *)
| NotFound                           (* loop ran out, [statement_found] false *)
| ScanRaised (exn : string).

Fixpoint scan_statements (intended : list (string * json)) (statements : list json)
    : statement_scan :=
  match statements with
  | [] => NotFound
  | stmt :: rest =>
      match stmt with
      | JObj items =>
          if py_eq (from_option id JNull (dict_lookup "Sid" items))
                   (JStr "AllowLocalDockerAccess")
          then
            if py_eq stmt (JObj intended) then AlreadyApplied
            else Updated (JObj (dict_update items intended) :: rest)
          else
            match scan_statements intended rest with
            | Updated rest' => Updated (stmt :: rest')
            | other => other
            end
      | _ => ScanRaised "AttributeError"
      end
  end.

Definition apply_bucket_policy (bucket_name : string) : prog unit :=
  principal_arn ← get_current_aws_principal;
  let intended := intended_statement_items principal_arn bucket_name in
  (* Try to retrieve the current bucket policy. *)
  got ← perform (GetBucketPolicy bucket_name);
  current_policy ←
    match got with
    | AwsOk policy => Ret policy
    | ClientError code =>
        if String.eqb code "NoSuchBucketPolicy"
        then Ret (JObj [("Version", JStr "2012-10-17"); ("Statement", JArr [])])
        else Exit ("Failed to retrieve bucket policy: " +:+ code)
    | BotoError e => Raise e
    end;
  statements ← py_item current_policy "Statement";
  match statements, current_policy with
  | JArr stmts, JObj policy_items =>
      let put (stmts' : list json) : prog unit :=
        or_exit_on_client_error "Failed to update bucket policy:"
          (PutBucketPolicy bucket_name
             (JObj (dict_set "Statement" (JArr stmts') policy_items))) in
      match scan_statements intended stmts with
      | AlreadyApplied => Ret tt
      | Updated stmts' => put stmts'
      | NotFound => put (stmts ++ [JObj intended])
      | ScanRaised e => Raise e
      end
  | JStr _, _ | JObj _, _ => Raise "AttributeError"
  | _, _ => Raise "TypeError"
  end.

Definition terraform_state_policy_document : json :=
  JObj [ ("Version", JStr "2012-10-17");
         ("Statement", JArr [
            JObj [ ("Sid", JStr "AllowS3ListBucket");
                   ("Effect", JStr "Allow");
                   ("Action", JStr "s3:ListBucket");
                   ("Resource", JStr "arn:aws:s3:::resourcely-campaigns*") ];
            JObj [ ("Sid", JStr "AllowS3ObjectAccess");
                   ("Effect", JStr "Allow");
                   ("Action", JArr [JStr "s3:GetObject"; JStr "s3:PutObject";
                                    JStr "s3:DeleteObject"]);
                   ("Resource", JStr "arn:aws:s3:::resourcely-campaigns*/*") ];
            JObj [ ("Sid", JStr "AllowFullS3BucketManagementForCampaigns");
                   ("Effect", JStr "Allow");
                   ("Action", JStr "s3:*");
                   ("Resource", JStr "*") ];
            JObj [ ("Sid", JStr "AllowS3GetBucketPolicy");
                   ("Effect", JStr "Allow");
                   ("Action", JStr "s3:GetBucketPolicy");
                   ("Resource", JStr "arn:aws:s3:::resourcely-campaigns*") ] ]) ].

Definition attach_s3_policy_to_role (role_name bucket_name : string) : prog unit :=
  or_exit_on_client_error "Failed to attach S3 policy to role:"
    (PutRolePolicy role_name "TerraformStateS3AccessPolicy" terraform_state_policy_document).

(** ** OIDC provider *)

Definition target_url : string := "https://token.actions.githubusercontent.com".
Definition normalized_target_url : string := str_replace "https://" "" target_url.
Definition target_client_ids : list string := ["sts.amazonaws.com"].
Definition thumbprint : string := "6938fd4d98bab03faadb97b34396831e3780aea1".

(** The [for provider in providers] loop, which the function runs before
    creating and again after a lost race: the first provider whose
    details can be read and whose URL, stripped of ["https://"], is the
    target's.  A [ClientError] on the details is skipped ([continue]). *)
Fixpoint find_oidc_provider (providers : list string) : prog (option string) :=
  match providers with
  | [] => Ret None
  | provider_arn :: rest =>
      details ← perform (GetOpenIDConnectProvider provider_arn);
      match details with
      | AwsOk url =>
          let provider_url := from_option id "" url in
          let normalized_provider_url := str_replace "https://" "" provider_url in
          if String.eqb normalized_provider_url normalized_target_url
          then Ret (Some provider_arn)
          else find_oidc_provider rest
      | ClientError _ => find_oidc_provider rest
      | BotoError e => Raise e
      end
  end.

Definition create_oidc_provider : prog string :=
  (* List existing OIDC providers *)
  providers ← unguarded ListOpenIDConnectProviders;
  found ← find_oidc_provider providers;
  match found with
  | Some provider_arn => Ret provider_arn
  | None =>
      (* Provider not found; attempt to create it *)
      created ← perform (CreateOpenIDConnectProvider target_url target_client_ids [thumbprint]);
      match created with
      | AwsOk provider_arn =>
          perform (Sleep 5);;
          Ret provider_arn
      | ClientError code =>
          if String.eqb code "EntityAlreadyExists" then
            providers ← unguarded ListOpenIDConnectProviders;
            found ← find_oidc_provider providers;
            match found with
            | Some provider_arn => Ret provider_arn
            | None => Exit "OIDC provider exists but could not be retrieved."
            end
          else Exit ("Failed to create OIDC provider: " +:+ code)
      | BotoError e => Raise e
      end
  end.

(** ** ECS deployment *)

Definition create_or_update_consolidated_secret (secret_name : string) (secret_data : json)
    : prog string :=
  let failed := "Failed to create or update consolidated secret '" +:+ secret_name +:+ "':" in
  let create := unguarded (CreateSecret secret_name secret_data
                             "Consolidated secrets for campaigns agent") in
  described ← perform (DescribeSecret secret_name);
  match described with
  | AwsOk secret_arn =>
      (* If it exists, update its value. *)
      updated ← perform (PutSecretValue secret_name secret_data);
      match updated with
      | AwsOk _ => Ret secret_arn
      | ClientError code =>
          if String.eqb code "ResourceNotFoundException" then create
          else Exit (failed +:+ " " +:+ code)
      | BotoError e => Exit (failed +:+ " " +:+ e)
      end
  | ClientError code =>
      if String.eqb code "ResourceNotFoundException" then create
      else Exit (failed +:+ " " +:+ code)
  | BotoError e => Exit (failed +:+ " " +:+ e)
  end.

Definition ecs_trust_policy : json :=
  JObj [ ("Version", JStr "2012-10-17");
         ("Statement", JArr [
            JObj [ ("Effect", JStr "Allow");
                   ("Principal", JObj [("Service", JStr "ecs-tasks.amazonaws.com")]);
                   ("Action", JStr "sts:AssumeRole") ] ]) ].

Definition ecs_inline_policy (bucket_name : string) : json :=
  JObj [ ("Version", JStr "2012-10-17");
         ("Statement", JArr [
            JObj [ ("Sid", JStr "AllowS3Access");
                   ("Effect", JStr "Allow");
                   ("Action", JArr [JStr "s3:ListBucket"; JStr "s3:GetObject";
                                    JStr "s3:PutObject"; JStr "s3:DeleteObject"]);
                   ("Resource", JArr [JStr ("arn:aws:s3:::" +:+ bucket_name);
                                      JStr ("arn:aws:s3:::" +:+ bucket_name +:+ "/*")]) ];
            JObj [ ("Sid", JStr "AllowSecretsManagerAccess");
                   ("Effect", JStr "Allow");
                   ("Action", JArr [JStr "secretsmanager:GetSecretValue"]);
                   ("Resource", JStr "*") ] ]) ].

Definition ensure_ecs_role (role_name bucket_name : string) : prog string :=
  (* Check if the role exists *)
  got ← perform (GetRole role_name);
  (match got with
   | AwsOk _ => Ret tt
   | ClientError code =>
       if String.eqb code "NoSuchEntity" then
         or_exit_on_client_error ("Failed to create IAM role '" +:+ role_name +:+ "':")
           (CreateRole role_name ecs_trust_policy
              "Role for campaigns agent with access to S3 and Secrets Manager");;
         (* Wait briefly for role propagation. *)
         perform (Sleep 5)
       else Raise ("ClientError: " +:+ code)
   | BotoError e => Raise e
   end);;
  (* Attach or update the inline policy *)
  or_exit_on_client_error ("Failed to attach inline policy to role '" +:+ role_name +:+ "':")
    (PutRolePolicy role_name "CampaignsAgentS3AndSecretsPolicy" (ecs_inline_policy bucket_name));;
  unguarded (GetRole role_name).

Definition ensure_ecs_roles (bucket_name : string) : prog (string * string) :=
  task_role_arn ← ensure_ecs_role "resourcely_campaigns-agent-task-role" bucket_name;
  execution_role_arn ← ensure_ecs_role "resourcely_campaigns-agent-execution-role" bucket_name;
  Ret (task_role_arn, execution_role_arn).

Definition ensure_ecs_cluster (cluster_name : string) : prog string :=
  let failed := "Error ensuring ECS cluster exists:" in
  response ← or_exit_on_exception failed (DescribeClusters [cluster_name]);
  (if bool_decide (failures response ≠ []) ||
      match clusters response with
      | [] => true
      | status :: _ => negb (String.eqb status "ACTIVE")
      end
   then or_exit_on_exception failed (CreateCluster cluster_name)
   else Ret tt);;
  Ret cluster_name.

Definition container_definitions (consolidated_secret_arn : string) : json :=
  JArr [
    JObj [ ("name", JStr "resourcely_campaigns_agent");
           ("image", JStr "ghcr.io/resourcely-inc/campaigns-agent:dev-latest");
           ("cpu", JNum 0);
           ("portMappings", JArr []);
           ("essential", JBool true);
           ("environment", JArr [
              JObj [("name", JStr "AUTH0_DOMAIN");
                    ("value", JStr "https://login.portal.dev.resourcely.io")];
              JObj [("name", JStr "APP_ENV"); ("value", JStr "dev")];
              JObj [("name", JStr "RESOURCELY_API_HOST");
                    ("value", JStr "https://api.dev.resourcely.io")];
              JObj [("name", JStr "AUTH0_AUDIENCE");
                    ("value", JStr "https://campaigns-agent.dev.resourcely.io")] ]);
           ("secrets", JArr [
              JObj [("name", JStr "RESOURCELY_NGROK_TUNNEL_SEED");
                    ("valueFrom", JStr (consolidated_secret_arn +:+ ":RESOURCELY_NGROK_TUNNEL_SEED::"))];
              JObj [("name", JStr "RESOURCELY_NGROK_TOKEN");
                    ("valueFrom", JStr (consolidated_secret_arn +:+ ":RESOURCELY_NGROK_TOKEN::"))];
              JObj [("name", JStr "RESOURCELY_API_TOKEN");
                    ("valueFrom", JStr (consolidated_secret_arn +:+ ":RESOURCELY_API_TOKEN::"))] ]);
           ("logConfiguration", JObj [
              ("logDriver", JStr "awslogs");
              ("options", JObj [
                 ("awslogs-group", JStr "/ecs/resourcely_campaigns_agent");
                 ("mode", JStr "non-blocking");
                 ("awslogs-create-group", JStr "true");
                 ("max-buffer-size", JStr "25m");
                 ("awslogs-region", JStr "us-west-2");
                 ("awslogs-stream-prefix", JStr "ecs") ]) ]) ] ].

Definition service_name : string := "resourcely-campaigns-agent".

(** The steps of [deploy_as_ecs_service] after the existing-service check. *)
Definition deploy_new_service (account_id cluster_name : string)
    (ngrok_seed ngrok_token resourcely_api_token : json)
    (bucket_name : string) (network : network_config) : prog unit :=
  let consolidated_secret_data :=
    JObj [ ("RESOURCELY_NGROK_TUNNEL_SEED", ngrok_seed);
           ("RESOURCELY_NGROK_TOKEN", ngrok_token);
           ("RESOURCELY_API_TOKEN", resourcely_api_token) ] in
  let consolidated_secret_name := "campaigns_agent_resourcely_secrets_" +:+ account_id in
  consolidated_secret_arn ←
    create_or_update_consolidated_secret consolidated_secret_name consolidated_secret_data;
  (* Ensure IAM roles (task and execution) exist. *)
  '(task_role_arn, execution_role_arn) ← ensure_ecs_roles bucket_name;
  (* Register task definition. *)
  task_def_arn ←
    or_exit_on_client_error "Failed to register task definition:"
      (RegisterTaskDefinition
         {| family := "resourcely_campaigns_agent";
            requiresCompatibilities := ["FARGATE"];
            networkMode := "awsvpc";
            containerDefinitions := container_definitions consolidated_secret_arn;
            taskRoleArn := task_role_arn;
            executionRoleArn := execution_role_arn;
            cpu := "1024";
            memory := "3072" |});
  (* Create the ECS service with Fargate launch type. *)
  or_exit_on_client_error "Failed to create ECS service:"
    (CreateService
       {| cluster := cluster_name;
          serviceName := service_name;
          taskDefinition := task_def_arn;
          desiredCount := 1;
          launchType := "FARGATE";
          networkConfiguration := network;
          assignPublicIp := "ENABLED" |}).

Definition deploy_as_ecs_service (ngrok_seed ngrok_token resourcely_api_token : json)
    (bucket_name : string) (network : network_config) : prog unit :=
  (* Get AWS account ID to namespace the secrets *)
  account_id ← get_account_id;
  cluster_name ← ensure_ecs_cluster "resourcely-campaigns";
  (* Check if the service already exists in the cluster. *)
  services ← or_exit_on_client_error "Failed to list ECS services:" (ListServices cluster_name);
  if existsb (str_contains service_name) services
  then Ret tt
  else deploy_new_service account_id cluster_name ngrok_seed ngrok_token
         resourcely_api_token bucket_name network.

(** ** Pollers *)

(** What one look at the remote state tells a poller. *)
Inductive poll_outcome : Type :=
| Success
| Failure (reason : string)
| Pending.

Definition plan_job_name : string :=
  "plan_and_apply / plan-and-apply-app-dev-us-west-2 / Plan Sandbox".

(** The [for job in jobs] loop of [wait_for_plan_job_success]: [Success]
    is its [return], [Failure] its [sys.exit(1)], [Pending] falling out
    of the loop. *)
Fixpoint scan_jobs (jobs : list json) : prog poll_outcome :=
  match jobs with
  | [] => Ret Pending
  | job :: rest =>
      name ← py_get job "name" JNull;
      if py_eq name (JStr plan_job_name) then
        job_status ← py_get job "status" JNull;
        job_conclusion ← py_get job "conclusion" JNull;
        if py_eq job_status (JStr "completed") && py_eq job_conclusion (JStr "success")
        then Ret Success
        else if py_eq job_status (JStr "completed") && negb (py_eq job_conclusion (JStr "success"))
        then Ret (Failure (py_show job_conclusion))
        else scan_jobs rest
      else scan_jobs rest
  end.

Section PlanJob.
Variables (owner repo commit_sha github_token : string).
Variables (timeout poll_interval : Z).

Definition github_auth : string := "token " +:+ github_token.
Definition runs_url : string :=
  "https://api.github.com/repos/" +:+ owner +:+ "/" +:+ repo +:+ "/actions/runs".

(** One pass through the body of the [while], up to the [time.sleep]. *)
Definition evaluate_plan_job : prog poll_outcome :=
  (* Get workflow runs, then filter by head_sha *)
  response ← requests_get runs_url github_auth [("head_sha", commit_sha); ("event", "push")];
  if negb (status_code response =? 200) then
    response_json response;;
    Exit "Failed to retrieve workflow runs:"
  else
    body ← response_json response;
    runs ← py_get body "workflow_runs" (JArr []);
    if py_truthy runs then
      latest_run ← py_first runs;
      run_id ← py_get latest_run "id" JNull;
      (* Now get the jobs for this run *)
      let jobs_url := runs_url +:+ "/" +:+ py_show run_id +:+ "/jobs" in
      jobs_response ← requests_get jobs_url github_auth [];
      if negb (status_code jobs_response =? 200) then
        response_json jobs_response;;
        Exit "Failed to retrieve jobs for workflow run:"
      else
        jobs_body ← response_json jobs_response;
        jobs ← py_get jobs_body "jobs" (JArr []);
        jobs ← py_iter jobs;
        scan_jobs jobs
    else Ret Pending.

(** The [while time.time() - start_time < timeout] loop; [fuel] bounds
    the number of passes. *)
Fixpoint plan_job_loop (fuel : nat) (start_time : Z) : prog unit :=
  match fuel with
  | O => OutOfFuel
  | S fuel' =>
      now ← perform Time;
      if now - start_time <? timeout then
        o ← evaluate_plan_job;
        match o with
        | Success => Ret tt
        | Failure job_conclusion =>
            Exit ("'Plan Sandbox' job failed with conclusion: " +:+ job_conclusion)
        | Pending =>
            perform (Sleep poll_interval);;
            plan_job_loop fuel' start_time
        end
      else
        Exit ("Timeout waiting for 'Plan Sandbox' job to complete successfully for commit "
              +:+ commit_sha)
  end.

Definition wait_for_plan_job_success (fuel : nat) : prog unit :=
  start_time ← perform Time;
  plan_job_loop fuel start_time.
End PlanJob.

(** The loop shared, word for word, by the three diagnostics pollers:
    [evaluate] answers [true] where the source returns.
<<
    attempt = 0
    while attempt < max_attempts:
        ...
        attempt += 1
        if attempt < max_attempts:
            time.sleep(interval)
    print(timeout_message); sys.exit(1)
>>
    [remaining] is [max_attempts - attempt]. *)
Fixpoint poll_attempts (evaluate : prog bool) (interval : Z) (timeout_message : string)
    (remaining : nat) : prog unit :=
  match remaining with
  | O => Exit timeout_message
  | S remaining' =>
      finished ← evaluate;
      if finished : bool then Ret tt
      else
        (match remaining' with
         | O => Ret tt
         | S _ => perform (Sleep interval)
         end);;
        poll_attempts evaluate interval timeout_message remaining'
  end.

Definition resourcely_auth (api_token : string) : string := "Bearer " +:+ api_token.

Definition evaluate_yaml_config (api_token repo_url : string) : prog bool :=
  response ← requests_get "https://api.dev.resourcely.io/api/v1/diagnostics/yaml-config"
               (resourcely_auth api_token) [];
  if negb (status_code response =? 200) then Ret false
  else
    let fqdn_repo_url := "https://github.com/" +:+ repo_url in
    data ← response_json response;
    repos ← py_get data "repos" (JObj []);
    repo_diag ← py_get repos fqdn_repo_url JNull;
    if py_truthy repo_diag then
      result ← py_get repo_diag "result" JNull;
      errors ← py_get repo_diag "errors" (JArr []);
      if py_eq result (JStr "TF_CONFIG_SCAN_RESULT_VALID_CONFIG") && negb (py_truthy errors)
      then Ret true
      else Ret false
    else Ret false.

Definition poll_yaml_config_diagnostics (api_token repo_url : string)
    (max_attempts : nat) (interval : Z) : prog unit :=
  poll_attempts (evaluate_yaml_config api_token repo_url) interval
    "Timeout: YAML configuration diagnostics did not become valid after maximum attempts."
    max_attempts.

Definition status_success : json := JStr "DIAGNOSTIC_STATUS_SUCCESS".

(** [all(check.get("status") == ... for check in checks)]. *)
Fixpoint all_checks_success (checks : list json) : prog bool :=
  match checks with
  | [] => Ret true
  | check :: rest =>
      status ← py_get check "status" JNull;
      if py_eq status status_success then all_checks_success rest else Ret false
  end.

Fixpoint scan_sources (diagnostics : list json) : prog bool :=
  match diagnostics with
  | [] => Ret false
  | diagnostic :: rest =>
      source ← py_get diagnostic "source" (JStr "");
      if py_eq source (JStr "DIAGNOSTIC_SOURCE_GITLAB") ||
         py_eq source (JStr "DIAGNOSTIC_SOURCE_GITHUB") then
        checks ← py_get diagnostic "checks" (JArr []);
        checks ← py_iter checks;
        ok ← all_checks_success checks;
        if ok : bool then Ret true else scan_sources rest
      else scan_sources rest
  end.

Definition evaluate_diagnostics (api_token : string) : prog bool :=
  response ← requests_get "https://api.dev.resourcely.io/api/v1/diagnostics"
               (resourcely_auth api_token) [];
  if negb (status_code response =? 200) then Ret false
  else
    data ← response_json response;
    diagnostics ← py_get data "diagnostics" (JArr []);
    diagnostics ← py_iter diagnostics;
    scan_sources diagnostics.

Definition poll_diagnostics (api_token : string) (max_attempts : nat) (interval : Z)
    : prog unit :=
  poll_attempts (evaluate_diagnostics api_token) interval
    "Timeout: GitHub diagnostics did not reach success status after maximum attempts."
    max_attempts.

Definition required_checks : list string :=
  [ "DIAGNOSTIC_TYPE_CAMPAIGNS_AGENT_REGISTERED";
    "DIAGNOSTIC_TYPE_CAMPAIGNS_AGENT_REACHABLE";
    "DIAGNOSTIC_TYPE_CAMPAIGNS_AGENT_EVALUATIONS" ].

(** [for check in diagnostic.get("checks", [])]: record the status of a
    required check unless a success is already recorded for it. *)
Fixpoint collect_checks (checks : list json) (check_statuses : list (string * json))
    : prog (list (string * json)) :=
  match checks with
  | [] => Ret check_statuses
  | check :: rest =>
      ctype ← py_get check "type" JNull;
      cstatus ← py_get check "status" JNull;
      match ctype with
      | JStr t =>
          if bool_decide (t ∈ required_checks) then
            if negb (py_eq (from_option id JNull (dict_lookup t check_statuses)) status_success)
            then collect_checks rest (dict_set t cstatus check_statuses)
            else collect_checks rest check_statuses
          else collect_checks rest check_statuses
      | JArr _ | JObj _ => Raise "TypeError"   (* unhashable, [in] on a dict *)
      | _ => collect_checks rest check_statuses
      end
  end.

Fixpoint collect_diagnostics (diagnostics : list json) (check_statuses : list (string * json))
    : prog (list (string * json)) :=
  match diagnostics with
  | [] => Ret check_statuses
  | diagnostic :: rest =>
      checks ← py_get diagnostic "checks" (JArr []);
      checks ← py_iter checks;
      check_statuses ← collect_checks checks check_statuses;
      collect_diagnostics rest check_statuses
  end.

Definition all_required_success (check_statuses : list (string * json)) : bool :=
  forallb (λ k, py_eq (from_option id JNull (dict_lookup k check_statuses)) status_success)
    required_checks.

Definition evaluate_agent_diagnostics (api_token : string) : prog bool :=
  response ← requests_get "https://api.dev.resourcely.io/api/v1/diagnostics"
               (resourcely_auth api_token) [];
  if negb (status_code response =? 200) then
    Exit ("Failed to retrieve diagnostics (status code " +:+ pretty (status_code response)
          +:+ "): " +:+ text response)
  else
    data ← response_json response;
    diagnostics ← py_get data "diagnostics" (JArr []);
    diagnostics ← py_iter diagnostics;
    (* Prepare a dictionary to collect statuses for our required checks. *)
    check_statuses ← collect_diagnostics diagnostics ((λ k, (k, JNull)) <$> required_checks);
    Ret (all_required_success check_statuses).

Definition poll_agent_diagnostics (api_token : string) (max_attempts : nat) (interval : Z)
    : prog unit :=
  poll_attempts (evaluate_agent_diagnostics api_token) interval
    "Timeout: Campaigns agent diagnostics did not become successful after maximum attempts."
    max_attempts.

(** [wait_for_ecs_service_running]: [Success] as soon as a listed task
    is RUNNING; there is no failing branch. *)
Fixpoint any_task_running (tasks : list json) : prog bool :=
  match tasks with
  | [] => Ret false
  | task :: rest =>
      last_status ← py_get task "lastStatus" JNull;
      if py_eq last_status (JStr "RUNNING") then Ret true else any_task_running rest
  end.

Definition evaluate_ecs_service (cluster_name service : string) : prog poll_outcome :=
  task_arns ← or_exit_on_exception "Error listing ECS tasks:" (ListTasks cluster_name service);
  match task_arns with
  | [] => Ret Pending
  | _ =>
      tasks ← or_exit_on_exception "Error describing ECS tasks:"
                (DescribeTasks cluster_name task_arns);
      running ← any_task_running tasks;
      Ret (if running : bool then Success else Pending)
  end.

Fixpoint ecs_service_loop (cluster_name service : string) (timeout poll_interval : Z)
    (fuel : nat) (start_time : Z) : prog unit :=
  match fuel with
  | O => OutOfFuel
  | S fuel' =>
      now ← perform Time;
      if now - start_time <? timeout then
        o ← evaluate_ecs_service cluster_name service;
        match o with
        | Success => Ret tt
        | _ =>
            perform (Sleep poll_interval);;
            ecs_service_loop cluster_name service timeout poll_interval fuel' start_time
        end
      else Exit "Timeout waiting for ECS service tasks to reach RUNNING state."
  end.

Definition wait_for_ecs_service_running (cluster_name service : string)
    (timeout poll_interval : Z) (fuel : nat) : prog unit :=
  start_time ← perform Time;
  ecs_service_loop cluster_name service timeout poll_interval fuel start_time.

(** ** The tunnel *)

Definition load_ngrok_credentials : prog (option json) :=
  file ← perform ReadCredFile;
  match file with
  | NoCredFile => Ret None
  | UnreadableCredFile => Ret None
  | CredFile data =>
      (* every exception below is caught by [except Exception] *)
      match data with
      | JObj items =>
          let tunnel := from_option id JNull (dict_lookup "tunnel" items) in
          match tunnel with
          | JObj t =>
              if py_truthy tunnel
                 && py_truthy (from_option id JNull (dict_lookup "seed" t))
                 && py_truthy (from_option id JNull (dict_lookup "auth_token" t))
              then Ret (Some data)
              else Ret None
          | _ => Ret None
          end
      | _ => Ret None
      end
  end.

Definition save_ngrok_credentials (data : json) : prog unit :=
  saved ← perform (WriteCredFile data);
  if saved : bool then Ret tt else Exit "Failed to save credentials file".

Definition campaigns_url : string :=
  "https://api.dev.resourcely.io/api/v1/infrastructure/campaigns".

(** The [else] branch of [ensure_ngrok_setup]: POST to provision. *)
Definition provision_tunnel (auth : string) : prog json :=
  post_response ← requests_post campaigns_url auth (JObj []);
  if negb ((status_code post_response =? 200) || (status_code post_response =? 201)) then
    Exit ("Failed to provision ngrok proxy: " +:+ text post_response)
  else
    new_data ← response_json post_response;
    tunnel ← py_get new_data "tunnel" JNull;
    if negb (py_truthy tunnel) then Exit "Ngrok proxy was not created successfully."
    else
      save_ngrok_credentials new_data;;
      py_get tunnel "endpoint_url" JNull;;
      py_get tunnel "seed" JNull;;
      py_get tunnel "auth_token" JNull;;
      Ret new_data.

Definition ensure_ngrok_setup (resourcely_api_token : string) : prog json :=
  let auth := resourcely_auth resourcely_api_token in
  (* Check if credentials already exist locally. *)
  local_creds ← load_ngrok_credentials;
  match local_creds with
  | Some creds => Ret creds
  | None =>
      (* Otherwise, try to GET the infrastructure information. *)
      got ← perform (HttpGet campaigns_url auth []);
      data ← match got with
             | Responded response =>
                 if status_code response =? 200 then Some <$> response_json response
                 else Ret None
             | RequestFailed _ => Ret None
             end;
      tunnel ← match data with
               | Some d => if py_truthy d then py_get d "tunnel" JNull else Ret JNull
               | None => Ret JNull
               end;
      match data with
      | Some d =>
          if py_truthy tunnel then
            save_ngrok_credentials d;;
            Ret d
          else provision_tunnel auth
      | None => provision_tunnel auth
      end
  end.


(** ** Vocabulary of the statements *)

(** Where a run of characters other than [c] must stop: at the end of the
    text or just before a [c]. *)
Definition stops_at (c : ascii) (rest : string) : Prop :=
  rest = "" \/ exists r, rest = String c r.

(** [url] reads [prefix owner / segment rest], where [owner] and
    [segment] are the two non-empty path components that follow the
    prefix: the language of the two patterns, [re.match] being anchored
    only on the left. *)
Definition repo_url_shape (prefix owner segment rest url : string) : Prop :=
  url = prefix +:+ owner +:+ "/" +:+ segment +:+ rest /\
  owner <> "" /\ str_avoids "/" owner = true /\
  segment <> "" /\ str_avoids "/" segment = true /\
  stops_at "/" rest.

Definition matches_ssh (url : string) : Prop :=
  exists owner segment rest, repo_url_shape "git@github.com:" owner segment rest url.

Definition matches_https (url : string) : Prop :=
  exists owner segment rest, repo_url_shape "https://github.com/" owner segment rest url.

(** An operator's answer the CIDR prompt cannot use: nothing, text that
    [int] refuses, or a number outside 1..3. *)
Definition bad_choice (int_of : string -> option Z) (choice : string) : Prop :=
  choice = "" \/ int_of choice = None \/
  exists n, int_of choice = Some n /\ (n < 1 \/ 3 < n).

(** ** Worlds to run against *)

(** The answer of a world in which nothing is reachable. *)
Definition default_answer {R} (c : call R) : R :=
  match c in call R return R with
  | GetCallerIdentity => BotoError "unreachable"
  | HeadBucket _ => BotoError "unreachable"
  | CreateBucket _ _ => BotoError "unreachable"
  | WaitBucketExists _ => BotoError "unreachable"
  | PutPublicAccessBlock _ _ => BotoError "unreachable"
  | GetBucketPolicy _ => BotoError "unreachable"
  | PutBucketPolicy _ _ => BotoError "unreachable"
  | ListOpenIDConnectProviders => BotoError "unreachable"
  | GetOpenIDConnectProvider _ => BotoError "unreachable"
  | CreateOpenIDConnectProvider _ _ _ => BotoError "unreachable"
  | GetRole _ => BotoError "unreachable"
  | CreateRole _ _ _ => BotoError "unreachable"
  | PutRolePolicy _ _ _ => BotoError "unreachable"
  | DescribeSecret _ => BotoError "unreachable"
  | PutSecretValue _ _ => BotoError "unreachable"
  | CreateSecret _ _ _ => BotoError "unreachable"
  | DescribeClusters _ => BotoError "unreachable"
  | CreateCluster _ => BotoError "unreachable"
  | ListServices _ => BotoError "unreachable"
  | RegisterTaskDefinition _ => BotoError "unreachable"
  | CreateService _ => BotoError "unreachable"
  | ListTasks _ _ => BotoError "unreachable"
  | DescribeTasks _ _ => BotoError "unreachable"
  | HttpGet _ _ _ => RequestFailed "ConnectionError"
  | HttpPost _ _ _ => RequestFailed "ConnectionError"
  | Sleep _ => tt
  | Time => 0
  | Input _ => ""
  | ReadCredFile => NoCredFile
  | WriteCredFile _ => false
  end.

(** An operator who types the same line at every prompt. *)
Definition operator (line : string) : handler unit :=
  λ R c w,
    match c in call R return R * unit with
    | Input _ => (line, w)
    | c => (default_answer c, w)
    end.

(** An AWS account in which every call of the ECS deployment succeeds;
    the state is the list of service ARNs of the cluster. *)
Definition ecs_account : handler (list string) :=
  λ R c w,
    match c in call R return R * list string with
    | GetCallerIdentity =>
        (AwsOk {| Account := "123456789012";
                  Arn := "arn:aws:iam::123456789012:user/operator" |}, w)
    | DescribeClusters _ => (AwsOk {| failures := []; clusters := ["ACTIVE"] |}, w)
    | ListServices _ => (AwsOk w, w)
    | DescribeSecret _ => (ClientError "ResourceNotFoundException", w)
    | CreateSecret name _ _ =>
        (AwsOk ("arn:aws:secretsmanager:us-west-2:123456789012:secret:" +:+ name), w)
    | GetRole role => (AwsOk ("arn:aws:iam::123456789012:role/" +:+ role), w)
    | PutRolePolicy _ _ _ => (AwsOk (), w)
    | RegisterTaskDefinition td =>
        (AwsOk ("arn:aws:ecs:us-west-2:123456789012:task-definition/" +:+ family td +:+ ":1"), w)
    | CreateService req =>
        (AwsOk (),
         ("arn:aws:ecs:us-west-2:123456789012:service/" +:+ cluster req +:+ "/"
          +:+ serviceName req) :: w)
    | c => (default_answer c, w)
    end.

Definition is_register_task_definition (e : event) : bool :=
  match e with
  | Ev c _ => match c with RegisterTaskDefinition _ => true | _ => false end
  end.

(** Some call of the trace registers a task definition. *)
Definition registers_task_definition (t : list event) : bool :=
  existsb is_register_task_definition t.

(** Running [f] after a run [e] of its first half. *)
Definition then_run {A B W} (h : handler W) (e : execution A W) (f : A -> prog B)
    : execution B W :=
  match result e with
  | Returned a =>
      let e' := run h (f a) (final e) in
      {| result := result e'; trace := trace e ++ trace e'; final := final e' |}
  | Exited m => {| result := Exited m; trace := trace e; final := final e |}
  | Raised x => {| result := Raised x; trace := trace e; final := final e |}
  | Unfinished => {| result := Unfinished; trace := trace e; final := final e |}
  end.

Definition existing_service_arn : string :=
  "arn:aws:ecs:us-west-2:123456789012:service/resourcely-campaigns/resourcely-campaigns-agent".

(** A different service, whose name merely begins like the agent's. *)
Definition lookalike_service_arn : string :=
  "arn:aws:ecs:us-west-2:123456789012:service/resourcely-campaigns/resourcely-campaigns-agent-canary".

Definition no_network : network_config := {| subnets := []; securityGroups := [] |}.

(** [r] is the details of a provider registered for the target URL. *)
Definition is_target_provider (r : aws_result (option string)) : Prop :=
  exists url, r = AwsOk url /\
    str_replace "https://" "" (from_option id "" url) = normalized_target_url.

Definition github_provider_arn : string :=
  "arn:aws:iam::123456789012:oidc-provider/token.actions.githubusercontent.com".

Definition other_provider_arn : string :=
  "arn:aws:iam::123456789012:oidc-provider/accounts.example.com".

(** An IAM in which somebody else creates the GitHub provider between
    our listing and our create call: the state counts the listings. *)
Definition racing_iam : handler nat :=
  λ R c w,
    match c in call R return R * nat with
    | ListOpenIDConnectProviders =>
        (AwsOk (match w with
                | O => [other_provider_arn]
                | S _ => [other_provider_arn; github_provider_arn]
                end), S w)
    | GetOpenIDConnectProvider arn =>
        (if String.eqb arn github_provider_arn
         then AwsOk (Some "token.actions.githubusercontent.com")
         else AwsOk (Some "accounts.example.com"), w)
    | CreateOpenIDConnectProvider _ _ _ => (ClientError "EntityAlreadyExists", w)
    | c => (default_answer c, w)
    end.

(** A statement of a bucket policy that is not ours: a dict whose [Sid]
    is not ["AllowLocalDockerAccess"]. *)
Definition other_statement (s : json) : Prop :=
  exists items, s = JObj items /\
    py_eq (from_option id JNull (dict_lookup "Sid" items)) (JStr "AllowLocalDockerAccess")
    = false.

Definition operator_identity : caller_identity :=
  {| Account := "123456789012"; Arn := "arn:aws:iam::123456789012:user/operator" |}.

(** An account whose bucket carries [policy]; writing is not possible. *)
Definition s3_with_policy (policy : json) : handler unit :=
  λ R c w,
    match c in call R return R * unit with
    | GetCallerIdentity => (AwsOk operator_identity, w)
    | GetBucketPolicy _ => (AwsOk policy, w)
    | c => (default_answer c, w)
    end.

(** The intended statement for the operator and bucket ["state"], as S3
    might hand it back: same content, keys in the opposite order. *)
Definition reordered_statement : json :=
  JObj [ ("Resource", JArr [JStr "arn:aws:s3:::state"; JStr "arn:aws:s3:::state/*"]);
         ("Action", JArr [JStr "s3:GetObject"; JStr "s3:PutObject"; JStr "s3:ListBucket"]);
         ("Principal", JObj [("AWS", JStr "arn:aws:iam::123456789012:user/operator")]);
         ("Effect", JStr "Allow");
         ("Sid", JStr "AllowLocalDockerAccess") ].

Definition foreign_statement : json :=
  JObj [ ("Sid", JStr "DenyInsecureTransport");
         ("Effect", JStr "Deny");
         ("Principal", JStr "*");
         ("Action", JStr "s3:*");
         ("Resource", JStr "arn:aws:s3:::state/*") ].

Definition reordered_policy : json :=
  JObj [ ("Statement", JArr [foreign_statement; reordered_statement]);
         ("Version", JStr "2012-10-17") ].

(** Every call a program can make, whatever it is answered, satisfies [P]. *)
Fixpoint calls_only {A} (P : forall R, call R -> bool) (p : prog A) : Prop :=
  match p with
  | Do c k => P _ c = true /\ forall r, calls_only P (k r)
  | _ => True
  end.

Definition is_http_get {R} (c : call R) : bool :=
  match c with HttpGet _ _ _ => true | _ => false end.

Definition is_sleep {R} (c : call R) : bool :=
  match c with Sleep _ => true | _ => false end.

Definition event_is (P : forall R, call R -> bool) (e : event) : bool :=
  match e with Ev c _ => P _ c end.

(** Number of [time.sleep] calls in a trace. *)
Definition sleeps (t : list event) : nat :=
  List.length (List.filter (event_is (@is_sleep)) t).

(** A job that leaves the [for job in jobs] loop running: a dict that is
    not the plan job, or is but has not completed. *)
Definition undecided_job (job : json) : Prop :=
  exists items, job = JObj items /\
    (py_eq (from_option id JNull (dict_lookup "name" items)) (JStr plan_job_name) = false \/
     py_eq (from_option id JNull (dict_lookup "status" items)) (JStr "completed") = false).

(** A job other than the plan job. *)
Definition other_job (job : json) : Prop :=
  exists items, job = JObj items /\
    py_eq (from_option id JNull (dict_lookup "name" items)) (JStr plan_job_name) = false.

(** The plan job, completed, with a conclusion that is not success. *)
Definition failed_plan_job (job : json) (conclusion : json) : Prop :=
  exists items, job = JObj items /\
    py_eq (from_option id JNull (dict_lookup "name" items)) (JStr plan_job_name) = true /\
    py_eq (from_option id JNull (dict_lookup "status" items)) (JStr "completed") = true /\
    from_option id JNull (dict_lookup "conclusion" items) = conclusion /\
    py_eq conclusion (JStr "success") = false.

(** A local host with a clock that [time.sleep] advances, and a remote
    HTTP side that answers the requests, in order, from a script. *)
Record poll_world := {
  script : list http_result;
  clock : Z }.

Definition poll_sim : handler poll_world :=
  λ R c w,
    match c in call R return R * poll_world with
    | HttpGet _ _ _ | HttpPost _ _ _ =>
        match script w with
        | r :: rest => (r, {| script := rest; clock := clock w |})
        | [] => (RequestFailed "ConnectionError", w)
        end
    | Sleep seconds => ((), {| script := script w; clock := clock w + seconds |})
    | Time => (clock w, w)
    | WriteCredFile _ => (true, w)
    | c => (default_answer c, w)
    end.

Definition ok_response (body : json) : http_result :=
  Responded {| status_code := 200; json_body := Some body; text := "" |}.

Definition error_response (status : Z) : http_result :=
  Responded {| status_code := status; json_body := Some (JObj []); text := "error" |}.

(** ** Vocabulary for the schedule of the pollers *)

(** Number of GET requests in a trace. *)
Definition http_gets (t : list event) : nat :=
  List.length (List.filter (event_is (@is_http_get)) t).

Definition no_call {R} (c : call R) : bool := false.

(** A program that asks the world nothing. *)
Definition pure {A} (p : prog A) : Prop := calls_only (@no_call) p.

(** The evaluation answers [false] [k] times, each followed by the
    poller's sleep, then [true]. *)
Fixpoint succeeds_after {W} (h : handler W) (evaluate : prog bool) (interval : Z)
    (k : nat) (w : W) : Prop :=
  let ev := run h evaluate w in
  match k with
  | O => result ev = Returned true
  | S k' =>
      result ev = Returned false /\
      succeeds_after h evaluate interval k' (h _ (Sleep interval) (final ev)).2
  end.

(** A remote side that gives the same answer to every HTTP request. *)
Definition always_answers (r : http_result) : handler unit :=
  λ R c w,
    match c in call R return R * unit with
    | HttpGet _ _ _ | HttpPost _ _ _ => (r, w)
    | c => (default_answer c, w)
    end.

(** ** Vocabulary for [poll_diagnostics] *)

Definition is_dict (j : json) : Prop := exists items, j = JObj items.

(** The check reports [DIAGNOSTIC_STATUS_SUCCESS]. *)
Definition check_succeeded (check : json) : bool :=
  match check with
  | JObj items => py_eq (from_option id JNull (dict_lookup "status" items)) status_success
  | _ => false
  end.

(** The diagnostic comes from GitLab or GitHub and every check it lists
    has succeeded. *)
Definition vcs_diagnostic_ok (diagnostic : json) : bool :=
  match diagnostic with
  | JObj items =>
      let source := from_option id (JStr "") (dict_lookup "source" items) in
      (py_eq source (JStr "DIAGNOSTIC_SOURCE_GITLAB") ||
       py_eq source (JStr "DIAGNOSTIC_SOURCE_GITHUB")) &&
      match from_option id (JArr []) (dict_lookup "checks" items) with
      | JArr checks => forallb check_succeeded checks
      | _ => false
      end
  | _ => false
  end.

(** A diagnostic as the API documents it: a dict whose checks, if any,
    are a list of dicts. *)
Definition diagnostic_shape (diagnostic : json) : Prop :=
  exists items checks,
    diagnostic = JObj items /\
    from_option id (JArr []) (dict_lookup "checks" items) = JArr checks /\
    Forall is_dict checks.

Definition diagnostics_url : string := "https://api.dev.resourcely.io/api/v1/diagnostics".

Definition diagnostics_timeout_message : string :=
  "Timeout: GitHub diagnostics did not reach success status after maximum attempts.".

Definition github_ok_body : json :=
  JObj [("diagnostics", JArr [
     JObj [("source", JStr "DIAGNOSTIC_SOURCE_AWS");
           ("checks", JArr [JObj [("status", JStr "DIAGNOSTIC_STATUS_FAILURE")]])];
     JObj [("source", JStr "DIAGNOSTIC_SOURCE_GITHUB");
           ("checks", JArr [JObj [("type", JStr "DIAGNOSTIC_TYPE_APP_INSTALLED");
                                  ("status", JStr "DIAGNOSTIC_STATUS_SUCCESS")]])] ])].

Definition github_pending_body : json :=
  JObj [("diagnostics", JArr [
     JObj [("source", JStr "DIAGNOSTIC_SOURCE_GITHUB");
           ("checks", JArr [JObj [("status", JStr "DIAGNOSTIC_STATUS_PENDING")]])] ])].

(** A GitHub diagnostic that lists no check at all. *)
Definition github_no_checks_body : json :=
  JObj [("diagnostics", JArr [JObj [("source", JStr "DIAGNOSTIC_SOURCE_GITHUB")]])].

(** ** More of the script: GitHub and Resourcely checks *)

(** [try: body  except Exception as e: print(msg, e); sys.exit(1)]: an
    exception raised anywhere in [body] becomes the exit; [sys.exit]
    itself raises [SystemExit], which [except Exception] lets through. *)
Fixpoint except_exception {A} (msg : string) (body : prog A) : prog A :=
  match body with
  | Ret a => Ret a
  | Exit m => Exit m
  | Raise e => Exit (msg +:+ " " +:+ e)
  | OutOfFuel => OutOfFuel
  | Do c k => Do c (λ r, except_exception msg (k r))
  end.

(** ["text" in v]: an element of a list, a key of a dict, a substring of
    a string; [TypeError] on anything else. *)
Definition py_str_in (needle : string) (v : json) : prog bool :=
  match v with
  | JArr l => Ret (existsb (λ x, py_eq (JStr needle) x) l)
  | JObj items => Ret (bool_decide (is_Some (dict_lookup needle items)))
  | JStr s => Ret (str_contains needle s)
  | _ => Raise "TypeError"
  end.

Definition check_push_permission (owner repo token : string) : prog unit :=
  let api_url := "https://api.github.com/repos/" +:+ owner +:+ "/" +:+ repo in
  response ← requests_get api_url ("token " +:+ token) [];
  if negb (status_code response =? 200) then
    Exit "Error accessing repository info. Check if your token is valid and has the required permissions."
  else
    data ← response_json response;
    permissions ← py_get data "permissions" (JObj []);
    push ← py_get permissions "push" (JBool false);
    if negb (py_truthy push) then
      Exit "You do NOT have push permission to this repository. Please update your permissions and try again."
    else Ret ().

Definition current_user_url : string := "https://api.dev.resourcely.io/api/v1/users/current-user".

Definition verify_resourcely_api_admin_token (token : string) : prog unit :=
  except_exception "Error validating RESOURCELY_API_TOKEN with API:"
    (response ← requests_get current_user_url (resourcely_auth token) [];
     if negb (status_code response =? 200) then
       Exit ("RESOURCELY_API_TOKEN validation failed: received status code "
             +:+ pretty (status_code response))
     else
       user_data ← response_json response;
       roles ← py_get user_data "roles" (JArr []);
       is_admin ← py_str_in "admin" roles;
       if negb is_admin then
         Exit "RESOURCELY_API_TOKEN validation failed: admin role not present in the user data."
       else Ret ()).

Definition manage_tokens_url : string := "https://api.dev.resourcely.io/api/v1/manage/tokens".

Definition ci_token_payload : json :=
  JObj [("roles", JArr [JNum 1]); ("timeToLiveSeconds", JNum 31104000)].

Definition fetch_ci_token (original_token : string) : prog json :=
  except_exception "Exception while fetching CI token:"
    (response ← requests_post manage_tokens_url (resourcely_auth original_token)
                  ci_token_payload;
     if negb ((status_code response =? 200) || (status_code response =? 201)) then
       Exit ("Failed to fetch CI token (status code " +:+ pretty (status_code response)
             +:+ "): " +:+ text response)
     else
       data ← response_json response;
       access_token ← py_get data "access_token" JNull;
       if negb (py_truthy access_token) then Exit "CI token not found in response."
       else Ret access_token).

(** [len(v)] for a truthy [v]. *)
Definition py_sized (v : json) : bool :=
  match v with
  | JStr _ | JArr _ | JObj _ => true
  | _ => false
  end.

(** The [for server in git_servers] loop of
    [check_change_management_setup]: [true] is its [break]. *)
Fixpoint scan_git_servers (git_servers : list json) : prog bool :=
  match git_servers with
  | [] => Ret false
  | server :: rest =>
      repo_glob_patterns ← py_get server "repo_glob_patterns" (JArr []);
      if py_truthy repo_glob_patterns then
        if py_sized repo_glob_patterns then Ret true else Raise "TypeError"
      else scan_git_servers rest
  end.

Definition git_servers_url : string := "https://api.dev.resourcely.io/api/v1/settings/git-servers".

Definition check_change_management_setup (resourcely_api_token : string) : prog unit :=
  got ← perform (HttpGet git_servers_url (resourcely_auth resourcely_api_token) []);
  match got with
  | RequestFailed e => Exit ("Error calling change management API: " +:+ e)
  | Responded response =>
      if negb (status_code response =? 200) then
        Exit ("Failed to retrieve git servers. Status code: "
              +:+ pretty (status_code response))
      else
        data ← response_json response;
        git_servers ← py_get data "git_servers" (JArr []);
        git_servers ← py_iter git_servers;
        configured ← scan_git_servers git_servers;
        if configured : bool then Ret ()
        else Exit "Change management is not configured correctly."
  end.

Definition terraform_config_url : string := "https://api.dev.resourcely.io/api/v1/terraform/config".

Definition get_tf_config_path (repository resourcely_api_token : string) : prog json :=
  let repo_url := "https://github.com/" +:+ repository in
  except_exception "Exception while retrieving Terraform config:"
    (response ← requests_get terraform_config_url (resourcely_auth resourcely_api_token)
                  [("repo_url", repo_url)];
     if negb (status_code response =? 200) then
       Exit ("Failed to retrieve Terraform config (status code "
             +:+ pretty (status_code response) +:+ "): " +:+ text response)
     else
       data ← response_json response;
       terraform_configs ← py_get data "terraform_configs" (JArr []);
       if negb (py_truthy terraform_configs) then
         Exit "No terraform configurations found for the repository."
       else
         first ← py_first terraform_configs;
         tf_config ← py_get first "terraform_config" (JObj []);
         tf_path ← py_get tf_config "path" JNull;
         if negb (py_truthy tf_path) then Exit "Terraform config does not contain a 'path'."
         else Ret tf_path).

Definition evaluations_url : string := "https://api.dev.resourcely.io/campaigns-api/v1/evaluations".

Definition trigger_evaluation_scan (repository : string) (tf_config_root_path : json)
    (resourcely_api_token : string) : prog json :=
  let repo_url := "https://github.com/" +:+ repository in
  let payload := JObj [("repo_url", JStr repo_url);
                       ("tf_config_root_path", tf_config_root_path)] in
  except_exception "Exception while triggering evaluation scan:"
    (response ← requests_post evaluations_url (resourcely_auth resourcely_api_token) payload;
     if negb ((status_code response =? 200) || (status_code response =? 201)) then
       Exit ("Failed to trigger evaluation scan (status code "
             +:+ pretty (status_code response) +:+ "): " +:+ text response)
     else
       data ← response_json response;
       status ← py_get data "status" JNull;
       if negb (py_eq status (JStr "ASYNC_JOB_QUEUED")) then
         Exit ("Unexpected scan status. Expected 'ASYNC_JOB_QUEUED' but got: "
               +:+ py_show status)
       else Ret data).

(** ** More of the script: the OIDC role *)

Definition oidc_role_name : string := "ResourcelyGithubActionsOIDC".

Definition oidc_trust_policy (provider_arn repository : string) : json :=
  JObj [ ("Version", JStr "2012-10-17");
         ("Statement", JArr [
            JObj [ ("Effect", JStr "Allow");
                   ("Principal", JObj [("Federated", JStr provider_arn)]);
                   ("Action", JStr "sts:AssumeRoleWithWebIdentity");
                   ("Condition", JObj [
                      ("StringLike", JObj [
                         ("token.actions.githubusercontent.com:sub",
                          JArr [JStr ("repo:" +:+ repository +:+ ":*")]);
                         ("token.actions.githubusercontent.com:aud",
                          JStr "sts.amazonaws.com") ]) ]) ] ]) ].

(** The [for _ in range(10)] loop that waits for the new role, with its
    [else] clause; a [ClientError] other than [NoSuchEntity] reaches the
    [except ClientError] around the creation. *)
Fixpoint await_role (role_name : string) (attempts : nat) : prog unit :=
  match attempts with
  | O => Exit ("Timeout waiting for IAM role '" +:+ role_name +:+ "' to become available.")
  | S attempts' =>
      got ← perform (GetRole role_name);
      match got with
      | AwsOk _ => Ret ()
      | ClientError code =>
          if String.eqb code "NoSuchEntity" then
            perform (Sleep 3);;
            await_role role_name attempts'
          else Exit ("Failed to create IAM role: " +:+ code)
      | BotoError e => Raise e
      end
  end.

Definition create_oidc_role (provider_arn repository : string) : prog string :=
  let role_name := oidc_role_name in
  (* Check if the role already exists *)
  got ← perform (GetRole role_name);
  (match got with
   | AwsOk _ => Ret ()
   | ClientError code =>
       if String.eqb code "NoSuchEntity" then
         (* Role does not exist; create it *)
         created ← perform (CreateRole role_name (oidc_trust_policy provider_arn repository)
                              "Role for GitHub Actions OIDC");
         match created with
         | AwsOk _ => await_role role_name 10
         | ClientError code => Exit ("Failed to create IAM role: " +:+ code)
         | BotoError e => Raise e
         end
       else Raise ("ClientError: " +:+ code)
   | BotoError e => Raise e
   end);;
  Ret role_name.

Definition push_allowed_body : json :=
  JObj [("full_name", JStr "owner/repo");
        ("permissions", JObj [("admin", JBool false); ("push", JBool true);
                              ("pull", JBool true)])].

Definition admin_user_body : json :=
  JObj [("email", JStr "operator@example.com"); ("roles", JArr [JStr "member"; JStr "admin"])].

Definition ci_token_body : json :=
  JObj [("access_token", JStr "ci-token"); ("token_type", JStr "Bearer")].

Definition git_servers_body : json :=
  JObj [("git_servers", JArr [
     JObj [("name", JStr "gitlab"); ("repo_glob_patterns", JArr [])];
     JObj [("name", JStr "github"); ("repo_glob_patterns", JArr [JStr "owner/*"])] ])].

Definition terraform_config_body : json :=
  JObj [("terraform_configs", JArr [
     JObj [("terraform_config", JObj [("path", JStr "environments/dev")])];
     JObj [("terraform_config", JObj [("path", JStr "environments/prod")])] ])].

Definition scan_queued_body : json :=
  JObj [("id", JStr "job-1"); ("status", JStr "ASYNC_JOB_QUEUED")].

(** Lines 2024-2025 of [main]: look the configuration path up, then
    trigger the scan on it. *)
Definition locate_and_scan (repository resourcely_api_token : string) : prog json :=
  tf_config_path ← get_tf_config_path repository resourcely_api_token;
  trigger_evaluation_scan repository tf_config_path resourcely_api_token.

(** ** Vocabulary for the IAM and ECS helpers *)

Definition is_get_role {R} (c : call R) : bool :=
  match c with GetRole _ => true | _ => false end.

(** Number of [get_role] calls in a trace. *)
Definition get_role_calls (t : list event) : nat :=
  List.length (List.filter (event_is (@is_get_role)) t).

(** Every sleep of the trace lasts [seconds]. *)
Definition sleeps_last (seconds : Z) (t : list event) : Prop :=
  Forall (λ ev, forall s u, ev = Ev (Sleep s) u -> s = seconds) t.

(** An IAM in which a created role never becomes visible. *)
Definition invisible_roles : handler unit :=
  λ R c w,
    match c in call R return R * unit with
    | GetRole _ => (ClientError "NoSuchEntity", w)
    | CreateRole role _ _ => (AwsOk ("arn:aws:iam::123456789012:role/" +:+ role), w)
    | Sleep _ => ((), w)
    | c => (default_answer c, w)
    end.

(** The description shows the cluster, active and without failures. *)
Definition cluster_active (d : clusters_description) : Prop :=
  failures d = [] /\ exists rest, clusters d = "ACTIVE" :: rest.

Definition secret_description : string := "Consolidated secrets for campaigns agent".

(** A Secrets Manager that knows the secret when it is described but
    has lost it by the time its value is put. *)
Definition vanishing_secret : handler unit :=
  λ R c w,
    match c in call R return R * unit with
    | DescribeSecret name => (AwsOk ("arn:aws:secretsmanager:::secret:" +:+ name), w)
    | PutSecretValue _ _ => (ClientError "ResourceNotFoundException", w)
    | CreateSecret name _ _ => (AwsOk ("arn:aws:secretsmanager:::secret:" +:+ name +:+ "-new"), w)
    | c => (default_answer c, w)
    end.

(** ** Vocabulary for the S3 functions *)

(** The name [create_s3_bucket] derives for an account and a region. *)
Definition state_bucket_name (base_bucket_name account_id region : string) : string :=
  base_bucket_name +:+ "-" +:+ account_id +:+ "-" +:+ region.

(** An S3 in which the bucket is there but may not be looked at. *)
Definition forbidden_bucket : handler unit :=
  λ R c w,
    match c in call R return R * unit with
    | GetCallerIdentity => (AwsOk operator_identity, w)
    | HeadBucket _ => (ClientError "403", w)
    | c => (default_answer c, w)
    end.

(** The policy document that [apply_bucket_policy] starts from when the
    bucket has none. *)
Definition fresh_policy (statement : json) : json :=
  JObj [("Version", JStr "2012-10-17"); ("Statement", JArr [statement])].

(** The five keys of the intended statement. *)
Definition intended_keys : list string :=
  ["Sid"; "Effect"; "Principal"; "Action"; "Resource"].

(** Our statement as somebody edited it by hand: another principal, and
    a condition that the script knows nothing about. *)
Definition edited_statement : json :=
  JObj [ ("Sid", JStr "AllowLocalDockerAccess");
         ("Effect", JStr "Allow");
         ("Principal", JObj [("AWS", JStr "arn:aws:iam::123456789012:user/somebody")]);
         ("Action", JArr [JStr "s3:GetObject"]);
         ("Resource", JArr [JStr "arn:aws:s3:::state"]);
         ("Condition", JObj [("Bool", JObj [("aws:SecureTransport", JStr "true")])]) ].

Definition edited_policy : json :=
  JObj [ ("Version", JStr "2012-10-17");
         ("Statement", JArr [foreign_statement; edited_statement]) ].

(** An S3 that keeps the policy of one bucket: the state is the policy,
    [None] when there is none. *)
Definition s3_policy_store : handler (option json) :=
  λ R c w,
    match c in call R return R * option json with
    | GetCallerIdentity => (AwsOk operator_identity, w)
    | GetBucketPolicy _ =>
        (match w with
         | Some policy => AwsOk policy
         | None => ClientError "NoSuchBucketPolicy"
         end, w)
    | PutBucketPolicy _ policy => (AwsOk (), Some policy)
    | c => (default_answer c, w)
    end.

Definition is_get_provider {R} (c : call R) : bool :=
  match c with GetOpenIDConnectProvider _ => true | _ => false end.

(** An IAM that already has the GitHub provider, registered with the
    scheme in front of its URL. *)
Definition iam_with_provider : handler unit :=
  λ R c w,
    match c in call R return R * unit with
    | ListOpenIDConnectProviders => (AwsOk [other_provider_arn; github_provider_arn], w)
    | GetOpenIDConnectProvider arn =>
        (if String.eqb arn github_provider_arn
         then AwsOk (Some "https://token.actions.githubusercontent.com")
         else AwsOk (Some "accounts.example.com"), w)
    | c => (default_answer c, w)
    end.

(** ** Vocabulary for the ECS wait and the tunnel credentials *)

(** The task reports [lastStatus] RUNNING. *)
Definition task_running (task : json) : bool :=
  match task with
  | JObj items => py_eq (from_option id JNull (dict_lookup "lastStatus" items)) (JStr "RUNNING")
  | _ => false
  end.

Definition ecs_timeout_message : string :=
  "Timeout waiting for ECS service tasks to reach RUNNING state.".

(** An ECS whose one task is STOPPED when first described and RUNNING
    afterwards; the state counts the descriptions.  The clock stands
    still. *)
Definition restarting_task : handler nat :=
  λ R c w,
    match c in call R return R * nat with
    | ListTasks _ _ => (AwsOk ["arn:aws:ecs:us-west-2:123456789012:task/1"], w)
    | DescribeTasks _ _ =>
        (AwsOk [JObj [("lastStatus",
                       JStr (match w with O => "STOPPED" | S _ => "RUNNING" end))]], S w)
    | c => (default_answer c, w)
    end.

(** Credentials that [load_ngrok_credentials] accepts: a dict whose
    [tunnel] is a dict with a truthy [seed] and a truthy [auth_token]. *)
Definition credentials_complete (data : json) : Prop :=
  exists items tunnel,
    data = JObj items /\
    dict_lookup "tunnel" items = Some (JObj tunnel) /\
    py_truthy (from_option id JNull (dict_lookup "seed" tunnel)) = true /\
    py_truthy (from_option id JNull (dict_lookup "auth_token" tunnel)) = true.

Definition complete_credentials : json :=
  JObj [("tunnel", JObj [("endpoint_url", JStr "https://example.ngrok.app");
                         ("seed", JStr "seed-1"); ("auth_token", JStr "auth-1")])].

(** A tunnel that is provisioned but comes without its seed. *)
Definition seedless_credentials : json :=
  JObj [("tunnel", JObj [("endpoint_url", JStr "https://example.ngrok.app");
                         ("auth_token", JStr "auth-1")])].

(** A host with a credential file (the state) and a Resourcely API that
    answers every request with [answer]. *)
Definition host_with_file (answer : http_result) : handler cred_file :=
  λ R c w,
    match c in call R return R * cred_file with
    | ReadCredFile => (w, w)
    | WriteCredFile data => (true, CredFile data)
    | HttpGet _ _ _ | HttpPost _ _ _ => (answer, w)
    | c => (default_answer c, w)
    end.

(** The answer to a POST that has created what was asked for. *)
Definition created_response (body : json) : http_result :=
  Responded {| status_code := 201; json_body := Some body; text := "" |}.

(** ** Vocabulary for the other two diagnostics pollers *)

Definition yaml_config_url : string :=
  "https://api.dev.resourcely.io/api/v1/diagnostics/yaml-config".

Definition yaml_timeout_message : string :=
  "Timeout: YAML configuration diagnostics did not become valid after maximum attempts.".

Definition agent_failed_message (response : http_response) : string :=
  "Failed to retrieve diagnostics (status code " +:+ pretty (status_code response)
  +:+ "): " +:+ text response.

(** A server in trouble: every GET is answered, and never with 200. *)
Definition never_ok {W} (h : handler W) : Prop :=
  forall url auth params w,
    exists response,
      (h _ (HttpGet url auth params) w).1 = Responded response /\
      status_code response <> 200.

(** The checks a diagnostic lists. *)
Definition checks_of (diagnostic : json) : list json :=
  match diagnostic with
  | JObj items =>
      match from_option id (JArr []) (dict_lookup "checks" items) with
      | JArr checks => checks
      | _ => []
      end
  | _ => []
  end.

(** The check is of type [k] and reports [DIAGNOSTIC_STATUS_SUCCESS]. *)
Definition reports_success (k : string) (check : json) : bool :=
  match check with
  | JObj items =>
      py_eq (from_option id JNull (dict_lookup "type" items)) (JStr k) &&
      py_eq (from_option id JNull (dict_lookup "status" items)) status_success
  | _ => false
  end.

(** A check the agent poller can read: a dict whose type, if any, is not
    a list or a dict. *)
Definition agent_check_shape (check : json) : Prop :=
  exists items,
    check = JObj items /\
    match from_option id JNull (dict_lookup "type" items) with
    | JArr _ | JObj _ => False
    | _ => True
    end.

Definition agent_diagnostic_shape (diagnostic : json) : Prop :=
  exists items checks,
    diagnostic = JObj items /\
    from_option id (JArr []) (dict_lookup "checks" items) = JArr checks /\
    Forall agent_check_shape checks.

(** The status recorded for [k] is a success. *)
Definition recorded_success (k : string) (check_statuses : list (string * json)) : bool :=
  py_eq (from_option id JNull (dict_lookup k check_statuses)) status_success.

Definition agent_partial_body : json :=
  JObj [("diagnostics", JArr [
     JObj [("source", JStr "DIAGNOSTIC_SOURCE_AGENT");
           ("checks", JArr [
              JObj [("type", JStr "DIAGNOSTIC_TYPE_CAMPAIGNS_AGENT_REGISTERED");
                    ("status", JStr "DIAGNOSTIC_STATUS_SUCCESS")];
              JObj [("type", JStr "DIAGNOSTIC_TYPE_CAMPAIGNS_AGENT_REACHABLE");
                    ("status", JStr "DIAGNOSTIC_STATUS_SUCCESS")];
              JObj [("type", JStr "DIAGNOSTIC_TYPE_CAMPAIGNS_AGENT_REGISTERED");
                    ("status", JStr "DIAGNOSTIC_STATUS_FAILURE")]])];
     JObj [("checks", JArr [
              JObj [("type", JStr "DIAGNOSTIC_TYPE_CAMPAIGNS_AGENT_EVALUATIONS");
                    ("status", JStr "DIAGNOSTIC_STATUS_FAILURE")];
              JObj [("type", JStr "DIAGNOSTIC_TYPE_CAMPAIGNS_AGENT_EVALUATIONS");
                    ("status", JStr "DIAGNOSTIC_STATUS_SUCCESS")]])]])].
(* ===================================================================== *)
(** * Part II. Properties                                                 *)
(* ===================================================================== *)

(** ** Strings *)

Lemma ascii_eqb_true (a b : ascii) : Ascii.eqb a b = true <-> a = b.
Proof. apply Ascii.eqb_eq. Qed.

Lemma starts_with_app (p t : string) : starts_with p (p +:+ t) = true.
Proof.
  induction p as [|c p IH]; simpl; [done|].
  by rewrite Ascii.eqb_refl.
Qed.

Lemma starts_with_spec (p s : string) :
  starts_with p s = true <-> exists t, s = p +:+ t.
Proof.
  split.
  - revert s. induction p as [|c p IH]; intros s H; simpl in *.
    + by exists s.
    + destruct s as [|b s]; [done|].
      destruct (Ascii.eqb c b) eqn:E; [|done].
      apply Ascii.eqb_eq in E as ->.
      destruct (IH _ H) as [t ->]. by exists t.
  - intros [t ->]. apply starts_with_app.
Qed.

Lemma str_app_assoc (a b c : string) : (a +:+ b) +:+ c = a +:+ (b +:+ c).
Proof. induction a as [|x a IH]; simpl; [done|]. by rewrite IH. Qed.

Lemma str_app_nil_r (a : string) : a +:+ "" = a.
Proof. induction a as [|x a IH]; simpl; [done|]. by rewrite IH. Qed.

Lemma str_length_app (a b : string) :
  String.length (a +:+ b) = (String.length a + String.length b)%nat.
Proof. induction a as [|x a IH]; simpl; [done|]. by rewrite IH. Qed.

(** [needle in hay] is containment as a substring. *)
Lemma str_contains_spec (needle hay : string) :
  str_contains needle hay = true <-> exists a b, hay = a +:+ needle +:+ b.
Proof.
  split.
  - induction hay as [|c hay IH]; simpl; intros H.
    + rewrite orb_false_r in H. apply starts_with_spec in H as [t Ht].
      by exists "", t.
    + apply orb_true_iff in H as [H|H].
      * apply starts_with_spec in H as [t Ht]. by exists "", t.
      * destruct (IH H) as (a & b & ->). by exists (String c a), b.
  - intros (a & b & ->). induction a as [|c a IH].
    + change ("" +:+ needle +:+ b) with (needle +:+ b).
      pose proof (starts_with_app needle b) as H.
      destruct (needle +:+ b); simpl; by rewrite H.
    + simpl. rewrite IH. by rewrite orb_true_r.
Qed.

Lemma str_drop_app (p t : string) : str_drop (String.length p) (p +:+ t) = t.
Proof. induction p as [|c p IH]; simpl; done. Qed.

Lemma str_take_app (a b : string) :
  str_take (String.length (a +:+ b) - String.length b) (a +:+ b) = a.
Proof.
  rewrite str_length_app.
  replace (String.length a + String.length b - String.length b)%nat
    with (String.length a) by lia.
  induction a as [|c a IH]; simpl.
  - by destruct b.
  - by rewrite IH.
Qed.

Lemma str_avoids_app (c : ascii) (a b : string) :
  str_avoids c (a +:+ b) = str_avoids c a && str_avoids c b.
Proof.
  induction a as [|x a IH]; simpl; [done|].
  rewrite IH. by rewrite andb_assoc.
Qed.

Lemma plus_not_stops {A} (c : ascii) (rest : string) (k : string -> option A) :
  stops_at c rest -> plus_not c rest k = None.
Proof.
  intros [->|[r ->]]; simpl; [done|].
  by rewrite Ascii.eqb_refl.
Qed.

(** Greedy [[^c]+] takes the whole run when what follows accepts that. *)
Lemma plus_not_max {A} (c : ascii) (a rest : string) (k : string -> option A) (r : A) :
  a <> "" -> str_avoids c a = true -> stops_at c rest ->
  k rest = Some r ->
  plus_not c (a +:+ rest) k = Some r.
Proof.
  intros Hne Hav Hstop Hk.
  induction a as [|x a IH]; [done|].
  simpl in *. apply andb_true_iff in Hav as [Hx Ha].
  apply negb_true_iff in Hx. rewrite Hx.
  destruct a as [|y a].
  - simpl. rewrite (plus_not_stops c rest k Hstop). done.
  - rewrite IH; done.
Qed.

(** Whatever [[^c]+] accepts begins with a non-empty run free of [c]. *)
Lemma plus_not_inv {A} (c : ascii) (s : string) (k : string -> option A) (r : A) :
  plus_not c s k = Some r ->
  exists a rest, s = a +:+ rest /\ a <> "" /\ str_avoids c a = true /\ k rest = Some r.
Proof.
  revert r. induction s as [|x s IH]; intros r H; simpl in H; [done|].
  destruct (Ascii.eqb x c) eqn:Hx; [done|].
  destruct (plus_not c s k) as [r'|] eqn:Hp.
  - injection H as ->.
    destruct (IH _ eq_refl) as (a & rest & -> & Hne & Hav & Hk).
    exists (String x a), rest. simpl. rewrite Hx. simpl. done.
  - exists (String x ""), s. simpl. rewrite Hx. done.
Qed.

(** Every text splits into its longest [c]-free prefix and the rest. *)
Lemma longest_run (c : ascii) (s : string) :
  exists a rest, s = a +:+ rest /\ str_avoids c a = true /\ stops_at c rest.
Proof.
  induction s as [|x s (a & rest & -> & Hav & Hstop)].
  - exists "", "". split_and!; [done..|by left].
  - destruct (Ascii.eqb x c) eqn:Hx.
    + apply Ascii.eqb_eq in Hx as ->.
      exists "", (String c (a +:+ rest)). split_and!; [done..|]. right. by eexists.
    + exists (String x a), rest. simpl. rewrite Hx. done.
Qed.

(** ** The URL patterns *)

(** Both patterns are one shape behind a literal prefix. *)
Definition repo_pattern (prefix : string) : regex :=
  Seq (Lit prefix)
  (Seq (Group "owner" (PlusNot "/"))
  (Seq (Lit "/")
  (Seq (Group "repo" (PlusNot "/"))
       (Opt (Group "3" (Lit ".git")))))).

Lemma ssh_pattern_shape : ssh_pattern = repo_pattern "git@github.com:".
Proof. reflexivity. Qed.

Lemma https_pattern_shape : https_pattern = repo_pattern "https://github.com/".
Proof. reflexivity. Qed.

Lemma stops_at_no_dot_git (rest : string) :
  stops_at "/" rest -> starts_with ".git" rest = false.
Proof. by intros [->|[r ->]]. Qed.

(** On a URL of the shape, the matcher captures exactly the two
    components. *)
Lemma repo_pattern_match (prefix owner segment rest url : string) :
  repo_url_shape prefix owner segment rest url ->
  re_match (repo_pattern prefix) url = Some [("repo", segment); ("owner", owner)].
Proof.
  intros (-> & Ho & Hoa & Hs & Hsa & Hrest).
  unfold re_match, repo_pattern. cbn [re_run].
  rewrite starts_with_app, str_drop_app.
  eapply plus_not_max; [done|done|right; by eexists|].
  rewrite str_take_app.
  rewrite (starts_with_app "/"), (str_drop_app "/").
  eapply plus_not_max; [done..|].
  rewrite (stops_at_no_dot_git _ Hrest).
  by rewrite str_take_app.
Qed.

(** Whatever the matcher accepts has the shape. *)
Lemma repo_pattern_inv (prefix url : string) (m : captures) :
  re_match (repo_pattern prefix) url = Some m ->
  exists owner segment rest, repo_url_shape prefix owner segment rest url.
Proof.
  unfold re_match, repo_pattern. cbn [re_run].
  destruct (starts_with prefix url) eqn:Hp; [|done].
  apply starts_with_spec in Hp as [t ->]. rewrite str_drop_app.
  intros H. apply plus_not_inv in H as (owner & r1 & -> & Ho & Hoa & H).
  destruct (starts_with "/" r1) eqn:Hslash; [|done].
  apply starts_with_spec in Hslash as [t2 ->].
  rewrite (str_drop_app "/") in H.
  apply plus_not_inv in H as (a2 & r2 & -> & Ha2 & Ha2a & _).
  destruct (longest_run "/" r2) as (a3 & rest & -> & Ha3 & Hrest).
  exists owner, (a2 +:+ a3), rest. split_and!; try done.
  - simpl. by rewrite !str_app_assoc.
  - by destruct a2.
  - by rewrite str_avoids_app, Ha2a, Ha3.
Qed.

(** ** [str.replace] removes every occurrence *)

Lemma replace_from_skip (old new p s : string) :
  replace_from old new (String.length p) (p +:+ s) = replace_from old new O s.
Proof. induction p as [|c p IH]; simpl; [by destruct s|done]. Qed.

Lemma str_replace_at_match (old new t : string) :
  old <> "" -> str_replace old new (old +:+ t) = new +:+ str_replace old new t.
Proof.
  intros Hne. unfold str_replace. destruct old as [|c old]; [done|].
  simpl String.append. cbn [replace_from].
  pose proof (starts_with_app (String c old) t) as H. simpl String.append in H.
  rewrite H. simpl String.length. simpl Nat.pred.
  by rewrite replace_from_skip.
Qed.

Lemma str_replace_no_match (old new : string) (c : ascii) (s : string) :
  starts_with old (String c s) = false ->
  str_replace old new (String c s) = String c (str_replace old new s).
Proof. intros H. unfold str_replace. cbn [replace_from]. by rewrite H. Qed.

Lemma str_contains_cons (needle : string) (c : ascii) (s : string) :
  str_contains needle (String c s) = false ->
  starts_with needle (String c s) = false /\ str_contains needle s = false.
Proof. simpl. intros H. by apply orb_false_iff in H. Qed.

(** An occurrence of [".git"] cannot begin inside a piece that has none
    and run over into a following [".git"]: the dot occurs only at its
    head. *)
Lemma dot_git_no_straddle (c : ascii) (p t : string) :
  starts_with ".git" (String c p) = false ->
  starts_with ".git" (String c p +:+ ".git" +:+ t) = false.
Proof.
  cbn [starts_with String.append]. destruct (Ascii.eqb "." c); [|done].
  destruct p as [|c1 p]; cbn [starts_with String.append]; [done|].
  destruct (Ascii.eqb "g" c1); [|done].
  destruct p as [|c2 p]; cbn [starts_with String.append]; [done|].
  destruct (Ascii.eqb "i" c2); [|done].
  destruct p as [|c3 p]; cbn [starts_with String.append]; [done|].
  destruct (Ascii.eqb "t" c3); done.
Qed.

Lemma str_replace_absent (p : string) :
  str_contains ".git" p = false -> str_replace ".git" "" p = p.
Proof.
  induction p as [|c p IH]; intros H; [done|].
  apply str_contains_cons in H as [H1 H2].
  rewrite str_replace_no_match by done. by rewrite IH.
Qed.

Lemma str_replace_piece (p t : string) :
  str_contains ".git" p = false ->
  str_replace ".git" "" (p +:+ ".git" +:+ t) = p +:+ str_replace ".git" "" t.
Proof.
  induction p as [|c p IH]; intros H.
  - change ("" +:+ ".git" +:+ t) with (".git" +:+ t).
    by rewrite str_replace_at_match.
  - apply str_contains_cons in H as [H1 H2].
    pose proof (dot_git_no_straddle c p t H1) as Hn.
    simpl String.append in *.
    rewrite str_replace_no_match by done. by rewrite IH.
Qed.

(** Cut a text at its occurrences of [".git"]: replacing glues the
    pieces back together with nothing in between. *)
Lemma str_replace_removes_all (pieces : list string) :
  Forall (λ p, str_contains ".git" p = false) pieces ->
  str_replace ".git" "" (str_join ".git" pieces) = str_concat pieces.
Proof.
  induction 1 as [|p ps Hp Hps IH]; [done|].
  destruct ps as [|q ps].
  - simpl. rewrite str_app_nil_r. by apply str_replace_absent.
  - change (str_join ".git" (p :: q :: ps))
      with (p +:+ ".git" +:+ str_join ".git" (q :: ps)).
    rewrite str_replace_piece by done. by rewrite IH.
Qed.

(** ** [parse_github_repo] *)

Lemma parse_github_repo_on_shape (prefix owner segment rest url : string) :
  prefix = "git@github.com:" \/ prefix = "https://github.com/" ->
  repo_url_shape prefix owner segment rest url ->
  parse_github_repo url = Ret (owner, str_replace ".git" "" segment).
Proof.
  intros Hprefix Hshape. unfold parse_github_repo.
  destruct Hprefix as [->| ->].
  - rewrite ssh_pattern_shape, (repo_pattern_match _ _ _ _ _ Hshape). done.
  - assert (re_match ssh_pattern url = None) as ->.
    { destruct Hshape as (-> & _). done. }
    rewrite https_pattern_shape, (repo_pattern_match _ _ _ _ _ Hshape). done.
Qed.

Lemma parse_github_repo_no_match (url : string) :
  ~ matches_ssh url -> ~ matches_https url ->
  parse_github_repo url =
    Exit ("Could not parse GitHub repository info from remote URL: " +:+ url).
Proof.
  intros Hssh Hhttps. unfold parse_github_repo.
  destruct (re_match ssh_pattern url) as [m|] eqn:E1.
  { rewrite ssh_pattern_shape in E1. destruct Hssh. by eapply repo_pattern_inv. }
  destruct (re_match https_pattern url) as [m|] eqn:E2.
  { rewrite https_pattern_shape in E2. destruct Hhttps. by eapply repo_pattern_inv. }
  done.
Qed.

(** C10. For a URL of the SSH or HTTPS form, [parse_github_repo] returns
    the owner as written and the repository component with every
    occurrence of [".git"] taken out, wherever it stands; for a URL of
    neither form it ends the run. *)
Theorem parse_github_repo_spec (url : string) :
  (forall owner segment rest,
     repo_url_shape "git@github.com:" owner segment rest url \/
     repo_url_shape "https://github.com/" owner segment rest url ->
     parse_github_repo url = Ret (owner, str_replace ".git" "" segment)) /\
  (forall pieces,
     Forall (λ p, str_contains ".git" p = false) pieces ->
     str_replace ".git" "" (str_join ".git" pieces) = str_concat pieces) /\
  (~ matches_ssh url -> ~ matches_https url ->
   exists msg, parse_github_repo url = Exit msg).
Proof.
  split_and!.
  - intros owner segment rest [H|H].
    + eapply parse_github_repo_on_shape; [by left|exact H].
    + eapply parse_github_repo_on_shape; [by right|exact H].
  - apply str_replace_removes_all.
  - intros H1 H2. eexists. by apply parse_github_repo_no_match.
Qed.

Lemma parse_github_repo_spec_witness :
  parse_github_repo "https://github.com/me/my.github.io.git/tree" = Ret ("me", "myhub.io") /\
  str_replace ".git" "" "a.git.b.git" = "a.b" /\
  exists msg, parse_github_repo "https://gitlab.com/me/x" = Exit msg.
Proof.
  pose proof (parse_github_repo_spec "https://github.com/me/my.github.io.git/tree")
    as (H1 & _ & _).
  pose proof (parse_github_repo_spec "https://gitlab.com/me/x") as (_ & H2 & H3).
  split_and!.
  - apply (H1 "me" "my.github.io.git" "/tree"). right.
    unfold repo_url_shape. split_and!; try done. right. by eexists.
  - apply (H2 ["a"; ".b"; ""]). repeat constructor.
  - apply H3.
    + intros (o & s & r & Hs & _). done.
    + intros (o & s & r & Hs & Ho & Hoa & Hseg & Hsa & Hr). simpl in Hs.
      injection Hs as Hs. done.
Defined.

(** ** [prompt_for_vpc_cidr] *)

Definition cidr_prompt : string := "Enter option number (default 1): ".

Lemma cidr_index_range (int_of : string -> option Z) (choice : string) (idx : Z) :
  cidr_index int_of choice = Some idx -> 0 <= idx < 3.
Proof.
  unfold cidr_index. intros H.
  destruct (if String.eqb choice "" then Some 0 else (λ n, n - 1) <$> int_of choice)
    as [i|]; [|done].
  simpl in H. change (Z.of_nat 3) with 3 in H.
  destruct (i <? 0) eqn:E1; simpl in H; [done|].
  destruct (i >=? 3) eqn:E2; simpl in H; [done|].
  injection H as <-. apply Z.ltb_ge in E1.
  rewrite Z.geb_leb in E2. apply Z.leb_gt in E2. lia.
Qed.

(** Whatever [strip] and [int] do, the prompt returns one of the three
    options, and the first of them whenever the [try] block raises. *)
Lemma prompt_for_vpc_cidr_total {W} (h : handler W) (w : W)
    (strip : string -> string) (int_of : string -> option Z) :
  let line := (h _ (Input cidr_prompt) w).1 in
  let e := run h (prompt_for_vpc_cidr strip int_of) w in
  (exists cidr, result e = Returned cidr /\ In cidr cidr_options) /\
  (cidr_index int_of (strip line) = None -> result e = Returned "10.0.0.0/16").
Proof.
  unfold prompt_for_vpc_cidr, cidr_prompt. simpl.
  destruct (h _ (Input "Enter option number (default 1): ") w) as [line w'].
  simpl. destruct (cidr_index int_of (strip line)) as [idx|] eqn:E.
  - split; [|done].
    apply cidr_index_range in E.
    assert (idx = 0 \/ idx = 1 \/ idx = 2) as [->|[->| ->]] by lia;
      simpl; eexists; (split; [done|]); simpl; tauto.
  - simpl. split; [|done]. eexists. split; [done|]. simpl. tauto.
Qed.

Lemma bad_choice_no_index (int_of : string -> option Z) (choice : string) :
  choice <> "" -> bad_choice int_of choice -> cidr_index int_of choice = None.
Proof.
  intros Hne [->|[H|(n & H & Hn)]]; [done|..]; unfold cidr_index.
  - apply String.eqb_neq in Hne as ->. by rewrite H.
  - apply String.eqb_neq in Hne as ->. rewrite H. simpl.
    change (Z.of_nat 3) with 3.
    destruct (n - 1 <? 0) eqn:E1; simpl; [done|].
    destruct (n - 1 >=? 3) eqn:E2; simpl; [done|].
    apply Z.ltb_ge in E1. rewrite Z.geb_leb in E2. apply Z.leb_gt in E2. lia.
Qed.

(** C9. [prompt_for_vpc_cidr] never ends the run on a bad answer: an
    answer that is empty once stripped, that [int] refuses, or that is a
    number outside 1..3 yields the default ["10.0.0.0/16"], and every
    answer yields one of the three options.  This holds whatever
    [str.strip] and [int] compute, on any text. *)
Theorem prompt_for_vpc_cidr_never_aborts {W} (h : handler W) (w : W)
    (strip : string -> string) (int_of : string -> option Z) :
  let line := (h _ (Input cidr_prompt) w).1 in
  let e := run h (prompt_for_vpc_cidr strip int_of) w in
  (exists cidr, result e = Returned cidr /\
     (cidr = "10.0.0.0/16" \/ cidr = "192.168.0.0/16" \/ cidr = "172.31.0.0/16")) /\
  (bad_choice int_of (strip line) -> result e = Returned "10.0.0.0/16").
Proof.
  intros line e.
  destruct (prompt_for_vpc_cidr_total h w strip int_of) as [(cidr & Hr & Hin) Hbad].
  fold line in Hbad. fold e in Hr, Hbad. split.
  - exists cidr. split; [done|]. simpl in Hin. intuition.
  - intros Hc. destruct (decide (strip line = "")) as [Hempty|Hne].
    + subst e line. unfold prompt_for_vpc_cidr, cidr_prompt in *. simpl.
      destruct (h _ (Input "Enter option number (default 1): ") w) as [l w'].
      simpl in *. by rewrite Hempty.
    + apply Hbad. by apply bad_choice_no_index.
Qed.

(** The operator types [" 7 "]; of the builtins only what they answer on
    that line is used: [" 7 ".strip()] is ["7"] and [int("7")] is [7]. *)
Lemma prompt_for_vpc_cidr_never_aborts_witness :
  let strip := λ s : string, if String.eqb s " 7 " then "7" else s in
  let int_of := λ s : string, if String.eqb s "7" then Some 7 else None in
  bad_choice int_of (strip " 7 ") /\
  result (run (operator " 7 ") (prompt_for_vpc_cidr strip int_of) ()) = Returned "10.0.0.0/16".
Proof.
  intros strip int_of.
  assert (bad_choice int_of (strip " 7 ")) as Hbad.
  { right. right. exists 7. split; [reflexivity|lia]. }
  split; [exact Hbad|].
  exact (proj2 (prompt_for_vpc_cidr_never_aborts (operator " 7 ") () strip int_of) Hbad).
Defined.

(** ** Running programs *)

Lemma run_bind {A B W} (h : handler W) (p : prog A) (f : A -> prog B) (w : W) :
  run h (p ≫= f) w = then_run h (run h p w) f.
Proof.
  revert w. induction p as [a|m|x| |R c k IH]; intros w; simpl.
  - unfold then_run. simpl. by destruct (run h (f a) w).
  - done.
  - done.
  - done.
  - destruct (h R c w) as [r w']. unfold mbind, prog_mbind in IH.
    rewrite IH. unfold then_run. simpl.
    by destruct (result (run h (k r) w')).
Qed.

Lemma run_fmap {A B W} (h : handler W) (p : prog A) (f : A -> B) (w : W) :
  run h (f <$> p) w = then_run h (run h p w) (λ a, Ret (f a)).
Proof. apply (run_bind h p (λ a, Ret (f a))). Qed.

(** A composite that returns went through both halves. *)
Lemma then_run_returned {A B W} (h : handler W) (e : execution A W) (f : A -> prog B) (b : B) :
  result (then_run h e f) = Returned b ->
  exists a, result e = Returned a /\
            result (run h (f a) (final e)) = Returned b /\
            trace (then_run h e f) = trace e ++ trace (run h (f a) (final e)) /\
            final (then_run h e f) = final (run h (f a) (final e)).
Proof.
  unfold then_run. destruct (result e) as [a|m|x|]; simpl; try done.
  intros H. by exists a.
Qed.

Lemma then_run_step {A B W} (h : handler W) (e : execution A W) (f : A -> prog B) (a : A) :
  result e = Returned a ->
  then_run h e f =
    {| result := result (run h (f a) (final e));
       trace := trace e ++ trace (run h (f a) (final e));
       final := final (run h (f a) (final e)) |}.
Proof. unfold then_run. by intros ->. Qed.

Lemma then_run_trace_nonempty {A B W} (h : handler W) (e : execution A W) (f : A -> prog B) :
  trace e <> [] -> trace (then_run h e f) <> [].
Proof.
  unfold then_run. destruct (result e); simpl; try done.
  intros H Happ. by apply app_eq_nil in Happ as [? _].
Qed.

Lemma perform_trace_nonempty {R W} (h : handler W) (c : call R) (w : W) :
  trace (run h (perform c) w) <> [].
Proof. unfold perform. simpl. by destruct (h R c w). Qed.

(** One guarded boto3 call that returns has answered [AwsOk]. *)
Lemma or_exit_on_client_error_returned {A W} (h : handler W) msg (c : call (aws_result A))
    (w : W) (a : A) :
  result (run h (or_exit_on_client_error msg c) w) = Returned a ->
  h _ c w = (AwsOk a, final (run h (or_exit_on_client_error msg c) w)) /\
  trace (run h (or_exit_on_client_error msg c) w) = [Ev c (AwsOk a)].
Proof.
  unfold or_exit_on_client_error. simpl.
  destruct (h _ c w) as [[a'|code|e] w']; simpl; try done.
  by intros [= ->].
Qed.

(** ** [deploy_as_ecs_service] *)

Section Deploy.
Context {W : Type} (h : handler W).
Variables (ngrok_seed ngrok_token resourcely_api_token : json).
Variables (bucket_name : string) (network : network_config).

Let deploy : prog unit :=
  deploy_as_ecs_service ngrok_seed ngrok_token resourcely_api_token bucket_name network.

(** The run up to and including the listing of the services. *)
Variables (w w1 w3 : W) (identity : caller_identity).
Variables (cluster_name : string) (services : list string).
Hypothesis identity_ok : h _ GetCallerIdentity w = (AwsOk identity, w1).
Let ec := run h (ensure_ecs_cluster "resourcely-campaigns") w1.
Hypothesis cluster_ok : result ec = Returned cluster_name.
Hypothesis listing_ok : h _ (ListServices cluster_name) (final ec) = (AwsOk services, w3).

Let listed : list event :=
  Ev GetCallerIdentity (AwsOk identity) :: trace ec
    ++ [Ev (ListServices cluster_name) (AwsOk services)].

Lemma ensure_ecs_cluster_name : cluster_name = "resourcely-campaigns".
Proof.
  subst ec. revert cluster_ok. unfold ensure_ecs_cluster. simpl.
  destruct (h _ (DescribeClusters ["resourcely-campaigns"]) w1) as [[d|code|e] w2];
    simpl; try done.
  destruct (bool_decide (failures d ≠ []) || _); simpl.
  - destruct (h _ (CreateCluster "resourcely-campaigns") w2) as [[u|code|e] w2'];
      simpl; try done. by intros [= <-].
  - by intros [= <-].
Qed.

Lemma deploy_after_listing :
  run h deploy w =
    if existsb (str_contains service_name) services
    then {| result := Returned (); trace := listed; final := w3 |}
    else
      let e' := run h (deploy_new_service (Account identity) cluster_name ngrok_seed
                         ngrok_token resourcely_api_token bucket_name network) w3 in
      {| result := result e'; trace := listed ++ trace e'; final := final e' |}.
Proof.
  subst deploy listed. unfold deploy_as_ecs_service.
  rewrite run_bind.
  assert (run h get_account_id w =
          {| result := Returned (Account identity);
             trace := [Ev GetCallerIdentity (AwsOk identity)]; final := w1 |}) as ->.
  { unfold get_account_id. simpl. by rewrite identity_ok. }
  unfold then_run at 1. cbn [result trace final].
  rewrite run_bind. fold ec. rewrite (then_run_step _ _ _ _ cluster_ok).
  rewrite run_bind.
  assert (run h (or_exit_on_client_error "Failed to list ECS services:"
                   (ListServices cluster_name)) (final ec) =
          {| result := Returned services;
             trace := [Ev (ListServices cluster_name) (AwsOk services)];
             final := w3 |}) as ->.
  { unfold or_exit_on_client_error. simpl. by rewrite listing_ok. }
  unfold then_run. cbn [result trace final].
  destruct (existsb (str_contains service_name) services).
  - done.
  - simpl. by rewrite <- app_assoc.
Qed.

(** Past the check, the first thing the deployer does is look the
    secret up: the trace cannot stop at the listing. *)
Lemma deploy_new_service_calls account w' :
  trace (run h (deploy_new_service account cluster_name ngrok_seed ngrok_token
                  resourcely_api_token bucket_name network) w') <> [].
Proof.
  unfold deploy_new_service. rewrite run_bind.
  apply then_run_trace_nonempty.
  unfold create_or_update_consolidated_secret. rewrite run_bind.
  apply then_run_trace_nonempty, perform_trace_nonempty.
Qed.
End Deploy.

Lemma app_eq_self {A} (l t : list A) : l ++ t = l -> t = [].
Proof. intros H. apply (app_inv_head l). by rewrite app_nil_r. Qed.

Lemma ensure_ecs_cluster_registers_nothing {W} (h : handler W) (name : string) (w : W) :
  registers_task_definition (trace (run h (ensure_ecs_cluster name) w)) = false.
Proof.
  unfold ensure_ecs_cluster. simpl.
  destruct (h _ (DescribeClusters [name]) w) as [[d|code|e] w2]; simpl; try done.
  destruct (bool_decide (failures d ≠ []) || _); simpl; [|done].
  by destruct (h _ (CreateCluster name) w2) as [[u|code|e] w2'].
Qed.

Lemma registers_task_definition_app (t1 t2 : list event) :
  registers_task_definition (t1 ++ t2) =
  registers_task_definition t1 || registers_task_definition t2.
Proof. apply existsb_app. Qed.

Lemma service_listed_spec (services : list string) :
  existsb (str_contains service_name) services = true <->
  exists arn a b, In arn services /\ arn = a +:+ "resourcely-campaigns-agent" +:+ b.
Proof.
  rewrite existsb_exists. split.
  - intros (arn & Hin & Hc). apply str_contains_spec in Hc as (a & b & ->).
    by exists (a +:+ service_name +:+ b), a, b.
  - intros (arn & a & b & Hin & ->). eexists. split; [done|].
    apply str_contains_spec. by exists a, b.
Qed.

(** C8. Once the cluster is there and the services are listed,
    [deploy_as_ecs_service] returns on the spot, with no call after the
    listing, exactly when some listed ARN contains
    ["resourcely-campaigns-agent"] as a substring. *)
Theorem deploy_skips_iff_name_is_substring {W} (h : handler W)
    (ngrok_seed ngrok_token resourcely_api_token : json)
    (bucket_name : string) (network : network_config)
    (w w1 w3 : W) (identity : caller_identity)
    (cluster_name : string) (services : list string) :
  h _ GetCallerIdentity w = (AwsOk identity, w1) ->
  let ec := run h (ensure_ecs_cluster "resourcely-campaigns") w1 in
  result ec = Returned cluster_name ->
  h _ (ListServices cluster_name) (final ec) = (AwsOk services, w3) ->
  (exists arn a b, In arn services /\ arn = a +:+ "resourcely-campaigns-agent" +:+ b) <->
  run h (deploy_as_ecs_service ngrok_seed ngrok_token resourcely_api_token
           bucket_name network) w =
    {| result := Returned ();
       trace := Ev GetCallerIdentity (AwsOk identity) :: trace ec
                  ++ [Ev (ListServices cluster_name) (AwsOk services)];
       final := w3 |}.
Proof.
  intros Hid ec Hcluster Hlist.
  rewrite <- service_listed_spec.
  rewrite (deploy_after_listing h ngrok_seed ngrok_token resourcely_api_token bucket_name
             network w w1 w3 identity cluster_name services Hid Hcluster Hlist).
  fold ec. destruct (existsb (str_contains service_name) services); [done|].
  split; [done|]. intros Heq. apply (f_equal trace) in Heq. cbn [trace] in Heq.
  apply app_eq_self in Heq. exfalso.
  by eapply deploy_new_service_calls.
Qed.

Lemma deploy_skips_iff_name_is_substring_witness :
  run ecs_account (deploy_as_ecs_service JNull JNull JNull "bucket" no_network)
    [lookalike_service_arn] =
  {| result := Returned ();
     trace :=
       [ Ev GetCallerIdentity
           (AwsOk {| Account := "123456789012";
                     Arn := "arn:aws:iam::123456789012:user/operator" |});
         Ev (DescribeClusters ["resourcely-campaigns"])
           (AwsOk {| failures := []; clusters := ["ACTIVE"] |});
         Ev (ListServices "resourcely-campaigns") (AwsOk [lookalike_service_arn]) ];
     final := [lookalike_service_arn] |}.
Proof.
  apply (proj1 (deploy_skips_iff_name_is_substring ecs_account JNull JNull JNull "bucket"
                  no_network [lookalike_service_arn] [lookalike_service_arn]
                  [lookalike_service_arn] _ "resourcely-campaigns" [lookalike_service_arn]
                  eq_refl eq_refl eq_refl)).
  exists lookalike_service_arn,
    "arn:aws:ecs:us-west-2:123456789012:service/resourcely-campaigns/", "-canary".
  split; [by left|reflexivity].
Defined.

(** Against C2 as stated: with the service already listed, a deploy
    returns normally without registering any task definition. *)
Lemma deploy_registration_is_conditional :
  let e := run ecs_account (deploy_as_ecs_service JNull JNull JNull "bucket" no_network)
             [existing_service_arn] in
  result e = Returned () /\ registers_task_definition (trace e) = false.
Proof. by vm_compute. Qed.

(** A deploy past the check that returns has registered a revision and
    created the service on it, in that order, as its last two calls. *)
Lemma deploy_new_service_returned {W} (h : handler W) account cluster_name
    (ngrok_seed ngrok_token resourcely_api_token : json)
    (bucket_name : string) (network : network_config) (w : W) :
  let e := run h (deploy_new_service account cluster_name ngrok_seed ngrok_token
                    resourcely_api_token bucket_name network) w in
  result e = Returned () ->
  exists pre td arn req,
    trace e = pre ++ [Ev (RegisterTaskDefinition td) (AwsOk arn);
                      Ev (CreateService req) (AwsOk ())] /\
    taskDefinition req = arn /\ serviceName req = service_name /\
    cluster req = cluster_name.
Proof.
  intros e He. subst e. unfold deploy_new_service in *.
  rewrite run_bind in *.
  apply then_run_returned in He as (secret_arn & _ & He & -> & _).
  rewrite run_bind in *.
  apply then_run_returned in He as ([task_role execution_role] & _ & He & -> & _).
  rewrite run_bind in *.
  apply then_run_returned in He as (arn & Hreg & Hcreate & -> & _).
  apply or_exit_on_client_error_returned in Hreg as [_ ->].
  apply or_exit_on_client_error_returned in Hcreate as [_ ->].
  rewrite app_assoc. by eexists _, _, arn, _.
Qed.

(** C2, amended. When no listed ARN contains the service name, a deploy
    that returns has registered a new task-definition revision and
    created the service referencing that revision.  When some listed ARN
    contains it, the deploy returns right after the listing: no secret,
    role, task-definition or service call is made. *)
Theorem deploy_registers_unless_service_listed {W} (h : handler W)
    (ngrok_seed ngrok_token resourcely_api_token : json)
    (bucket_name : string) (network : network_config)
    (w w1 w3 : W) (identity : caller_identity)
    (cluster_name : string) (services : list string) :
  h _ GetCallerIdentity w = (AwsOk identity, w1) ->
  let ec := run h (ensure_ecs_cluster "resourcely-campaigns") w1 in
  result ec = Returned cluster_name ->
  h _ (ListServices cluster_name) (final ec) = (AwsOk services, w3) ->
  let e := run h (deploy_as_ecs_service ngrok_seed ngrok_token resourcely_api_token
                    bucket_name network) w in
  (existsb (str_contains service_name) services = false ->
   result e = Returned () ->
   exists pre td arn req,
     trace e = pre ++ [Ev (RegisterTaskDefinition td) (AwsOk arn);
                       Ev (CreateService req) (AwsOk ())] /\
     taskDefinition req = arn /\ serviceName req = service_name) /\
  (existsb (str_contains service_name) services = true ->
   result e = Returned () /\
   trace e = Ev GetCallerIdentity (AwsOk identity) :: trace ec
               ++ [Ev (ListServices cluster_name) (AwsOk services)] /\
   registers_task_definition (trace e) = false).
Proof.
  intros Hid ec Hcluster Hlist e. subst e.
  rewrite (deploy_after_listing h ngrok_seed ngrok_token resourcely_api_token bucket_name
             network w w1 w3 identity cluster_name services Hid Hcluster Hlist).
  fold ec. split; intros ->.
  - cbn [result trace]. intros He.
    apply deploy_new_service_returned in He as (pre & td & arn & req & -> & ? & ? & _).
    eexists (_ ++ pre), td, arn, req. by rewrite <- app_assoc.
  - cbn [result trace]. split_and!; [done..|].
    cbn [registers_task_definition existsb is_register_task_definition].
    fold (registers_task_definition (trace ec ++ [Ev (ListServices cluster_name) (AwsOk services)])).
    rewrite registers_task_definition_app.
    unfold ec. by rewrite ensure_ecs_cluster_registers_nothing.
Qed.

Lemma deploy_registers_unless_service_listed_witness :
  let e := run ecs_account (deploy_as_ecs_service JNull JNull JNull "bucket" no_network) [] in
  exists pre td arn req,
    trace e = pre ++ [Ev (RegisterTaskDefinition td) (AwsOk arn);
                      Ev (CreateService req) (AwsOk ())] /\
    taskDefinition req = arn /\ serviceName req = service_name.
Proof.
  exact (proj1 (deploy_registers_unless_service_listed ecs_account JNull JNull JNull "bucket"
                  no_network [] [] [] _ "resourcely-campaigns" []
                  eq_refl eq_refl eq_refl) eq_refl eq_refl).
Defined.

(** ** [create_oidc_provider] *)

Ltac run_step :=
  cbn [run mbind mret fmap prog_mbind prog_mret prog_fmap prog_bind perform
       result trace final].

Lemma find_oidc_provider_found {W} (h : handler W) (providers : list string) (w : W)
    (arn : string) :
  let es := run h (find_oidc_provider providers) w in
  result es = Returned (Some arn) ->
  In arn providers /\
  exists r, In (Ev (GetOpenIDConnectProvider arn) r) (trace es) /\ is_target_provider r.
Proof.
  revert w. induction providers as [|p rest IH]; intros w; [done|].
  cbn [find_oidc_provider]. run_step.
  destruct (h _ (GetOpenIDConnectProvider p) w) as [[url|code|e] w'] eqn:Hget; run_step.
  - destruct (String.eqb _ normalized_target_url) eqn:Hurl.
    + run_step. intros [= ->]. split; [by left|].
      exists (AwsOk url). split; [by left|].
      exists url. split; [done|]. by apply String.eqb_eq.
    + intros H. destruct (IH w' H) as (Hin & r & Hr & Ht).
      split; [by right|]. exists r. split; [by right|done].
  - intros H. destruct (IH w' H) as (Hin & r & Hr & Ht).
    split; [by right|]. exists r. split; [by right|done].
  - done.
Qed.

Lemma find_oidc_provider_none {W} (h : handler W) (providers : list string) (w : W) :
  let es := run h (find_oidc_provider providers) w in
  result es = Returned None ->
  forall arn, In arn providers ->
    exists r, In (Ev (GetOpenIDConnectProvider arn) r) (trace es) /\ ~ is_target_provider r.
Proof.
  revert w. induction providers as [|p rest IH]; intros w; [done|].
  cbn [find_oidc_provider]. run_step.
  destruct (h _ (GetOpenIDConnectProvider p) w) as [[url|code|e] w'] eqn:Hget; run_step.
  - destruct (String.eqb _ normalized_target_url) eqn:Hurl; [done|].
    intros H arn [<-|Hin].
    + exists (AwsOk url). split; [by left|].
      intros (url' & [= <-] & Heq). apply String.eqb_neq in Hurl. done.
    + destruct (IH w' H arn Hin) as (r & Hr & Hn). exists r. split; [by right|done].
  - intros H arn [<-|Hin].
    + exists (ClientError code). split; [by left|]. by intros (url' & [=] & _).
    + destruct (IH w' H arn Hin) as (r & Hr & Hn). exists r. split; [by right|done].
  - done.
Qed.

Section OidcRace.
Context {W : Type} (h : handler W).
Variables (w w1 w3 w4 : W) (before after : list string).

(** The first listing shows no provider for the target... *)
Hypothesis first_listing : h _ ListOpenIDConnectProviders w = (AwsOk before, w1).
Let e1 := run h (find_oidc_provider before) w1.
Hypothesis first_scan : result e1 = Returned None.
(** ...the create call loses the race... *)
Hypothesis create_raced :
  h _ (CreateOpenIDConnectProvider target_url target_client_ids [thumbprint]) (final e1)
  = (ClientError "EntityAlreadyExists", w3).
(** ...and the providers are listed again. *)
Hypothesis second_listing : h _ ListOpenIDConnectProviders w3 = (AwsOk after, w4).
Let es := run h (find_oidc_provider after) w4.

Lemma create_oidc_provider_after_race :
  result (run h create_oidc_provider w) =
    match result es with
    | Returned (Some provider_arn) => Returned provider_arn
    | Returned None => Exited "OIDC provider exists but could not be retrieved."
    | Exited m => Exited m
    | Raised x => Raised x
    | Unfinished => Unfinished
    end.
Proof.
  unfold create_oidc_provider.
  rewrite run_bind.
  assert (run h (unguarded ListOpenIDConnectProviders) w =
          {| result := Returned before;
             trace := [Ev ListOpenIDConnectProviders (AwsOk before)];
             final := w1 |}) as ->.
  { unfold unguarded. run_step. by rewrite first_listing. }
  unfold then_run at 1. cbn [result trace final].
  rewrite run_bind. fold e1. rewrite (then_run_step _ _ _ _ first_scan).
  cbn [result]. run_step. rewrite create_raced. run_step.
  change (String.eqb "EntityAlreadyExists" "EntityAlreadyExists") with true.
  cbv iota.
  change (prog_bind ?f (unguarded ?c)) with (unguarded c ≫= f).
  rewrite run_bind.
  assert (run h (unguarded ListOpenIDConnectProviders) w3 =
          {| result := Returned after;
             trace := [Ev ListOpenIDConnectProviders (AwsOk after)];
             final := w4 |}) as ->.
  { unfold unguarded. run_step. by rewrite second_listing. }
  unfold then_run at 1. cbn [result trace final].
  rewrite run_bind. fold es. unfold then_run.
  destruct (result es) as [[arn|]|m|x|]; done.
Qed.
End OidcRace.

(** A provider whose details the account serves, whenever asked, for the
    target URL is found by the scan, provided no details call dies of
    something other than a [ClientError]. *)
Lemma find_oidc_provider_finds {W} (h : handler W) (providers : list string) (w : W) :
  (forall arn w' e, (h _ (GetOpenIDConnectProvider arn) w').1 <> BotoError e) ->
  (exists arn, In arn providers /\
     forall w', is_target_provider (h _ (GetOpenIDConnectProvider arn) w').1) ->
  exists arn, result (run h (find_oidc_provider providers) w) = Returned (Some arn).
Proof.
  intros Hno. revert w. induction providers as [|p rest IH]; intros w (arn & Hin & Hok).
  { done. }
  cbn [find_oidc_provider]. run_step.
  pose proof (Hno p w) as Hp. pose proof (Hok w) as Hokw.
  destruct (h _ (GetOpenIDConnectProvider p) w) as [[url|code|e] w'] eqn:Hget;
    run_step; cbn [fst] in *.
  - destruct (String.eqb _ normalized_target_url) eqn:Hurl; [by eexists|].
    destruct Hin as [<-|Hin].
    + rewrite Hget in Hokw. destruct Hokw as (url' & [= <-] & Heq).
      apply String.eqb_neq in Hurl. done.
    + apply IH. by exists arn.
  - destruct Hin as [<-|Hin].
    + rewrite Hget in Hokw. by destruct Hokw as (url' & [=] & _).
    + apply IH. by exists arn.
  - by destruct (Hp e).
Qed.

(** The scan has no [sys.exit] of its own. *)
Lemma find_oidc_provider_never_exits {W} (h : handler W) (providers : list string) (w : W)
    (m : string) :
  result (run h (find_oidc_provider providers) w) <> Exited m.
Proof.
  revert w. induction providers as [|p rest IH]; intros w; [done|].
  cbn [find_oidc_provider]. run_step.
  destruct (h _ (GetOpenIDConnectProvider p) w) as [[url|code|x] w']; run_step.
  - destruct (String.eqb _ normalized_target_url); [done|apply IH].
  - apply IH.
  - done.
Qed.

(** C6. When [create_open_id_connect_provider] fails with
    [EntityAlreadyExists], [create_oidc_provider] lists the providers
    again and returns the ARN of one whose URL, stripped of ["https://"],
    is the target's; it exits only when no listed provider could be
    retrieved with that URL. *)
Theorem create_oidc_provider_resolves_race {W} (h : handler W)
    (w w1 w3 w4 : W) (before after : list string) :
  h _ ListOpenIDConnectProviders w = (AwsOk before, w1) ->
  let e1 := run h (find_oidc_provider before) w1 in
  result e1 = Returned None ->
  h _ (CreateOpenIDConnectProvider target_url target_client_ids [thumbprint]) (final e1)
    = (ClientError "EntityAlreadyExists", w3) ->
  h _ ListOpenIDConnectProviders w3 = (AwsOk after, w4) ->
  let es := run h (find_oidc_provider after) w4 in
  let e := run h create_oidc_provider w in
  (forall arn, result e = Returned arn ->
     In arn after /\
     exists r, In (Ev (GetOpenIDConnectProvider arn) r) (trace es) /\ is_target_provider r) /\
  (forall msg, result e = Exited msg ->
     forall arn, In arn after ->
       exists r, In (Ev (GetOpenIDConnectProvider arn) r) (trace es) /\
                 ~ is_target_provider r) /\
  ((forall arn w' x, (h _ (GetOpenIDConnectProvider arn) w').1 <> BotoError x) ->
   (exists arn, In arn after /\
      forall w', is_target_provider (h _ (GetOpenIDConnectProvider arn) w').1) ->
   exists arn, result e = Returned arn).
Proof.
  intros H1 e1 H2 H3 H4 es e.
  pose proof (create_oidc_provider_after_race h w w1 w3 w4 before after H1 H2 H3 H4) as He.
  fold es e in He. split_and!.
  - intros arn Hr. rewrite Hr in He.
    destruct (result es) as [[arn'|]|m|x|] eqn:Hes; try done.
    injection He as ->. by apply (find_oidc_provider_found h after w4 arn').
  - intros msg Hr. rewrite Hr in He.
    destruct (result es) as [[arn'|]|m|x|] eqn:Hes; try done.
    + by apply (find_oidc_provider_none h after w4).
    + by destruct (find_oidc_provider_never_exits h after w4 m).
  - intros Hno Hex.
    destruct (find_oidc_provider_finds h after w4 Hno Hex) as [arn Hfound].
    fold es in Hfound. rewrite Hfound in He. by exists arn.
Qed.

Lemma create_oidc_provider_resolves_race_witness :
  exists arn, result (run racing_iam create_oidc_provider O) = Returned arn.
Proof.
  refine (proj2 (proj2 (create_oidc_provider_resolves_race racing_iam O 1%nat 1%nat 2%nat
                          [other_provider_arn] [other_provider_arn; github_provider_arn]
                          eq_refl eq_refl eq_refl eq_refl)) _ _).
  - intros arn w' x. simpl. by destruct (String.eqb arn github_provider_arn).
  - exists github_provider_arn. split; [right; by left|].
    intros w'. exists (Some "token.actions.githubusercontent.com").
    split; [reflexivity|]. vm_compute. reflexivity.
Defined.

(** ** Python equality on decoded documents *)

Section JsonInd.
Variable P : json -> Prop.
Hypothesis Hnull : P JNull.
Hypothesis Hbool : forall b, P (JBool b).
Hypothesis Hnum : forall n, P (JNum n).
Hypothesis Hstr : forall s, P (JStr s).
Hypothesis Harr : forall l, Forall P l -> P (JArr l).
Hypothesis Hobj : forall l, Forall (λ kv, P kv.2) l -> P (JObj l).

Fixpoint json_induction (j : json) : P j :=
  match j with
  | JNull => Hnull
  | JBool b => Hbool b
  | JNum n => Hnum n
  | JStr s => Hstr s
  | JArr l =>
      Harr l ((fix go (l : list json) : Forall P l :=
                 match l with
                 | [] => List.Forall_nil P
                 | x :: l' => List.Forall_cons P x l' (json_induction x) (go l')
                 end) l)
  | JObj l =>
      Hobj l ((fix go (l : list (string * json)) : Forall (λ kv, P kv.2) l :=
                 match l with
                 | [] => List.Forall_nil _
                 | kv :: l' => List.Forall_cons _ kv l' (json_induction kv.2) (go l')
                 end) l)
  end.
End JsonInd.

Lemma py_eq_arr_cons (x y : json) (xs ys : list json) :
  py_eq (JArr (x :: xs)) (JArr (y :: ys)) = py_eq x y && py_eq (JArr xs) (JArr ys).
Proof. reflexivity. Qed.

Lemma py_eq_obj (xs ys : list (string * json)) :
  py_eq (JObj xs) (JObj ys) =
  Nat.eqb (List.length xs) (List.length ys) &&
  forallb (λ kv, match dict_lookup kv.1 ys with
                 | Some v' => py_eq kv.2 v'
                 | None => false
                 end) xs.
Proof.
  cbn [py_eq]. f_equal.
  induction xs as [|[k v] xs IH]; [done|].
  cbn [forallb fst snd]. by rewrite <- IH.
Qed.

Lemma wf_json_arr (l : list json) : wf_json (JArr l) <-> Forall wf_json l.
Proof.
  induction l as [|x l IH]; [by split|].
  split.
  - intros [Hx Hl]. constructor; [done|]. by apply IH.
  - intros H. inversion_clear H. split; [done|]. by apply IH.
Qed.

Lemma wf_json_obj (l : list (string * json)) :
  wf_json (JObj l) <-> NoDup (map fst l) /\ Forall (λ kv, wf_json kv.2) l.
Proof.
  cbn [wf_json]. apply and_iff_compat_l.
  induction l as [|[k v] l IH]; [by split|].
  split.
  - intros [Hx Hl]. constructor; [done|]. by apply IH.
  - intros H. inversion_clear H. split; [done|]. by apply IH.
Qed.

Lemma dict_lookup_nodup {A} (k : string) (v : A) (l : list (string * A)) :
  NoDup (map fst l) -> In (k, v) l -> dict_lookup k l = Some v.
Proof.
  induction l as [|[k' v'] l IH]; [done|].
  cbn [map fst dict_lookup]. intros Hnd [Heq|Hin].
  - injection Heq as -> ->. by rewrite String.eqb_refl.
  - inversion_clear Hnd as [|? ? Hk Hl].
    destruct (String.eqb k' k) eqn:E; [|by apply IH].
    apply String.eqb_eq in E as ->. destruct Hk.
    apply list_elem_of_In, in_map_iff. by exists (k, v).
Qed.

(** Items related pairwise carry the same keys. *)
Lemma related_items_keys (R : json -> json -> Prop) (xs ys : list (string * json)) :
  Forall2 (λ x y, x.1 = y.1 /\ R x.2 y.2) xs ys -> map fst xs = map fst ys.
Proof. induction 1 as [|[??] [??] ?? [??]]; simpl in *; congruence. Qed.

Lemma forallb_In {A} (f : A -> bool) (l : list A) :
  (forall x, In x l -> f x = true) -> forallb f l = true.
Proof. intros H. apply forallb_forall. exact H. Qed.

(** Python's [==] does not see the order of the keys. *)
Lemma py_eq_key_reordered (a b : json) :
  wf_json a -> key_reordered a b -> py_eq a b = true /\ py_eq b a = true.
Proof.
  revert b. induction a as [|x|n|s|xs IH|xs IH] using json_induction;
    intros c Hwf Hkr; inversion Hkr; subst.
  - done.
  - by destruct x.
  - cbn. by rewrite Z.eqb_refl.
  - cbn. by rewrite String.eqb_refl.
  - apply wf_json_arr in Hwf.
    match goal with H : Forall2 key_reordered _ _ |- _ => rename H into H2 end.
    clear Hkr. induction H2 as [|x y xs ys Hxy H2 IH2]; [done|].
    inversion_clear IH as [|? ? IHx IHxs]. inversion_clear Hwf as [|? ? Hx Hxs].
    rewrite !py_eq_arr_cons.
    destruct (IHx y Hx Hxy) as [-> ->].
    destruct (IH2 IHxs Hxs) as [-> ->]. done.
  - apply wf_json_obj in Hwf as [Hnd Hwf].
    match goal with
    | H : Forall2 _ xs ?l, Hp : Permutation ?l ?z |- _ =>
        rename H into H2; rename Hp into Hperm; rename l into ys; rename z into zs
    end.
    pose proof (related_items_keys _ _ _ H2) as Hkeys.
    assert (NoDup (map fst zs)) as Hndz.
    { assert (map fst xs ≡ₚ map fst zs) as Hp.
      { rewrite Hkeys. by apply Permutation_map. }
      by rewrite <- Hp. }
    assert (List.length xs = List.length zs) as Hlen.
    { rewrite <- (Permutation_length Hperm). by eapply Forall2_length. }
    (* each item of [xs] faces an item of [ys] under the same key *)
    assert (forall k v, In (k, v) xs ->
              exists v', In (k, v') ys /\ py_eq v v' = true /\ py_eq v' v = true) as Hfwd.
    { clear Hkr Hperm Hkeys Hlen Hnd Hndz.
      induction H2 as [|[k1 v1] [k2 v2] xs ys [Hk Hv] H2 IH2]; [done|].
      inversion_clear IH as [|? ? IHx IHxs]. inversion_clear Hwf as [|? ? Hx Hxs].
      cbn [fst snd] in *. subst k2.
      intros k v [[= <- <-]|Hin].
      - exists v2. split; [by left|]. by apply IHx.
      - destruct (IH2 IHxs Hxs k v Hin) as (v' & ? & ?). exists v'. split; [by right|done]. }
    assert (forall k v', In (k, v') ys ->
              exists v, In (k, v) xs /\ py_eq v v' = true /\ py_eq v' v = true) as Hbwd.
    { clear Hkr Hperm Hkeys Hlen Hnd Hndz Hfwd.
      induction H2 as [|[k1 v1] [k2 v2] xs ys [Hk Hv] H2 IH2]; [done|].
      inversion_clear IH as [|? ? IHx IHxs]. inversion_clear Hwf as [|? ? Hx Hxs].
      cbn [fst snd] in *. subst k2.
      intros k v' [[= <- <-]|Hin].
      - exists v1. split; [by left|]. by apply IHx.
      - destruct (IH2 IHxs Hxs k v' Hin) as (v & ? & ?). exists v. split; [by right|done]. }
    rewrite !py_eq_obj, Hlen, Nat.eqb_refl. cbn [andb]. split.
    + apply forallb_In. intros [k v] Hin. cbn [fst snd].
      destruct (Hfwd k v Hin) as (v' & Hin' & Heq & _).
      rewrite (dict_lookup_nodup k v' zs Hndz); [done|].
      by eapply Permutation_in.
    + apply forallb_In. intros [k v'] Hin. cbn [fst snd].
      destruct (Hbwd k v') as (v & Hin' & _ & Heq).
      { eapply Permutation_in; [|exact Hin]. by symmetry. }
      by rewrite (dict_lookup_nodup k v xs Hnd).
Qed.

Lemma key_reordered_refl (a : json) : key_reordered a a.
Proof.
  induction a as [| | | |xs IH|xs IH] using json_induction; try constructor.
  - induction IH; by constructor.
  - apply (kr_obj xs xs xs); [|done].
    induction IH as [|[k v] xs Hv _ IH]; by constructor.
Qed.

Lemma intended_statement_wf (principal_arn bucket_name : string) :
  wf_json (intended_statement principal_arn bucket_name).
Proof.
  apply wf_json_obj. split.
  - cbn. apply (bool_decide_unpack _). by vm_compute.
  - repeat constructor. apply not_elem_of_nil.
Qed.

(** ** [apply_bucket_policy] *)

Lemma py_eq_str_inv (s : string) (v : json) : py_eq v (JStr s) = true -> v = JStr s.
Proof.
  destruct v; cbn; try done. intros H. apply String.eqb_eq in H. by subst.
Qed.

(** A statement equal, for Python, to the intended one carries its Sid. *)
Lemma equal_statement_sid (principal_arn bucket_name : string) (items : list (string * json)) :
  py_eq (intended_statement principal_arn bucket_name) (JObj items) = true ->
  py_eq (JObj items) (intended_statement principal_arn bucket_name) = true ->
  py_eq (from_option id JNull (dict_lookup "Sid" items)) (JStr "AllowLocalDockerAccess")
  = true.
Proof.
  intros H _. unfold intended_statement, intended_statement_items in H.
  rewrite py_eq_obj in H. apply andb_true_iff in H as [_ H].
  cbn [forallb fst snd] in H. apply andb_true_iff in H as [H _].
  destruct (dict_lookup "Sid" items) as [v|]; [|done].
  cbn [from_option id]. destruct v; try done.
  cbn in H. cbn. by rewrite String.eqb_sym.
Qed.

(** Statements that are not ours are passed over by the loop. *)
Lemma scan_statements_skip (intended : list (string * json)) (pre rest : list json) :
  Forall other_statement pre ->
  scan_statements intended (pre ++ rest) =
    match scan_statements intended rest with
    | Updated rest' => Updated (pre ++ rest')
    | other => other
    end.
Proof.
  induction 1 as [|s pre (items & -> & Hsid) _ IH].
  - cbn [app]. by destruct (scan_statements intended rest).
  - cbn [app scan_statements]. rewrite Hsid, IH.
    by destruct (scan_statements intended rest).
Qed.

Lemma scan_statements_equal (principal_arn bucket_name : string)
    (pre post : list json) (stmt : json) :
  Forall other_statement pre ->
  key_reordered (intended_statement principal_arn bucket_name) stmt ->
  scan_statements (intended_statement_items principal_arn bucket_name)
    (pre ++ stmt :: post) = AlreadyApplied.
Proof.
  intros Hpre Hkr.
  destruct (py_eq_key_reordered _ _ (intended_statement_wf _ _) Hkr) as [H1 H2].
  rewrite scan_statements_skip by done.
  inversion Hkr; subst. cbn [scan_statements].
  rewrite (equal_statement_sid principal_arn bucket_name) by done.
  fold (intended_statement principal_arn bucket_name). by rewrite H2.
Qed.

(** C3. [apply_bucket_policy] compares the existing
    ["AllowLocalDockerAccess"] statement with the intended one as
    decoded documents: when the statement found in the bucket policy is
    the intended one with its keys in another order, the function returns
    after reading the policy and never calls [put_bucket_policy]. *)
Theorem apply_bucket_policy_ignores_key_order {W} (h : handler W) (bucket_name : string)
    (w w1 w2 : W) (identity : caller_identity)
    (policy_items : list (string * json)) (pre post : list json) (stmt : json) :
  h _ GetCallerIdentity w = (AwsOk identity, w1) ->
  h _ (GetBucketPolicy bucket_name) w1 = (AwsOk (JObj policy_items), w2) ->
  dict_lookup "Statement" policy_items = Some (JArr (pre ++ stmt :: post)) ->
  Forall other_statement pre ->
  key_reordered (intended_statement (Arn identity) bucket_name) stmt ->
  run h (apply_bucket_policy bucket_name) w =
    {| result := Returned ();
       trace := [ Ev GetCallerIdentity (AwsOk identity);
                  Ev (GetBucketPolicy bucket_name) (AwsOk (JObj policy_items)) ];
       final := w2 |}.
Proof.
  intros Hid Hget Hstmts Hpre Hkr.
  unfold apply_bucket_policy, get_current_aws_principal, or_exit_on_client_error, py_item.
  run_step. rewrite Hid. run_step. rewrite Hget. run_step.
  rewrite Hstmts. run_step.
  by rewrite (scan_statements_equal _ _ _ _ _ Hpre Hkr).
Qed.

Lemma apply_bucket_policy_ignores_key_order_witness :
  run (s3_with_policy reordered_policy) (apply_bucket_policy "state") () =
    {| result := Returned ();
       trace := [ Ev GetCallerIdentity (AwsOk operator_identity);
                  Ev (GetBucketPolicy "state") (AwsOk reordered_policy) ];
       final := () |}.
Proof.
  apply (apply_bucket_policy_ignores_key_order (s3_with_policy reordered_policy) "state"
           () () () operator_identity _ [foreign_statement] [] reordered_statement
           eq_refl eq_refl eq_refl).
  - constructor; [|constructor]. eexists. split; reflexivity.
  - change reordered_statement
      with (JObj (rev (intended_statement_items (Arn operator_identity) "state"))).
    apply (kr_obj _ (intended_statement_items (Arn operator_identity) "state"));
      [|apply Permutation_rev].
    repeat (constructor; [split; [reflexivity|apply key_reordered_refl]|]). constructor.
Defined.

(** ** Which calls a program makes *)

Lemma calls_only_bind {A B} (P : forall R, call R -> bool) (p : prog A) (f : A -> prog B) :
  calls_only P p -> (forall a, calls_only P (f a)) -> calls_only P (p ≫= f).
Proof.
  intros Hp Hf. induction p as [a| | | |R c k IH]; cbn; try done.
  destruct Hp as [Hc Hk]. split; [done|]. intros r. by apply IH.
Qed.

Lemma calls_only_trace {A W} (P : forall R, call R -> bool) (h : handler W)
    (p : prog A) (w : W) :
  calls_only P p -> Forall (λ e, event_is P e = true) (trace (run h p w)).
Proof.
  revert w. induction p as [a| | | |R c k IH]; intros w Hp; cbn; try by constructor.
  destruct Hp as [Hc Hk]. destruct (h R c w) as [r w']. cbn.
  constructor; [done|]. by apply IH.
Qed.

Lemma calls_only_py_get {A} P (d : json) key default (f : json -> prog A) :
  (forall v, calls_only P (f v)) -> calls_only P (py_get d key default ≫= f).
Proof. intros Hf. apply calls_only_bind; [by destruct d|done]. Qed.

Lemma calls_only_response_json {A} P (r : http_response) (f : json -> prog A) :
  (forall v, calls_only P (f v)) -> calls_only P (response_json r ≫= f).
Proof.
  intros Hf. apply calls_only_bind; [|done].
  unfold response_json. by destruct (json_body r).
Qed.

Lemma calls_only_requests_get {A} url auth params (f : http_response -> prog A) :
  (forall r, calls_only (@is_http_get) (f r)) ->
  calls_only (@is_http_get) (requests_get url auth params ≫= f).
Proof.
  intros Hf. apply calls_only_bind; [|done].
  unfold requests_get. cbn. split; [done|]. by intros [r|e].
Qed.

Lemma scan_jobs_calls P (jobs : list json) : calls_only P (scan_jobs jobs).
Proof.
  induction jobs as [|job rest IH]; [done|].
  cbn [scan_jobs]. apply calls_only_py_get. intros name.
  destruct (py_eq name _); [|done].
  apply calls_only_py_get. intros st. apply calls_only_py_get. intros cn.
  destruct (_ && _); [done|]. by destruct (_ && _).
Qed.

Lemma no_sleep_among_gets (t : list event) :
  Forall (λ e, event_is (@is_http_get) e = true) t -> sleeps t = O.
Proof.
  unfold sleeps. induction 1 as [|[R c r] t Hc _ IH]; [done|].
  cbn [filter]. destruct c; try done.
Qed.

(** One look at the plan job issues GET requests and nothing else. *)
Lemma evaluate_plan_job_calls owner repo commit_sha github_token :
  calls_only (@is_http_get) (evaluate_plan_job owner repo commit_sha github_token).
Proof.
  unfold evaluate_plan_job.
  apply calls_only_requests_get. intros response.
  destruct (negb _).
  { apply calls_only_response_json. done. }
  apply calls_only_response_json. intros body.
  apply calls_only_py_get. intros runs.
  destruct (py_truthy runs); [|done].
  apply calls_only_bind; [by destruct runs as [| | |[]|[]|]|]. intros latest.
  apply calls_only_py_get. intros run_id.
  apply calls_only_requests_get. intros jobs_response.
  destruct (negb _).
  { apply calls_only_response_json. done. }
  apply calls_only_response_json. intros jobs_body.
  apply calls_only_py_get. intros jobs.
  apply calls_only_bind; [by destruct jobs|]. intros items.
  apply scan_jobs_calls.
Qed.

(** ** [wait_for_plan_job_success] *)

Lemma scan_jobs_skip (pre rest : list json) :
  Forall undecided_job pre -> scan_jobs (pre ++ rest) = scan_jobs rest.
Proof.
  induction 1 as [|job pre (items & -> & Hjob) _ IH]; [done|].
  cbn [app scan_jobs py_get mbind prog_mbind prog_bind]. rewrite IH.
  destruct Hjob as [-> | Hst]; [done|].
  destruct (py_eq _ (JStr plan_job_name)); [|done].
  by rewrite Hst.
Qed.

Lemma scan_jobs_failed (job conclusion : json) (post : list json) :
  failed_plan_job job conclusion ->
  scan_jobs (job :: post) = Ret (Failure (py_show conclusion)).
Proof.
  intros (items & -> & Hname & Hst & <- & Hc).
  cbn [scan_jobs py_get mbind prog_mbind prog_bind].
  by rewrite Hname, Hst, Hc.
Qed.

(** Whenever the loop reports a failure, a completed plan job with a
    conclusion other than success is in the list. *)
Lemma scan_jobs_failure_inv (jobs : list json) (reason : string) :
  scan_jobs jobs = Ret (Failure reason) ->
  exists job conclusion,
    In job jobs /\ failed_plan_job job conclusion /\ reason = py_show conclusion.
Proof.
  induction jobs as [|job rest IH]; [done|].
  destruct job as [| | | | |items]; try done.
  cbn [scan_jobs py_get mbind prog_mbind prog_bind].
  destruct (py_eq _ (JStr plan_job_name)) eqn:Hname.
  - destruct (py_eq _ (JStr "completed")) eqn:Hst; cbn [andb].
    + destruct (py_eq _ (JStr "success")) eqn:Hc; cbn [negb]; [done|].
      intros [= <-]. exists (JObj items), (from_option id JNull (dict_lookup "conclusion" items)).
      split; [by left|]. split; [|done]. by exists items.
    + intros H. destruct (IH H) as (j & c & ? & ? & ?). exists j, c. split; [by right|done].
  - intros H. destruct (IH H) as (j & c & ? & ? & ?). exists j, c. split; [by right|done].
Qed.

Lemma scan_jobs_other (jobs : list json) :
  Forall other_job jobs -> scan_jobs jobs = Ret Pending.
Proof.
  induction 1 as [|job rest (items & -> & Hname) _ IH]; [done|].
  cbn [scan_jobs py_get mbind prog_mbind prog_bind]. by rewrite Hname.
Qed.

Section PlanJobLoop.
Context {W : Type} (h : handler W).
Variables (owner repo commit_sha github_token : string).
Variables (timeout poll_interval : Z).

Let evaluate := evaluate_plan_job owner repo commit_sha github_token.
Let loop := plan_job_loop owner repo commit_sha github_token timeout poll_interval.

Definition plan_job_failed_message (conclusion : string) : string :=
  "'Plan Sandbox' job failed with conclusion: " +:+ conclusion.

(** One pass of the [while], entered within the time budget. *)
Lemma plan_job_pass (fuel : nat) (start now : Z) (w w1 : W) :
  h _ Time w = (now, w1) ->
  now - start < timeout ->
  let ev := run h evaluate w1 in
  run h (loop (S fuel) start) w =
    match result ev with
    | Returned Success =>
        {| result := Returned (); trace := Ev Time now :: trace ev; final := final ev |}
    | Returned (Failure conclusion) =>
        {| result := Exited (plan_job_failed_message conclusion);
           trace := Ev Time now :: trace ev; final := final ev |}
    | Returned Pending =>
        let (u, w2) := h _ (Sleep poll_interval) (final ev) in
        let e' := run h (loop fuel start) w2 in
        {| result := result e';
           trace := Ev Time now :: trace ev ++ Ev (Sleep poll_interval) u :: trace e';
           final := final e' |}
    | Exited m =>
        {| result := Exited m; trace := Ev Time now :: trace ev; final := final ev |}
    | Raised x =>
        {| result := Raised x; trace := Ev Time now :: trace ev; final := final ev |}
    | Unfinished =>
        {| result := Unfinished; trace := Ev Time now :: trace ev; final := final ev |}
    end.
Proof.
  intros Htime Hnow ev. subst loop. cbn [plan_job_loop].
  run_step. rewrite Htime. run_step.
  apply Z.ltb_lt in Hnow. rewrite Hnow.
  change (prog_bind ?f (evaluate_plan_job ?a ?b ?c ?d))
    with (evaluate_plan_job a b c d ≫= f).
  rewrite run_bind. fold evaluate. fold ev. unfold then_run.
  destruct (result ev) as [[|conclusion|]|m|x|]; cbn [result trace final]; try done.
  - run_step. by rewrite app_nil_r.
  - run_step. by rewrite app_nil_r.
  - run_step. destruct (h _ (Sleep poll_interval) (final ev)) as [u w2].
    run_step. done.
Qed.
End PlanJobLoop.

(** ** Programs that ask nothing, programs that ask once *)

Lemma pure_run {A W} (h : handler W) (p : prog A) (w : W) :
  pure p -> trace (run h p w) = [] /\ final (run h p w) = w.
Proof. destruct p; cbn; try done. by intros [? _]. Qed.

Lemma pure_bind {A B} (p : prog A) (f : A -> prog B) :
  pure p -> (forall a, pure (f a)) -> pure (p ≫= f).
Proof. apply calls_only_bind. Qed.

Lemma pure_py_get (d : json) (key : string) (default : json) : pure (py_get d key default).
Proof. by destruct d. Qed.

Lemma pure_py_iter (v : json) : pure (py_iter v).
Proof. by destruct v. Qed.

Lemma pure_response_json (r : http_response) : pure (response_json r).
Proof. unfold response_json. by destruct (json_body r). Qed.

(** A request followed by pure processing leaves exactly the request in
    the trace, whatever comes back. *)
Lemma one_get_trace {A W} (h : handler W) url auth params
    (f : http_response -> prog A) (w : W) :
  (forall r, pure (f r)) ->
  trace (run h (requests_get url auth params ≫= f) w) =
    [Ev (HttpGet url auth params) (h _ (HttpGet url auth params) w).1].
Proof.
  intros Hf. unfold requests_get. run_step.
  destruct (h _ (HttpGet url auth params) w) as [[r|x] w']; run_step; [|done].
  by rewrite (proj1 (pure_run h (f r) w' (Hf r))).
Qed.

Lemma http_gets_app (t1 t2 : list event) : http_gets (t1 ++ t2) = (http_gets t1 + http_gets t2)%nat.
Proof. unfold http_gets. by rewrite List.filter_app, length_app. Qed.

Lemma sleeps_app (t1 t2 : list event) : sleeps (t1 ++ t2) = (sleeps t1 + sleeps t2)%nat.
Proof. unfold sleeps. by rewrite List.filter_app, length_app. Qed.

Lemma mutating_calls_app (t1 t2 : list event) :
  mutating_calls (t1 ++ t2) = (mutating_calls t1 + mutating_calls t2)%nat.
Proof. unfold mutating_calls. by rewrite List.filter_app, length_app. Qed.

(** ** The attempt loop of the diagnostics pollers *)

Section PollAttempts.
Context {W : Type} (h : handler W).
Variables (evaluate : prog bool) (interval : Z) (timeout_message : string).

Let poll := poll_attempts evaluate interval timeout_message.

(** One attempt. *)
Lemma poll_attempts_pass (remaining : nat) (w : W) :
  let ev := run h evaluate w in
  run h (poll (S remaining)) w =
    match result ev with
    | Returned true =>
        {| result := Returned (); trace := trace ev; final := final ev |}
    | Returned false =>
        match remaining with
        | O => {| result := Exited timeout_message; trace := trace ev; final := final ev |}
        | S _ =>
            let (u, w2) := h _ (Sleep interval) (final ev) in
            let e' := run h (poll remaining) w2 in
            {| result := result e';
               trace := trace ev ++ Ev (Sleep interval) u :: trace e';
               final := final e' |}
        end
    | Exited m => {| result := Exited m; trace := trace ev; final := final ev |}
    | Raised x => {| result := Raised x; trace := trace ev; final := final ev |}
    | Unfinished => {| result := Unfinished; trace := trace ev; final := final ev |}
    end.
Proof.
  intros ev. subst poll. cbn [poll_attempts].
  rewrite run_bind. fold ev. unfold then_run.
  destruct (result ev) as [[|]|m|x|]; cbn [result trace final]; try done.
  - run_step. by rewrite app_nil_r.
  - destruct remaining as [|r].
    + cbn [poll_attempts]. run_step. by rewrite app_nil_r.
    + run_step. by destruct (h _ (Sleep interval) (final ev)) as [u w2].
Qed.

(** What every attempt leaves in the trace: one request, no sleep, no
    mutating call. *)
Hypothesis one_request : forall w,
  http_gets (trace (run h evaluate w)) = 1%nat /\
  sleeps (trace (run h evaluate w)) = O /\
  mutating_calls (trace (run h evaluate w)) = O.

(** Never successful: [n] requests, [n - 1] sleeps, then the exit. *)
Lemma poll_attempts_exhausted (n : nat) (w : W) :
  (forall w', result (run h evaluate w') = Returned false) ->
  let e := run h (poll n) w in
  result e = Exited timeout_message /\
  http_gets (trace e) = n /\ sleeps (trace e) = Nat.pred n /\
  mutating_calls (trace e) = O /\
  Forall (λ ev, forall s u, ev = Ev (Sleep s) u -> s = interval) (trace e).
Proof.
  intros Hfalse. revert w. induction n as [|n IH]; intros w.
  { subst poll. cbn. split_and!; done. }
  cbn zeta. rewrite poll_attempts_pass. rewrite Hfalse.
  destruct (one_request w) as (Hg & Hs & Hm).
  assert (Forall (λ ev, forall s u, ev = Ev (Sleep s) u -> s = interval)
            (trace (run h evaluate w))) as Hnone.
  { revert Hs. unfold sleeps. generalize (trace (run h evaluate w)).
    induction l as [|[R c r] l IHl]; [done|]. cbn [filter].
    destruct c; cbn; intros H; try done;
      (constructor; [by intros s u [=]|by apply IHl]). }
  destruct n as [|n].
  - cbn [result trace]. split_and!; done.
  - destruct (h _ (Sleep interval) (final (run h evaluate w))) as [u w2].
    destruct (IH w2) as (Hr & Hg' & Hs' & Hm' & Hall).
    cbn [result trace]. split_and!.
    + done.
    + rewrite http_gets_app, Hg. change (http_gets (?e :: ?t)) with (http_gets t).
      by rewrite Hg'.
    + rewrite sleeps_app, Hs. change (sleeps (Ev (Sleep interval) u :: ?t)) with (S (sleeps t)).
      by rewrite Hs'.
    + rewrite mutating_calls_app, Hm.
      change (mutating_calls (Ev (Sleep interval) u :: ?t)) with (mutating_calls t).
      by rewrite Hm'.
    + apply Forall_app. split; [done|]. constructor; [|done].
      intros s u' Heq. by inversion Heq.
Qed.

(** Successful at the attempt after [k] failures: [k] sleeps, [k + 1]
    requests, and no sleep after the success. *)
Lemma poll_attempts_succeeds (k n : nat) (w : W) :
  (k < n)%nat ->
  succeeds_after h evaluate interval k w ->
  let e := run h (poll n) w in
  result e = Returned () /\
  http_gets (trace e) = S k /\ sleeps (trace e) = k /\
  mutating_calls (trace e) = O.
Proof.
  revert n w. induction k as [|k IH]; intros n w Hk Hsucc; cbn zeta.
  - destruct n as [|n]; [lia|]. rewrite poll_attempts_pass.
    cbn in Hsucc. rewrite Hsucc. cbn [result trace].
    destruct (one_request w) as (Hg & Hs & Hm). done.
  - destruct n as [|n]; [lia|]. rewrite poll_attempts_pass.
    cbn [succeeds_after] in Hsucc. destruct Hsucc as [Hf Hsucc]. rewrite Hf.
    destruct n as [|n]; [lia|].
    destruct (one_request w) as (Hg & Hs & Hm).
    destruct (h _ (Sleep interval) (final (run h evaluate w))) as [u w2].
    cbn [snd] in Hsucc.
    destruct (IH (S n) w2 ltac:(lia) Hsucc) as (Hr & Hg' & Hs' & Hm').
    cbn [result trace]. split_and!.
    + done.
    + rewrite http_gets_app, Hg. change (http_gets (?e :: ?t)) with (http_gets t).
      by rewrite Hg'.
    + rewrite sleeps_app, Hs. change (sleeps (Ev (Sleep interval) u :: ?t)) with (S (sleeps t)).
      by rewrite Hs'.
    + rewrite mutating_calls_app, Hm.
      change (mutating_calls (Ev (Sleep interval) u :: ?t)) with (mutating_calls t).
      by rewrite Hm'.
Qed.
End PollAttempts.

(** ** [poll_diagnostics] *)

Lemma pure_all_checks_success (checks : list json) : pure (all_checks_success checks).
Proof.
  induction checks as [|c rest IH]; [done|].
  cbn [all_checks_success]. apply pure_bind; [apply pure_py_get|].
  intros status. by destruct (py_eq status status_success).
Qed.

Lemma pure_scan_sources (diagnostics : list json) : pure (scan_sources diagnostics).
Proof.
  induction diagnostics as [|d rest IH]; [done|].
  cbn [scan_sources]. apply pure_bind; [apply pure_py_get|]. intros source.
  destruct (_ || _); [|done].
  apply pure_bind; [apply pure_py_get|]. intros checks.
  apply pure_bind; [apply pure_py_iter|]. intros cs.
  apply pure_bind; [apply pure_all_checks_success|]. by intros [|].
Qed.

Lemma evaluate_diagnostics_trace {W} (h : handler W) (api_token : string) (w : W) :
  trace (run h (evaluate_diagnostics api_token) w) =
    [Ev (HttpGet diagnostics_url (resourcely_auth api_token) [])
        (h _ (HttpGet diagnostics_url (resourcely_auth api_token) []) w).1].
Proof.
  unfold evaluate_diagnostics. apply one_get_trace. intros r.
  destruct (negb _); [done|].
  apply pure_bind; [apply pure_response_json|]. intros data.
  apply pure_bind; [apply pure_py_get|]. intros ds.
  apply pure_bind; [apply pure_py_iter|]. intros items.
  apply pure_scan_sources.
Qed.

Lemma evaluate_diagnostics_one_request {W} (h : handler W) (api_token : string) (w : W) :
  http_gets (trace (run h (evaluate_diagnostics api_token) w)) = 1%nat /\
  sleeps (trace (run h (evaluate_diagnostics api_token) w)) = O /\
  mutating_calls (trace (run h (evaluate_diagnostics api_token) w)) = O.
Proof. by rewrite evaluate_diagnostics_trace. Qed.

Lemma all_checks_success_dicts (checks : list json) :
  Forall is_dict checks ->
  all_checks_success checks = Ret (forallb check_succeeded checks).
Proof.
  induction 1 as [|c rest [items ->] _ IH]; [done|].
  cbn [all_checks_success forallb check_succeeded py_get mbind prog_mbind prog_bind].
  rewrite IH. by destruct (py_eq _ status_success).
Qed.

Lemma scan_sources_shape (diagnostics : list json) :
  Forall diagnostic_shape diagnostics ->
  scan_sources diagnostics = Ret (existsb vcs_diagnostic_ok diagnostics).
Proof.
  induction 1 as [|d rest (items & checks & -> & Hchecks & Hdicts) _ IH]; [done|].
  cbn [scan_sources existsb vcs_diagnostic_ok py_get mbind prog_mbind prog_bind].
  rewrite IH, Hchecks.
  destruct (_ || _); [|done].
  cbn [py_iter mbind prog_mbind prog_bind andb].
  rewrite (all_checks_success_dicts _ Hdicts).
  cbn [mbind prog_mbind prog_bind]. by destruct (forallb check_succeeded checks).
Qed.





(** X3. One look of [poll_diagnostics] at a well-shaped answer succeeds
    exactly when some diagnostic whose source is GitLab or GitHub has all
    its listed checks at [DIAGNOSTIC_STATUS_SUCCESS]; other sources are
    passed over, a failing GitLab or GitHub diagnostic does not end the
    search, and one that lists no check at all counts as a success. *)
Theorem evaluate_diagnostics_accepts {W} (h : handler W) (api_token : string)
    (w w' : W) (response : http_response) (body : list (string * json))
    (diagnostics : list json) :
  h _ (HttpGet diagnostics_url (resourcely_auth api_token) []) w = (Responded response, w') ->
  status_code response = 200 ->
  json_body response = Some (JObj body) ->
  from_option id (JArr []) (dict_lookup "diagnostics" body) = JArr diagnostics ->
  Forall diagnostic_shape diagnostics ->
  run h (evaluate_diagnostics api_token) w =
    {| result := Returned (existsb vcs_diagnostic_ok diagnostics);
       trace := [Ev (HttpGet diagnostics_url (resourcely_auth api_token) [])
                    (Responded response)];
       final := w' |}.
Proof.
  intros Hget Hstatus Hbody Hdiag Hshape.
  unfold evaluate_diagnostics, requests_get, response_json. run_step.
  fold diagnostics_url. rewrite Hget. run_step. rewrite Hstatus, Hbody.
  cbn [Z.eqb Pos.eqb negb]. run_step. cbn [py_get]. run_step. rewrite Hdiag.
  cbn [py_iter]. run_step. rewrite (scan_sources_shape _ Hshape). done.
Qed.

Lemma evaluate_diagnostics_accepts_witness :
  result (run (always_answers (ok_response github_no_checks_body))
            (evaluate_diagnostics "token") ()) = Returned true /\
  result (run (always_answers (ok_response github_ok_body))
            (evaluate_diagnostics "token") ()) = Returned true /\
  result (run (always_answers (ok_response github_pending_body))
            (evaluate_diagnostics "token") ()) = Returned false.
Proof.
  split_and!.
  - rewrite (evaluate_diagnostics_accepts (always_answers (ok_response github_no_checks_body))
               "token" () () _ _ [JObj [("source", JStr "DIAGNOSTIC_SOURCE_GITHUB")]]
               eq_refl eq_refl eq_refl eq_refl); [reflexivity|].
    repeat constructor. eexists _, []. split_and!; [reflexivity..|constructor].
  - rewrite (evaluate_diagnostics_accepts (always_answers (ok_response github_ok_body))
               "token" () () _ _ _ eq_refl eq_refl eq_refl eq_refl); [reflexivity|].
    repeat constructor.
    + eexists _, _. split_and!; [reflexivity..|]. repeat constructor. by eexists.
    + eexists _, _. split_and!; [reflexivity..|]. repeat constructor. by eexists.
  - rewrite (evaluate_diagnostics_accepts (always_answers (ok_response github_pending_body))
               "token" () () _ _ _ eq_refl eq_refl eq_refl eq_refl); [reflexivity|].
    repeat constructor.
    eexists _, _. split_and!; [reflexivity..|]. repeat constructor. by eexists.
Defined.

(** ** [try ... except Exception] *)

Lemma run_except_exception {A W} (h : handler W) (msg : string) (p : prog A) (w : W) :
  let e := run h p w in
  run h (except_exception msg p) w =
    {| result := match result e with
                 | Raised x => Exited (msg +:+ " " +:+ x)
                 | o => o
                 end;
       trace := trace e;
       final := final e |}.
Proof.
  revert w. induction p as [a|m|x| |R c k IH]; intros w; cbn; try done.
  destruct (h R c w) as [r w']. cbn. by rewrite IH.
Qed.

Lemma except_exception_never_raises {A W} (h : handler W) (msg : string) (p : prog A)
    (w : W) (x : string) :
  result (run h (except_exception msg p) w) <> Raised x.
Proof. rewrite run_except_exception. cbn. by destruct (result (run h p w)). Qed.

Lemma except_exception_returned {A W} (h : handler W) (msg : string) (p : prog A)
    (w : W) (a : A) :
  result (run h (except_exception msg p) w) = Returned a ->
  result (run h p w) = Returned a /\
  trace (run h (except_exception msg p) w) = trace (run h p w) /\
  final (run h (except_exception msg p) w) = final (run h p w).
Proof. rewrite run_except_exception. cbn. by destruct (result (run h p w)). Qed.

(** X4. [verify_resourcely_api_admin_token], [fetch_ci_token],
    [get_tf_config_path] and [trigger_evaluation_scan] never die of an
    uncaught exception: whatever the remote side does, they return or
    end the run through [sys.exit(1)].  [check_push_permission] has no
    such guard: an answer that is not JSON kills the script with a
    traceback. *)
Theorem guarded_requests_never_raise {W} (h : handler W) (w : W)
    (token repository : string) (path : json) (x : string) :
  result (run h (verify_resourcely_api_admin_token token) w) <> Raised x /\
  result (run h (fetch_ci_token token) w) <> Raised x /\
  result (run h (get_tf_config_path repository token) w) <> Raised x /\
  result (run h (trigger_evaluation_scan repository path token) w) <> Raised x /\
  result (run (always_answers
                 (Responded {| status_code := 200; json_body := None; text := "<html>" |}))
            (check_push_permission "owner" repository token) ())
    = Raised "JSONDecodeError".
Proof.
  split_and!; try apply except_exception_never_raises. reflexivity.
Qed.

(** ** The GitHub and Resourcely checks *)

Lemma py_get_returned {W} (h : handler W) (d : json) (key : string) (default v : json) (w : W) :
  result (run h (py_get d key default) w) = Returned v ->
  exists items, d = JObj items /\ v = from_option id default (dict_lookup key items).
Proof. destruct d; cbn; try done. intros [= <-]. by eexists. Qed.

(** X5. [check_push_permission] lets the script go on only when the
    repository endpoint answered 200 with a JSON object whose
    [permissions.push] is truthy; it makes that one request and nothing
    else. *)
Theorem check_push_permission_gate {W} (h : handler W) (owner repo token : string) (w : W) :
  let url := "https://api.github.com/repos/" +:+ owner +:+ "/" +:+ repo in
  let e := run h (check_push_permission owner repo token) w in
  result e = Returned () ->
  exists response body permissions,
    trace e = [Ev (HttpGet url ("token " +:+ token) []) (Responded response)] /\
    status_code response = 200 /\
    json_body response = Some (JObj body) /\
    from_option id (JObj []) (dict_lookup "permissions" body) = JObj permissions /\
    py_truthy (from_option id (JBool false) (dict_lookup "push" permissions)) = true.
Proof.
  intros url e. subst e. unfold check_push_permission, requests_get, response_json.
  fold url. run_step.
  destruct (h _ (HttpGet url ("token " +:+ token) []) w) as [[response|x] w']; run_step;
    [|done].
  destruct (status_code response =? 200) eqn:Hstatus; cbn [negb]; [|done].
  apply Z.eqb_eq in Hstatus.
  destruct (json_body response) as [data|] eqn:Hbody; run_step; [|done].
  destruct data as [| | | | |body]; cbn [py_get]; run_step; try done.
  destruct (from_option id (JObj []) (dict_lookup "permissions" body))
    as [| | | | |permissions] eqn:Hperm; cbn [py_get]; run_step; try done.
  destruct (py_truthy _) eqn:Hpush; cbn [negb]; run_step; [|done].
  intros _. by exists response, body, permissions.
Qed.

Lemma check_push_permission_gate_witness :
  exists response body permissions,
    trace (run (always_answers (ok_response push_allowed_body))
             (check_push_permission "owner" "repo" "t") ()) =
      [Ev (HttpGet "https://api.github.com/repos/owner/repo" "token t" [])
          (Responded response)] /\
    status_code response = 200 /\
    json_body response = Some (JObj body) /\
    from_option id (JObj []) (dict_lookup "permissions" body) = JObj permissions /\
    py_truthy (from_option id (JBool false) (dict_lookup "push" permissions)) = true.
Proof.
  exact (check_push_permission_gate (always_answers (ok_response push_allowed_body))
           "owner" "repo" "t" () eq_refl).
Defined.

(** X6. [verify_resourcely_api_admin_token] lets the script go on only
    when the current-user endpoint answered 200 with a JSON object whose
    [roles] contain ["admin"], after exactly one request. *)
Theorem verify_resourcely_api_admin_token_gate {W} (h : handler W) (token : string) (w : W) :
  let e := run h (verify_resourcely_api_admin_token token) w in
  result e = Returned () ->
  exists response body,
    trace e = [Ev (HttpGet current_user_url (resourcely_auth token) [])
                  (Responded response)] /\
    status_code response = 200 /\
    json_body response = Some (JObj body) /\
    py_str_in "admin" (from_option id (JArr []) (dict_lookup "roles" body)) = Ret true.
Proof.
  intros e. subst e. unfold verify_resourcely_api_admin_token. intros He.
  apply except_exception_returned in He as (He & -> & _). revert He.
  unfold requests_get, response_json. run_step.
  destruct (h _ (HttpGet current_user_url (resourcely_auth token) []) w)
    as [[response|x] w']; run_step; [|done].
  destruct (status_code response =? 200) eqn:Hstatus; cbn [negb]; [|done].
  apply Z.eqb_eq in Hstatus.
  destruct (json_body response) as [data|] eqn:Hbody; run_step; [|done].
  destruct data as [| | | | |body]; cbn [py_get]; run_step; try done.
  destruct (py_str_in "admin" _) as [[|]| | | |R c k] eqn:Hin; run_step; try done.
  - intros _. by exists response, body.
  - exfalso. clear -Hin.
    by destruct (from_option id (JArr []) (dict_lookup "roles" body)).
Qed.

Lemma verify_resourcely_api_admin_token_gate_witness :
  exists response body,
    trace (run (always_answers (ok_response admin_user_body))
             (verify_resourcely_api_admin_token "t") ()) =
      [Ev (HttpGet current_user_url (resourcely_auth "t") []) (Responded response)] /\
    status_code response = 200 /\
    json_body response = Some (JObj body) /\
    py_str_in "admin" (from_option id (JArr []) (dict_lookup "roles" body)) = Ret true.
Proof.
  exact (verify_resourcely_api_admin_token_gate (always_answers (ok_response admin_user_body))
           "t" () eq_refl).
Defined.

(** X7. The token [fetch_ci_token] returns is the [access_token] of a
    200 or 201 answer to its single POST, and it is never empty or
    missing. *)
Theorem fetch_ci_token_gate {W} (h : handler W) (original_token : string) (w : W)
    (access_token : json) :
  let e := run h (fetch_ci_token original_token) w in
  result e = Returned access_token ->
  exists response body,
    trace e = [Ev (HttpPost manage_tokens_url (resourcely_auth original_token)
                     ci_token_payload) (Responded response)] /\
    (status_code response = 200 \/ status_code response = 201) /\
    json_body response = Some (JObj body) /\
    dict_lookup "access_token" body = Some access_token /\
    py_truthy access_token = true.
Proof.
  intros e. subst e. unfold fetch_ci_token. intros He.
  apply except_exception_returned in He as (He & -> & _). revert He.
  unfold requests_post, response_json. run_step.
  destruct (h _ (HttpPost manage_tokens_url (resourcely_auth original_token)
                   ci_token_payload) w) as [[response|x] w']; run_step; [|done].
  destruct ((status_code response =? 200) || (status_code response =? 201)) eqn:Hstatus;
    cbn [negb]; [|done].
  apply orb_true_iff in Hstatus. rewrite !Z.eqb_eq in Hstatus.
  destruct (json_body response) as [data|] eqn:Hbody; run_step; [|done].
  destruct data as [| | | | |body]; cbn [py_get]; run_step; try done.
  destruct (dict_lookup "access_token" body) as [t|] eqn:Hlookup; cbn [from_option id].
  - destruct (py_truthy t) eqn:Htruthy; cbn [negb]; run_step; [|done].
    intros [= <-]. by exists response, body.
  - done.
Qed.

Lemma fetch_ci_token_gate_witness :
  exists response body,
    trace (run (always_answers (ok_response ci_token_body)) (fetch_ci_token "t") ()) =
      [Ev (HttpPost manage_tokens_url (resourcely_auth "t") ci_token_payload)
          (Responded response)] /\
    (status_code response = 200 \/ status_code response = 201) /\
    json_body response = Some (JObj body) /\
    dict_lookup "access_token" body = Some (JStr "ci-token") /\
    py_truthy (JStr "ci-token") = true.
Proof.
  exact (fetch_ci_token_gate (always_answers (ok_response ci_token_body)) "t" ()
           (JStr "ci-token") eq_refl).
Defined.

Lemma scan_git_servers_true (git_servers : list json) :
  scan_git_servers git_servers = Ret true ->
  exists server items patterns,
    In server git_servers /\ server = JObj items /\
    from_option id (JArr []) (dict_lookup "repo_glob_patterns" items) = patterns /\
    py_truthy patterns = true.
Proof.
  induction git_servers as [|server rest IH]; [done|].
  destruct server as [| | | | |items]; try done.
  cbn [scan_git_servers py_get mbind prog_mbind prog_bind].
  destruct (py_truthy _) eqn:Htruthy.
  - intros _. eexists (JObj items), items, _. split_and!; [by left|done..].
  - intros H. destruct (IH H) as (s & i & p & Hin & ?). exists s, i, p.
    split; [by right|done].
Qed.

(** X8. [check_change_management_setup] lets the script go on only when
    the git-servers endpoint answered 200 and some listed server has a
    non-empty [repo_glob_patterns]; servers with empty patterns before it
    are passed over. *)
Theorem check_change_management_setup_gate {W} (h : handler W) (token : string) (w : W) :
  let e := run h (check_change_management_setup token) w in
  result e = Returned () ->
  exists response body servers server items,
    trace e = [Ev (HttpGet git_servers_url (resourcely_auth token) []) (Responded response)] /\
    status_code response = 200 /\
    json_body response = Some (JObj body) /\
    py_iter (from_option id (JArr []) (dict_lookup "git_servers" body)) = Ret servers /\
    In server servers /\ server = JObj items /\
    py_truthy (from_option id (JArr []) (dict_lookup "repo_glob_patterns" items)) = true.
Proof.
  intros e. subst e. unfold check_change_management_setup, response_json. run_step.
  destruct (h _ (HttpGet git_servers_url (resourcely_auth token) []) w)
    as [[response|x] w']; run_step; [|done].
  destruct (status_code response =? 200) eqn:Hstatus; cbn [negb]; [|done].
  apply Z.eqb_eq in Hstatus.
  destruct (json_body response) as [data|] eqn:Hbody; run_step; [|done].
  destruct data as [| | | | |body]; cbn [py_get]; run_step; try done.
  destruct (py_iter _) as [servers| | | |] eqn:Hiter; run_step; try done.
  2:{ by destruct (from_option id (JArr []) (dict_lookup "git_servers" body)). }
  destruct (scan_git_servers servers) as [[|]| | | |] eqn:Hscan; run_step; try done.
  2:{ exfalso. clear -Hscan. induction servers as [|s rest IH]; [done|].
      destruct s; try done. cbn [scan_git_servers py_get mbind prog_mbind prog_bind] in Hscan.
      destruct (py_truthy _); [by destruct (py_sized _)|by apply IH]. }
  intros _. apply scan_git_servers_true in Hscan as (server & items & p & Hin & -> & <- & Ht).
  by exists response, body, servers, (JObj items), items.
Qed.

Lemma check_change_management_setup_gate_witness :
  exists response body servers server items,
    trace (run (always_answers (ok_response git_servers_body))
             (check_change_management_setup "t") ()) =
      [Ev (HttpGet git_servers_url (resourcely_auth "t") []) (Responded response)] /\
    status_code response = 200 /\
    json_body response = Some (JObj body) /\
    py_iter (from_option id (JArr []) (dict_lookup "git_servers" body)) = Ret servers /\
    In server servers /\ server = JObj items /\
    py_truthy (from_option id (JArr []) (dict_lookup "repo_glob_patterns" items)) = true.
Proof.
  exact (check_change_management_setup_gate (always_answers (ok_response git_servers_body))
           "t" () eq_refl).
Defined.

(** ** Configuration lookup and scan *)

Lemma get_tf_config_path_returned {W} (h : handler W) (repository token : string) (w : W)
    (path : json) :
  let e := run h (get_tf_config_path repository token) w in
  result e = Returned path ->
  exists response body first config,
    trace e = [Ev (HttpGet terraform_config_url (resourcely_auth token)
                     [("repo_url", "https://github.com/" +:+ repository)])
                  (Responded response)] /\
    status_code response = 200 /\
    json_body response = Some (JObj body) /\
    py_first (from_option id (JArr []) (dict_lookup "terraform_configs" body))
      = Ret (JObj first) /\
    from_option id (JObj []) (dict_lookup "terraform_config" first) = JObj config /\
    dict_lookup "path" config = Some path /\
    py_truthy path = true.
Proof.
  intros e. subst e. unfold get_tf_config_path. intros He.
  apply except_exception_returned in He as (He & -> & _). revert He.
  unfold requests_get, response_json. run_step.
  destruct (h _ (HttpGet terraform_config_url _ _) w) as [[response|x] w']; run_step; [|done].
  destruct (status_code response =? 200) eqn:Hstatus; cbn [negb]; [|done].
  apply Z.eqb_eq in Hstatus.
  destruct (json_body response) as [data|] eqn:Hbody; run_step; [|done].
  destruct data as [| | | | |body]; cbn [py_get]; run_step; try done.
  destruct (py_truthy _) eqn:Hconfigs; cbn [negb]; [|done].
  destruct (py_first _) as [first| | | |R c k] eqn:Hfirst; run_step; try done.
  2:{ exfalso. clear -Hfirst.
      by destruct (from_option id (JArr []) (dict_lookup "terraform_configs" body))
        as [| | |[]|[]|]. }
  destruct first as [| | | | |first]; cbn [py_get]; run_step; try done.
  destruct (from_option id (JObj []) (dict_lookup "terraform_config" first))
    as [| | | | |config] eqn:Hconfig; cbn [py_get]; run_step; try done.
  destruct (dict_lookup "path" config) as [p|] eqn:Hpath; cbn [from_option id]; [|done].
  destruct (py_truthy p) eqn:Htruthy; cbn [negb]; run_step; [|done].
  intros [= <-]. by exists response, body, first, config.
Qed.

Lemma trigger_evaluation_scan_returned {W} (h : handler W) (repository token : string)
    (path data : json) (w : W) :
  let e := run h (trigger_evaluation_scan repository path token) w in
  result e = Returned data ->
  exists response items,
    trace e = [Ev (HttpPost evaluations_url (resourcely_auth token)
                     (JObj [("repo_url", JStr ("https://github.com/" +:+ repository));
                            ("tf_config_root_path", path)]))
                  (Responded response)] /\
    (status_code response = 200 \/ status_code response = 201) /\
    json_body response = Some data /\ data = JObj items /\
    py_eq (from_option id JNull (dict_lookup "status" items)) (JStr "ASYNC_JOB_QUEUED") = true.
Proof.
  intros e. subst e. unfold trigger_evaluation_scan. intros He.
  apply except_exception_returned in He as (He & -> & _). revert He.
  unfold requests_post, response_json. run_step.
  destruct (h _ (HttpPost evaluations_url _ _) w) as [[response|x] w']; run_step; [|done].
  destruct ((status_code response =? 200) || (status_code response =? 201)) eqn:Hstatus;
    cbn [negb]; [|done].
  apply orb_true_iff in Hstatus. rewrite !Z.eqb_eq in Hstatus.
  destruct (json_body response) as [d|] eqn:Hbody; run_step; [|done].
  destruct d as [| | | | |items]; cbn [py_get]; run_step; try done.
  destruct (py_eq _ (JStr "ASYNC_JOB_QUEUED")) eqn:Hq; cbn [negb]; run_step; [|done].
  intros [= <-]. by exists response, items.
Qed.

Lemma get_tf_config_path_no_post {W} (h : handler W) (repository token : string) (w : W) :
  mutating_calls (trace (run h (get_tf_config_path repository token) w)) = O.
Proof.
  unfold get_tf_config_path. rewrite run_except_exception. cbn [trace].
  rewrite one_get_trace; [done|]. intros r.
  destruct (negb _); [done|].
  apply pure_bind; [apply pure_response_json|]. intros data.
  apply pure_bind; [apply pure_py_get|]. intros configs.
  destruct (negb _); [done|].
  apply pure_bind; [by destruct configs as [| | |[]|[]|]|]. intros first.
  apply pure_bind; [apply pure_py_get|]. intros config.
  apply pure_bind; [apply pure_py_get|]. intros path.
  by destruct (negb _).
Qed.

(** X9. Lines 2024-2025 of [main]: the evaluation scan is requested for
    the path of the first Terraform configuration that the configuration
    endpoint lists for the repository, and the data handed back carry
    the status [ASYNC_JOB_QUEUED]; when the lookup does not return a
    path, no scan is requested. *)
Theorem locate_and_scan_spec {W} (h : handler W) (repository token : string) (w : W) :
  let repo_url := "https://github.com/" +:+ repository in
  let e := run h (locate_and_scan repository token) w in
  (forall data, result e = Returned data ->
     exists r1 r2 body first config path items,
       trace e =
         [ Ev (HttpGet terraform_config_url (resourcely_auth token) [("repo_url", repo_url)])
              (Responded r1);
           Ev (HttpPost evaluations_url (resourcely_auth token)
                 (JObj [("repo_url", JStr repo_url); ("tf_config_root_path", path)]))
              (Responded r2) ] /\
       json_body r1 = Some (JObj body) /\
       py_first (from_option id (JArr []) (dict_lookup "terraform_configs" body))
         = Ret (JObj first) /\
       from_option id (JObj []) (dict_lookup "terraform_config" first) = JObj config /\
       dict_lookup "path" config = Some path /\ py_truthy path = true /\
       data = JObj items /\
       py_eq (from_option id JNull (dict_lookup "status" items)) (JStr "ASYNC_JOB_QUEUED")
       = true) /\
  ((forall path, result (run h (get_tf_config_path repository token) w) <> Returned path) ->
   mutating_calls (trace e) = O).
Proof.
  intros repo_url e. subst e. unfold locate_and_scan. rewrite run_bind. split.
  - intros data He.
    apply then_run_returned in He as (path & Hpath & Hscan & -> & _).
    apply get_tf_config_path_returned in Hpath
      as (r1 & body & first & config & -> & _ & Hbody & Hfirst & Hconfig & Hp & Ht).
    apply trigger_evaluation_scan_returned in Hscan
      as (r2 & items & -> & _ & _ & -> & Hq).
    by exists r1, r2, body, first, config, path, items.
  - intros Hnone. unfold then_run.
    pose proof (get_tf_config_path_no_post h repository token w) as Hno.
    destruct (result (run h (get_tf_config_path repository token) w)) as [p| | |] eqn:Hr;
      cbn [trace]; try done.
    by destruct (Hnone p).
Qed.

Lemma locate_and_scan_spec_witness :
  let w := {| script := [ok_response terraform_config_body; ok_response scan_queued_body];
              clock := 0 |} in
  exists r1 r2 body first config path items,
    trace (run poll_sim (locate_and_scan "owner/repo" "t") w) =
      [ Ev (HttpGet terraform_config_url (resourcely_auth "t")
              [("repo_url", "https://github.com/owner/repo")]) (Responded r1);
        Ev (HttpPost evaluations_url (resourcely_auth "t")
              (JObj [("repo_url", JStr "https://github.com/owner/repo");
                     ("tf_config_root_path", path)])) (Responded r2) ] /\
    json_body r1 = Some (JObj body) /\
    py_first (from_option id (JArr []) (dict_lookup "terraform_configs" body))
      = Ret (JObj first) /\
    from_option id (JObj []) (dict_lookup "terraform_config" first) = JObj config /\
    dict_lookup "path" config = Some path /\ py_truthy path = true /\
    scan_queued_body = JObj items /\
    py_eq (from_option id JNull (dict_lookup "status" items)) (JStr "ASYNC_JOB_QUEUED") = true.
Proof.
  intros w.
  exact (proj1 (locate_and_scan_spec poll_sim "owner/repo" "t" w) scan_queued_body eq_refl).
Defined.

(** ** [create_oidc_role] *)

Lemma get_role_calls_app (t1 t2 : list event) :
  get_role_calls (t1 ++ t2) = (get_role_calls t1 + get_role_calls t2)%nat.
Proof. unfold get_role_calls. by rewrite List.filter_app, length_app. Qed.

Lemma await_role_bounds {W} (h : handler W) (role : string) (attempts : nat) (w : W) :
  let e := run h (await_role role attempts) w in
  (sleeps (trace e) <= attempts)%nat /\
  (get_role_calls (trace e) <= attempts)%nat /\
  mutating_calls (trace e) = O /\
  sleeps_last 3 (trace e).
Proof.
  revert w. induction attempts as [|n IH]; intros w.
  { cbn. split_and!; [lia..|done|constructor]. }
  cbn [await_role]. run_step.
  destruct (h _ (GetRole role) w) as [[arn|code|x] w1]; run_step.
  - cbn. split_and!; [lia..|done|]. repeat constructor. by intros s u [=].
  - destruct (String.eqb code "NoSuchEntity"); run_step.
    + destruct (h _ (Sleep 3) w1) as [u w2]. run_step.
      destruct (IH w2) as (Hs & Hg & Hm & Hl).
      change (sleeps (Ev (GetRole role) ?r :: Ev (Sleep 3) u :: ?t)) with (S (sleeps t)).
      change (get_role_calls (Ev (GetRole role) ?r :: Ev (Sleep 3) u :: ?t))
        with (S (get_role_calls t)).
      change (mutating_calls (Ev (GetRole role) ?r :: Ev (Sleep 3) u :: ?t))
        with (mutating_calls t).
      split_and!; [lia..|done|].
      constructor; [by intros s u' [=]|]. constructor; [|done].
      intros s u' Heq. by inversion Heq.
    + cbn. split_and!; [lia..|done|]. repeat constructor. by intros s u [=].
  - cbn. split_and!; [lia..|done|]. repeat constructor. by intros s u [=].
Qed.

(** X10. Whatever IAM answers, [create_oidc_role] makes at most one
    mutating call, sleeps at most ten times, three seconds each, asks
    for the role at most eleven times, and returns nothing but
    ["ResourcelyGithubActionsOIDC"].  When the role already exists it
    changes nothing: the trust policy of an existing role is left as it
    is, whatever provider and repository are asked for. *)
Theorem create_oidc_role_bounded {W} (h : handler W) (provider_arn repository : string)
    (w : W) :
  let e := run h (create_oidc_role provider_arn repository) w in
  (mutating_calls (trace e) <= 1)%nat /\
  (sleeps (trace e) <= 10)%nat /\ sleeps_last 3 (trace e) /\
  (get_role_calls (trace e) <= 11)%nat /\
  (forall name, result e = Returned name -> name = "ResourcelyGithubActionsOIDC") /\
  (forall arn, (h _ (GetRole oidc_role_name) w).1 = AwsOk arn ->
     result e = Returned oidc_role_name /\
     trace e = [Ev (GetRole oidc_role_name) (AwsOk arn)]).
Proof.
  unfold create_oidc_role. run_step.
  destruct (h _ (GetRole oidc_role_name) w) as [[arn|code|x] w1]; run_step.
  - cbn. split_and!; [lia| lia | | lia | by intros ? [= <-] | by intros ? [= <-]].
    repeat constructor. by intros s u [=].
  - destruct (String.eqb code "NoSuchEntity"); run_step.
    + destruct (h _ (CreateRole _ _ _) w1) as [[arn|code'|x] w2]; run_step.
      * change (prog_bind ?f (await_role ?r ?n)) with (await_role r n ≫= f).
        rewrite run_bind.
        destruct (await_role_bounds h oidc_role_name 10 w2) as (Hs & Hg & Hm & Hl).
        set (ea := run h (await_role oidc_role_name 10) w2) in *.
        assert (trace (then_run h ea (λ _ : (), Ret oidc_role_name)) = trace ea) as Ht.
        { unfold then_run. destruct (result ea); cbn [trace]; [|done..].
          by rewrite app_nil_r. }
        assert (forall name, result (then_run h ea (λ _ : (), Ret oidc_role_name))
                             = Returned name -> name = oidc_role_name) as Hn.
        { unfold then_run. destruct (result ea); cbn; try done. by intros ? [= <-]. }
        cbn [result trace]. rewrite Ht.
        change (mutating_calls (Ev (GetRole ?a) ?r :: Ev (CreateRole ?b ?c ?d) ?r' :: ?t))
          with (S (mutating_calls t)).
        change (sleeps (Ev (GetRole ?a) ?r :: Ev (CreateRole ?b ?c ?d) ?r' :: ?t))
          with (sleeps t).
        change (get_role_calls (Ev (GetRole ?a) ?r :: Ev (CreateRole ?b ?c ?d) ?r' :: ?t))
          with (S (get_role_calls t)).
        split_and!; [lia|lia| |lia|exact Hn|done].
        constructor; [by intros s u [=]|]. constructor; [by intros s u [=]|done].
      * cbn. split_and!; [lia|lia| |lia|done|done].
        repeat constructor; by intros s u [=].
      * cbn. split_and!; [lia|lia| |lia|done|done].
        repeat constructor; by intros s u [=].
    + cbn. split_and!; [lia|lia| |lia|done|done]. repeat constructor. by intros s u [=].
  - cbn. split_and!; [lia|lia| |lia|done|done]. repeat constructor. by intros s u [=].
Qed.

Lemma await_role_never_visible {W} (h : handler W) (role : string) (attempts : nat) (w : W) :
  (forall w', (h _ (GetRole role) w').1 = ClientError "NoSuchEntity") ->
  let e := run h (await_role role attempts) w in
  result e = Exited ("Timeout waiting for IAM role '" +:+ role +:+ "' to become available.") /\
  sleeps (trace e) = attempts /\ get_role_calls (trace e) = attempts.
Proof.
  intros Hnone. revert w. induction attempts as [|n IH]; intros w; [done|].
  cbn [await_role]. run_step. pose proof (Hnone w) as Hw.
  destruct (h _ (GetRole role) w) as [r w1]. cbn [fst] in Hw. subst r. run_step.
  change (String.eqb "NoSuchEntity" "NoSuchEntity") with true. cbv iota. run_step.
  destruct (h _ (Sleep 3) w1) as [u w2]. run_step.
  destruct (IH w2) as (Hr & Hs & Hg).
  change (sleeps (Ev (GetRole role) ?r :: Ev (Sleep 3) u :: ?t)) with (S (sleeps t)).
  change (get_role_calls (Ev (GetRole role) ?r :: Ev (Sleep 3) u :: ?t))
    with (S (get_role_calls t)).
  by rewrite Hr, Hs, Hg.
Qed.

(** X11. If the role that [create_oidc_role] has just created never
    shows up, the function gives up after ten looks and ten sleeps of
    three seconds, and ends the run with the timeout message; the role
    stays created. *)
Theorem create_oidc_role_times_out {W} (h : handler W) (provider_arn repository : string)
    (w w1 : W) (role_arn : string) :
  (forall w', (h _ (GetRole oidc_role_name) w').1 = ClientError "NoSuchEntity") ->
  h _ (CreateRole oidc_role_name (oidc_trust_policy provider_arn repository)
         "Role for GitHub Actions OIDC") (h _ (GetRole oidc_role_name) w).2
    = (AwsOk role_arn, w1) ->
  let e := run h (create_oidc_role provider_arn repository) w in
  result e = Exited "Timeout waiting for IAM role 'ResourcelyGithubActionsOIDC' to become available." /\
  sleeps (trace e) = 10%nat /\ get_role_calls (trace e) = 11%nat /\
  mutating_calls (trace e) = 1%nat.
Proof.
  intros Hnone Hcreate. unfold create_oidc_role. run_step.
  pose proof (Hnone w) as Hw.
  destruct (h _ (GetRole oidc_role_name) w) as [r w0]. cbn [fst snd] in *. subst r.
  run_step. change (String.eqb "NoSuchEntity" "NoSuchEntity") with true. cbv iota.
  run_step. rewrite Hcreate. run_step.
  change (prog_bind ?f (await_role ?r ?n)) with (await_role r n ≫= f).
  rewrite run_bind.
  destruct (await_role_never_visible h oidc_role_name 10 w1 Hnone) as (Hr & Hs & Hg).
  destruct (await_role_bounds h oidc_role_name 10 w1) as (_ & _ & Hm & _).
  unfold then_run. rewrite Hr. cbn [result trace].
  change (mutating_calls (Ev (GetRole ?a) ?r :: Ev (CreateRole ?b ?c ?d) ?r' :: ?t))
    with (S (mutating_calls t)).
  change (sleeps (Ev (GetRole ?a) ?r :: Ev (CreateRole ?b ?c ?d) ?r' :: ?t)) with (sleeps t).
  change (get_role_calls (Ev (GetRole ?a) ?r :: Ev (CreateRole ?b ?c ?d) ?r' :: ?t))
    with (S (get_role_calls t)).
  by rewrite Hs, Hg, Hm.
Qed.

Lemma create_oidc_role_times_out_witness :
  let e := run invisible_roles (create_oidc_role "arn:provider" "owner/repo") () in
  result e = Exited "Timeout waiting for IAM role 'ResourcelyGithubActionsOIDC' to become available." /\
  sleeps (trace e) = 10%nat /\ get_role_calls (trace e) = 11%nat /\
  mutating_calls (trace e) = 1%nat.
Proof.
  apply (create_oidc_role_times_out invisible_roles "arn:provider" "owner/repo" () ()
           "arn:aws:iam::123456789012:role/ResourcelyGithubActionsOIDC").
  - intros []. reflexivity.
  - reflexivity.
Defined.

(** ** The ECS helpers *)

(** X12. [ensure_ecs_cluster] returns the name it was given and nothing
    else, never dies of an exception, and creates the cluster exactly
    when the description does not show it active and without failures:
    an INACTIVE cluster is created again. *)
Theorem ensure_ecs_cluster_spec {W} (h : handler W) (cluster_name : string) (w : W) :
  let e := run h (ensure_ecs_cluster cluster_name) w in
  (forall name, result e = Returned name -> name = cluster_name) /\
  (forall x, result e <> Raised x) /\
  (forall d w1, h _ (DescribeClusters [cluster_name]) w = (AwsOk d, w1) ->
     (cluster_active d ->
        result e = Returned cluster_name /\
        trace e = [Ev (DescribeClusters [cluster_name]) (AwsOk d)]) /\
     (~ cluster_active d ->
        trace e = [Ev (DescribeClusters [cluster_name]) (AwsOk d);
                   Ev (CreateCluster cluster_name) (h _ (CreateCluster cluster_name) w1).1])).
Proof.
  unfold ensure_ecs_cluster, or_exit_on_exception. run_step.
  destruct (h _ (DescribeClusters [cluster_name]) w) as [[d|code|x] w1] eqn:Hd; run_step.
  2,3: by split_and!.
  destruct (bool_decide (failures d ≠ []) || _) eqn:Hmissing; run_step.
  - destruct (h _ (CreateCluster cluster_name) w1) as [[u|code|x] w2] eqn:Hc; run_step.
    all: split_and!; [by intros ? [= <-] || done|done|].
    all: intros d' w1' [= <- <-]; split; [|by rewrite Hc].
    all: intros [Hf [rest Hcl]]; exfalso; rewrite Hcl in Hmissing;
      rewrite bool_decide_eq_false_2 in Hmissing by (by intros ?); done.
  - split_and!; [by intros ? [= <-]|done|].
    intros d' w1' [= <- <-]. split; [done|].
    intros Hna. destruct Hna. apply orb_false_iff in Hmissing as [Hf Hcl].
    apply bool_decide_eq_false in Hf. split.
    + by destruct (failures d); [|destruct Hf].
    + destruct (clusters d) as [|status rest]; [done|].
      apply negb_false_iff, String.eqb_eq in Hcl as ->. by eexists.
Qed.

Lemma ensure_ecs_cluster_spec_witness :
  let e := run ecs_account (ensure_ecs_cluster "resourcely-campaigns") [] in
  result e = Returned "resourcely-campaigns" /\
  trace e = [Ev (DescribeClusters ["resourcely-campaigns"])
               (AwsOk {| failures := []; clusters := ["ACTIVE"] |})].
Proof.
  apply (proj1 (proj2 (proj2 (ensure_ecs_cluster_spec ecs_account "resourcely-campaigns" []))
                  _ [] eq_refl)).
  split; [reflexivity|by exists []].
Defined.

(** X13. When [create_or_update_consolidated_secret] returns an ARN, it
    has either put the value of the secret it found, or created the
    secret after finding none, or created it after the put itself said
    the secret was gone; it never makes more than two mutating calls,
    and the only call whose failure kills the script with a traceback,
    rather than through the printed message, is [create_secret]. *)
Theorem consolidated_secret_outcomes {W} (h : handler W) (secret_name : string)
    (secret_data : json) (w : W) :
  let e := run h (create_or_update_consolidated_secret secret_name secret_data) w in
  let describe := DescribeSecret secret_name in
  let put := PutSecretValue secret_name secret_data in
  let create := CreateSecret secret_name secret_data secret_description in
  (forall arn, result e = Returned arn ->
     trace e = [Ev describe (AwsOk arn); Ev put (AwsOk ())] \/
     trace e = [Ev describe (ClientError "ResourceNotFoundException");
                Ev create (AwsOk arn)] \/
     exists found,
       trace e = [Ev describe (AwsOk found);
                  Ev put (ClientError "ResourceNotFoundException");
                  Ev create (AwsOk arn)]) /\
  (mutating_calls (trace e) <= 2)%nat /\
  (forall x, result e = Raised x -> exists pre r, trace e = pre ++ [Ev create r]).
Proof.
  unfold create_or_update_consolidated_secret, unguarded. run_step.
  destruct (h _ (DescribeSecret secret_name) w) as [[found|code|x] w1]; run_step.
  - destruct (h _ (PutSecretValue secret_name secret_data) w1) as [[u|code|x] w2]; run_step.
    + destruct u. split_and!; [|cbn; lia|done]. intros arn [= <-]. by left.
    + destruct (String.eqb code "ResourceNotFoundException") eqn:Hcode; run_step.
      * apply String.eqb_eq in Hcode as ->.
        destruct (h _ (CreateSecret secret_name secret_data _) w2) as [[arn|code|x] w3];
          run_step; (split_and!; [|cbn; lia|]).
        -- intros ? [= <-]. right. right. by exists found.
        -- done.
        -- done.
        -- intros ? _. by eexists [_; _], _.
        -- done.
        -- intros ? _. by eexists [_; _], _.
      * split_and!; [done|cbn; lia|done].
    + split_and!; [done|cbn; lia|done].
  - destruct (String.eqb code "ResourceNotFoundException") eqn:Hcode; run_step.
    + apply String.eqb_eq in Hcode as ->.
      destruct (h _ (CreateSecret secret_name secret_data _) w1) as [[arn|code|x] w3];
        run_step; (split_and!; [|cbn; lia|]).
      * intros ? [= <-]. right. by left.
      * done.
      * done.
      * intros ? _. by eexists [_], _.
      * done.
      * intros ? _. by eexists [_], _.
    + split_and!; [done|cbn; lia|done].
  - split_and!; [done|cbn; lia|done].
Qed.

Lemma consolidated_secret_outcomes_witness :
  let e := run vanishing_secret (create_or_update_consolidated_secret "s" JNull) () in
  trace e = [Ev (DescribeSecret "s") (AwsOk "arn:aws:secretsmanager:::secret:s-new");
             Ev (PutSecretValue "s" JNull) (AwsOk ())] \/
  trace e = [Ev (DescribeSecret "s") (ClientError "ResourceNotFoundException");
             Ev (CreateSecret "s" JNull secret_description)
                (AwsOk "arn:aws:secretsmanager:::secret:s-new")] \/
  exists found,
    trace e = [Ev (DescribeSecret "s") (AwsOk found);
               Ev (PutSecretValue "s" JNull) (ClientError "ResourceNotFoundException");
               Ev (CreateSecret "s" JNull secret_description)
                  (AwsOk "arn:aws:secretsmanager:::secret:s-new")].
Proof.
  exact (proj1 (consolidated_secret_outcomes vanishing_secret "s" JNull ())
           "arn:aws:secretsmanager:::secret:s-new" eq_refl).
Defined.

(** X14. Whenever [ensure_ecs_role] returns, its last two calls are the
    successful put of the inline policy
    ["CampaignsAgentS3AndSecretsPolicy"] for the bucket and the
    [get_role] whose ARN it returns.  A role that already exists is not
    created again, but its inline policy is put on every run. *)
Theorem ensure_ecs_role_spec {W} (h : handler W) (role_name bucket_name : string) (w : W) :
  let e := run h (ensure_ecs_role role_name bucket_name) w in
  let put := PutRolePolicy role_name "CampaignsAgentS3AndSecretsPolicy"
               (ecs_inline_policy bucket_name) in
  (forall arn, result e = Returned arn ->
     exists pre, trace e = pre ++ [Ev put (AwsOk ()); Ev (GetRole role_name) (AwsOk arn)]) /\
  (forall found w1, h _ (GetRole role_name) w = (AwsOk found, w1) ->
     exists rest,
       trace e = Ev (GetRole role_name) (AwsOk found) :: Ev put (h _ put w1).1 :: rest /\
       mutating_calls (trace e) = 1%nat) /\
  (mutating_calls (trace e) <= 2)%nat.
Proof.
  unfold ensure_ecs_role, or_exit_on_client_error, unguarded. run_step.
  destruct (h _ (GetRole role_name) w) as [[found|code|x] w1]; run_step.
  - destruct (h _ (PutRolePolicy _ _ _) w1) as [[u|code|x] w2] eqn:Hput; run_step.
    + destruct u.
      destruct (h _ (GetRole role_name) w2) as [[arn|code|x] w3]; run_step.
      all: split_and!; [|intros ? ? [= <- <-]; rewrite Hput; by eexists|cbn; lia].
      * intros ? [= <-]. by exists [Ev (GetRole role_name) (AwsOk found)].
      * done.
      * done.
    + split_and!; [done|intros ? ? [= <- <-]; rewrite Hput; by eexists|cbn; lia].
    + split_and!; [done|intros ? ? [= <- <-]; rewrite Hput; by eexists|cbn; lia].
  - destruct (String.eqb code "NoSuchEntity"); run_step; [|by split_and!; [..|cbn; lia]].
    destruct (h _ (CreateRole _ _ _) w1) as [[created|code'|x] w2]; run_step;
      [|by split_and!; [..|cbn; lia]..].
    destruct (h _ (Sleep 5) w2) as [u0 w3]. run_step.
    destruct (h _ (PutRolePolicy _ _ _) w3) as [[u|code'|x] w4]; run_step;
      [|by split_and!; [..|cbn; lia]..].
    destruct u.
    destruct (h _ (GetRole role_name) w4) as [[arn|code'|x] w5]; run_step;
      [|by split_and!; [..|cbn; lia]..].
    split_and!; [|done|cbn; lia].
    intros ? [= <-]. by eexists [_; _; _].
  - by split_and!; [..|cbn; lia].
Qed.

Lemma ensure_ecs_role_spec_witness :
  let e := run ecs_account (ensure_ecs_role "resourcely_campaigns-agent-task-role" "state") [] in
  exists rest,
    trace e =
      Ev (GetRole "resourcely_campaigns-agent-task-role")
         (AwsOk "arn:aws:iam::123456789012:role/resourcely_campaigns-agent-task-role")
      :: Ev (PutRolePolicy "resourcely_campaigns-agent-task-role"
               "CampaignsAgentS3AndSecretsPolicy" (ecs_inline_policy "state")) (AwsOk ())
      :: rest /\
    mutating_calls (trace e) = 1%nat.
Proof.
  exact (proj1 (proj2 (ensure_ecs_role_spec ecs_account "resourcely_campaigns-agent-task-role"
                         "state" [])) _ [] eq_refl).
Defined.

(** ** [create_s3_bucket] *)

(** X15. For the account that [get_caller_identity] reports,
    [create_s3_bucket] works on the bucket [base-account-region] and
    returns only that name, after a successful put of the full public
    access block as its last call.  It creates the bucket only when
    [head_bucket] fails with code 404 or NoSuchBucket: when the bucket is
    there nothing is created, and on any other error code the run ends
    without a single mutating call. *)
Theorem create_s3_bucket_spec {W} (h : handler W) (base_bucket_name region : string)
    (w w1 : W) (identity : caller_identity) :
  h _ GetCallerIdentity w = (AwsOk identity, w1) ->
  let name := state_bucket_name base_bucket_name (Account identity) region in
  let e := run h (create_s3_bucket base_bucket_name region) w in
  (forall bucket, result e = Returned bucket ->
     bucket = name /\
     exists pre, trace e = pre ++ [Ev (PutPublicAccessBlock name block_all_public_access)
                                      (AwsOk ())]) /\
  (forall w2, h _ (HeadBucket name) w1 = (AwsOk (), w2) ->
     trace e = [ Ev GetCallerIdentity (AwsOk identity);
                 Ev (HeadBucket name) (AwsOk ());
                 Ev (PutPublicAccessBlock name block_all_public_access)
                    (h _ (PutPublicAccessBlock name block_all_public_access) w2).1 ]) /\
  (forall code w2, h _ (HeadBucket name) w1 = (ClientError code, w2) ->
     code <> "404" -> code <> "NoSuchBucket" ->
     (exists msg, result e = Exited msg) /\ mutating_calls (trace e) = O).
Proof.
  intros Hid name e. subst e.
  unfold create_s3_bucket, get_account_id, or_exit_on_client_error. run_step.
  rewrite Hid. run_step. fold (state_bucket_name base_bucket_name (Account identity) region).
  fold name.
  destruct (h _ (HeadBucket name) w1) as [[u|code|x] w2]; run_step.
  - destruct u.
    destruct (h _ (PutPublicAccessBlock name block_all_public_access) w2)
      as [[u|code|x] w3] eqn:Hput; run_step.
    + destruct u. split_and!.
      * intros ? [= <-]. split; [done|]. by eexists [_; _].
      * intros ? [= <-]. by rewrite Hput.
      * done.
    + split_and!; [done|intros ? [= <-]; by rewrite Hput|done].
    + split_and!; [done|intros ? [= <-]; by rewrite Hput|done].
  - destruct (String.eqb code "404" || String.eqb code "NoSuchBucket") eqn:Hcode; run_step.
    + assert (forall (P : Prop), code <> "404" -> code <> "NoSuchBucket" -> P) as Hex.
      { intros P H1 H2. apply orb_true_iff in Hcode as [Hc|Hc];
          apply String.eqb_eq in Hc; done. }
      destruct (h _ (CreateBucket name region) w2) as [[u|code'|x] w3]; run_step;
        [|split_and!; [done|done|intros ? ? [= <- <-]; apply Hex]..].
      destruct (h _ (WaitBucketExists name) w3) as [[u'|code'|x] w4]; run_step;
        [|split_and!; [done|done|intros ? ? [= <- <-]; apply Hex]..].
      destruct (h _ (PutPublicAccessBlock name block_all_public_access) w4)
        as [[u''|code'|x] w5]; run_step;
        [|split_and!; [done|done|intros ? ? [= <- <-]; apply Hex]..].
      destruct u, u', u''. split_and!; [|done|intros ? ? [= <- <-]; apply Hex].
      intros ? [= <-]. split; [done|]. by eexists [_; _; _; _].
    + split_and!; [done|done|]. intros ? ? [= <- <-] _ _. split; [by eexists|done].
  - split_and!; done.
Qed.

Lemma create_s3_bucket_spec_witness :
  let e := run forbidden_bucket (create_s3_bucket default_base_bucket_name default_region) () in
  (exists msg, result e = Exited msg) /\ mutating_calls (trace e) = O.
Proof.
  apply (proj2 (proj2 (create_s3_bucket_spec forbidden_bucket default_base_bucket_name
                         default_region () () operator_identity eq_refl)) "403" ());
    [reflexivity|done|done].
Defined.

(** ** [apply_bucket_policy]: the writing paths *)

Lemma scan_statements_absent (intended : list (string * json)) (statements : list json) :
  Forall other_statement statements -> scan_statements intended statements = NotFound.
Proof.
  induction 1 as [|s rest (items & -> & Hsid) _ IH]; [done|].
  cbn [scan_statements]. by rewrite Hsid, IH.
Qed.

Lemma dict_lookup_set_eq {A} (k : string) (v : A) (items : list (string * A)) :
  dict_lookup k (dict_set k v items) = Some v.
Proof.
  induction items as [|[k' v'] items IH]; cbn [dict_set dict_lookup].
  - by rewrite String.eqb_refl.
  - destruct (String.eqb k' k) eqn:E; cbn [dict_lookup]; by rewrite E.
Qed.

Lemma dict_lookup_set_ne {A} (k k0 : string) (v : A) (items : list (string * A)) :
  k0 <> k -> dict_lookup k0 (dict_set k v items) = dict_lookup k0 items.
Proof.
  intros Hne. induction items as [|[k' v'] items IH]; cbn [dict_set dict_lookup].
  - apply String.eqb_neq in Hne. rewrite String.eqb_sym in Hne. by rewrite Hne.
  - destruct (String.eqb k' k) eqn:E; cbn [dict_lookup].
    + apply String.eqb_eq in E as ->.
      apply String.eqb_neq in Hne. rewrite String.eqb_sym in Hne. by rewrite Hne.
    + by rewrite IH.
Qed.

(** Setting a key that is there keeps every key in its place. *)
Lemma dict_set_keys {A} (k : string) (v : A) (items : list (string * A)) :
  is_Some (dict_lookup k items) -> map fst (dict_set k v items) = map fst items.
Proof.
  induction items as [|[k' v'] items IH]; cbn [dict_set dict_lookup map fst].
  - by intros [? ?].
  - destruct (String.eqb k' k) eqn:E; cbn [map fst]; [done|].
    intros H. by rewrite IH.
Qed.

(** X16. On a bucket that has no policy yet, [apply_bucket_policy] puts
    a policy of version 2012-10-17 whose only statement is the intended
    one, for the caller's own ARN, and returns exactly when that put
    succeeds. *)
Theorem apply_bucket_policy_first_policy {W} (h : handler W) (bucket_name : string)
    (w w1 w2 : W) (identity : caller_identity) :
  h _ GetCallerIdentity w = (AwsOk identity, w1) ->
  h _ (GetBucketPolicy bucket_name) w1 = (ClientError "NoSuchBucketPolicy", w2) ->
  let put := PutBucketPolicy bucket_name
               (fresh_policy (intended_statement (Arn identity) bucket_name)) in
  let e := run h (apply_bucket_policy bucket_name) w in
  trace e = [ Ev GetCallerIdentity (AwsOk identity);
              Ev (GetBucketPolicy bucket_name) (ClientError "NoSuchBucketPolicy");
              Ev put (h _ put w2).1 ] /\
  (result e = Returned () <-> (h _ put w2).1 = AwsOk ()).
Proof.
  intros Hid Hget put e. subst e.
  unfold apply_bucket_policy, get_current_aws_principal, or_exit_on_client_error, py_item.
  run_step. rewrite Hid. run_step. rewrite Hget. run_step.
  change (String.eqb "NoSuchBucketPolicy" "NoSuchBucketPolicy") with true. cbv iota.
  run_step.
  change (dict_lookup "Statement" [("Version", JStr "2012-10-17"); ("Statement", JArr [])])
    with (Some (JArr [])).
  run_step. cbn [scan_statements app].
  change (dict_set "Statement" ?v [("Version", ?a); ("Statement", ?b)])
    with [("Version", a); ("Statement", v)].
  fold (intended_statement (Arn identity) bucket_name).
  fold (fresh_policy (intended_statement (Arn identity) bucket_name)). fold put.
  run_step.
  destruct (h _ put w2) as [[[]|code|x] w3]; run_step; split; try done; by split.
Qed.

Lemma apply_bucket_policy_first_policy_witness :
  let e := run s3_policy_store (apply_bucket_policy "state") None in
  trace e = [ Ev GetCallerIdentity (AwsOk operator_identity);
              Ev (GetBucketPolicy "state") (ClientError "NoSuchBucketPolicy");
              Ev (PutBucketPolicy "state"
                    (fresh_policy (intended_statement (Arn operator_identity) "state")))
                 (AwsOk ()) ] /\
  (result e = Returned () <-> AwsOk () = AwsOk ()).
Proof.
  exact (apply_bucket_policy_first_policy s3_policy_store "state" None None None
           operator_identity eq_refl eq_refl).
Defined.

(** X17. On a policy none of whose statements carries the Sid
    ["AllowLocalDockerAccess"], [apply_bucket_policy] puts the policy it
    read with the intended statement added after the existing ones: the
    existing statements keep their content and order, and every other
    key of the policy document keeps its value and its place. *)
Theorem apply_bucket_policy_appends {W} (h : handler W) (bucket_name : string)
    (w w1 w2 : W) (identity : caller_identity)
    (policy_items : list (string * json)) (statements : list json) :
  h _ GetCallerIdentity w = (AwsOk identity, w1) ->
  h _ (GetBucketPolicy bucket_name) w1 = (AwsOk (JObj policy_items), w2) ->
  dict_lookup "Statement" policy_items = Some (JArr statements) ->
  Forall other_statement statements ->
  exists new_items,
    let put := PutBucketPolicy bucket_name (JObj new_items) in
    trace (run h (apply_bucket_policy bucket_name) w) =
      [ Ev GetCallerIdentity (AwsOk identity);
        Ev (GetBucketPolicy bucket_name) (AwsOk (JObj policy_items));
        Ev put (h _ put w2).1 ] /\
    dict_lookup "Statement" new_items
      = Some (JArr (statements ++ [intended_statement (Arn identity) bucket_name])) /\
    (forall k, k <> "Statement" -> dict_lookup k new_items = dict_lookup k policy_items) /\
    map fst new_items = map fst policy_items.
Proof.
  intros Hid Hget Hstmts Hother.
  exists (dict_set "Statement"
            (JArr (statements ++ [intended_statement (Arn identity) bucket_name]))
            policy_items).
  split_and!.
  - unfold apply_bucket_policy, get_current_aws_principal, or_exit_on_client_error, py_item.
    run_step. rewrite Hid. run_step. rewrite Hget. run_step. rewrite Hstmts. run_step.
    rewrite (scan_statements_absent _ _ Hother).
    fold (intended_statement (Arn identity) bucket_name). run_step.
    by destruct (h _ (PutBucketPolicy _ _) w2) as [[[]|code|x] w3].
  - apply dict_lookup_set_eq.
  - intros k Hk. by apply dict_lookup_set_ne.
  - apply dict_set_keys. by rewrite Hstmts.
Qed.

Lemma apply_bucket_policy_appends_witness :
  exists new_items,
    trace (run s3_policy_store (apply_bucket_policy "state")
             (Some (fresh_policy foreign_statement))) =
      [ Ev GetCallerIdentity (AwsOk operator_identity);
        Ev (GetBucketPolicy "state") (AwsOk (fresh_policy foreign_statement));
        Ev (PutBucketPolicy "state" (JObj new_items))
           (s3_policy_store _ (PutBucketPolicy "state" (JObj new_items))
              (Some (fresh_policy foreign_statement))).1 ] /\
    dict_lookup "Statement" new_items
      = Some (JArr ([foreign_statement]
                    ++ [intended_statement (Arn operator_identity) "state"])) /\
    (forall k, k <> "Statement" ->
       dict_lookup k new_items
       = dict_lookup k [("Version", JStr "2012-10-17");
                        ("Statement", JArr [foreign_statement])]) /\
    map fst new_items = ["Version"; "Statement"].
Proof.
  apply (apply_bucket_policy_appends s3_policy_store "state"
           (Some (fresh_policy foreign_statement)) (Some (fresh_policy foreign_statement))
           (Some (fresh_policy foreign_statement)) operator_identity
           [("Version", JStr "2012-10-17"); ("Statement", JArr [foreign_statement])]
           [foreign_statement] eq_refl eq_refl eq_refl).
  constructor; [|constructor]. eexists. split; reflexivity.
Defined.

Lemma dict_set_keeps {A} (k k' : string) (v v' : A) (items : list (string * A)) :
  k <> k' -> In (k, v) items -> In (k, v) (dict_set k' v' items).
Proof.
  intros Hne. induction items as [|[k0 v0] items IH]; [done|].
  cbn [dict_set]. intros [[= -> ->]|Hin].
  - apply String.eqb_neq in Hne. rewrite Hne. by left.
  - destruct (String.eqb k0 k'); right; [done|by apply IH].
Qed.

Lemma dict_update_keeps {A} (k : string) (v : A) (items other : list (string * A)) :
  dict_lookup k other = None -> In (k, v) items -> In (k, v) (dict_update items other).
Proof.
  unfold dict_update. revert items.
  induction other as [|[k' v'] other IH]; intros items Hnone Hin; [done|].
  cbn [fold_left fst snd]. cbn [dict_lookup] in Hnone.
  destruct (String.eqb k' k) eqn:E; [done|]. apply String.eqb_neq in E.
  apply IH; [done|]. by apply dict_set_keeps.
Qed.

Lemma py_eq_foreign_key (k : string) (v : json) (items other : list (string * json)) :
  In (k, v) items -> dict_lookup k other = None -> py_eq (JObj items) (JObj other) = false.
Proof.
  intros Hin Hnone. rewrite py_eq_obj. apply andb_false_iff. right.
  apply not_true_is_false. intros Hall.
  rewrite forallb_forall in Hall. specialize (Hall _ Hin). cbn [fst snd] in Hall.
  by rewrite Hnone in Hall.
Qed.

Lemma intended_lookup_foreign (principal_arn bucket_name k : string) :
  ~ In k intended_keys ->
  dict_lookup k (intended_statement_items principal_arn bucket_name) = None.
Proof.
  intros Hk. unfold intended_statement_items. cbn [dict_lookup].
  repeat match goal with
         | |- context [String.eqb ?a k] =>
             let E := fresh in
             destruct (String.eqb a k) eqn:E;
               [apply String.eqb_eq in E; destruct Hk; rewrite <- E; cbn; tauto|]
         end.
  done.
Qed.

Lemma merged_statement_sid (principal_arn bucket_name : string) (items : list (string * json)) :
  dict_lookup "Sid" (dict_update items (intended_statement_items principal_arn bucket_name))
  = Some (JStr "AllowLocalDockerAccess").
Proof.
  unfold dict_update, intended_statement_items. cbn [fold_left fst snd].
  rewrite !dict_lookup_set_ne by done. apply dict_lookup_set_eq.
Qed.

(** X18. When the statement with Sid ["AllowLocalDockerAccess"] carries
    a key that the intended statement does not have, [apply_bucket_policy]
    rewrites the statement in place, keeps that foreign key with its
    value, and puts the result; the statement it has put is still not
    equal to the intended one, so the next run finds it different again. *)
Theorem apply_bucket_policy_keeps_foreign_keys {W} (h : handler W) (bucket_name : string)
    (w w1 w2 : W) (identity : caller_identity)
    (policy_items items : list (string * json)) (pre post : list json)
    (k : string) (v : json) :
  h _ GetCallerIdentity w = (AwsOk identity, w1) ->
  h _ (GetBucketPolicy bucket_name) w1 = (AwsOk (JObj policy_items), w2) ->
  dict_lookup "Statement" policy_items = Some (JArr (pre ++ JObj items :: post)) ->
  Forall other_statement pre ->
  dict_lookup "Sid" items = Some (JStr "AllowLocalDockerAccess") ->
  In (k, v) items -> ~ In k intended_keys ->
  let intended := intended_statement_items (Arn identity) bucket_name in
  let merged := dict_update items intended in
  let put := PutBucketPolicy bucket_name
               (JObj (dict_set "Statement" (JArr (pre ++ JObj merged :: post))
                        policy_items)) in
  trace (run h (apply_bucket_policy bucket_name) w) =
    [ Ev GetCallerIdentity (AwsOk identity);
      Ev (GetBucketPolicy bucket_name) (AwsOk (JObj policy_items));
      Ev put (h _ put w2).1 ] /\
  In (k, v) merged /\
  py_eq (JObj merged) (JObj intended) = false /\
  scan_statements intended (pre ++ JObj merged :: post) <> AlreadyApplied.
Proof.
  intros Hid Hget Hstmts Hpre Hsid Hin Hk intended merged put.
  pose proof (intended_lookup_foreign (Arn identity) bucket_name k Hk) as Hnone.
  fold intended in Hnone.
  assert (In (k, v) merged) as Hmerged by by apply dict_update_keeps.
  assert (scan_statements intended (pre ++ JObj items :: post)
          = Updated (pre ++ JObj merged :: post)) as Hscan.
  { rewrite scan_statements_skip by done. cbn [scan_statements]. rewrite Hsid.
    cbn [from_option id]. change (py_eq (JStr ?s) (JStr ?s)) with (String.eqb s s).
    rewrite String.eqb_refl.
    by rewrite (py_eq_foreign_key k v items intended Hin Hnone). }
  split_and!.
  - unfold apply_bucket_policy, get_current_aws_principal, or_exit_on_client_error, py_item.
    run_step. rewrite Hid. run_step. rewrite Hget. run_step. rewrite Hstmts. run_step.
    fold intended. rewrite Hscan. run_step. fold put.
    by destruct (h _ put w2) as [[[]|code|x] w3].
  - done.
  - by apply (py_eq_foreign_key k v).
  - rewrite scan_statements_skip by done. cbn [scan_statements].
    unfold merged, intended. rewrite merged_statement_sid.
    cbn [from_option id]. change (py_eq (JStr ?s) (JStr ?s)) with (String.eqb s s).
    rewrite String.eqb_refl.
    fold intended. fold merged.
    rewrite (py_eq_foreign_key k v merged intended Hmerged Hnone). done.
Qed.

Lemma apply_bucket_policy_keeps_foreign_keys_witness :
  let intended := intended_statement_items (Arn operator_identity) "state" in
  let merged := dict_update
                  [ ("Sid", JStr "AllowLocalDockerAccess");
                    ("Effect", JStr "Allow");
                    ("Principal",
                     JObj [("AWS", JStr "arn:aws:iam::123456789012:user/somebody")]);
                    ("Action", JArr [JStr "s3:GetObject"]);
                    ("Resource", JArr [JStr "arn:aws:s3:::state"]);
                    ("Condition",
                     JObj [("Bool", JObj [("aws:SecureTransport", JStr "true")])]) ]
                  intended in
  In ("Condition", JObj [("Bool", JObj [("aws:SecureTransport", JStr "true")])]) merged /\
  py_eq (JObj merged) (JObj intended) = false /\
  scan_statements intended ([foreign_statement] ++ JObj merged :: []) <> AlreadyApplied.
Proof.
  intros intended merged.
  refine (proj2 (apply_bucket_policy_keeps_foreign_keys s3_policy_store "state"
                   (Some edited_policy) (Some edited_policy) (Some edited_policy)
                   operator_identity _ _ [foreign_statement] [] "Condition" _
                   eq_refl eq_refl eq_refl _ eq_refl _ _)).
  - constructor; [|constructor]. eexists. split; reflexivity.
  - do 5 right. by left.
  - cbn. intros [H|[H|[H|[H|[H|[]]]]]]; discriminate H.
Defined.

(** ** [create_oidc_provider]: the paths without a race *)

Lemma find_oidc_provider_calls (providers : list string) :
  calls_only (@is_get_provider) (find_oidc_provider providers).
Proof.
  induction providers as [|p rest IH]; [done|].
  cbn [find_oidc_provider calls_only mbind prog_mbind prog_bind perform].
  split; [done|]. intros [url|code|x]; [|done..].
  by destruct (String.eqb _ normalized_target_url).
Qed.

Lemma find_oidc_provider_reads_only {W} (h : handler W) (providers : list string) (w : W) :
  mutating_calls (trace (run h (find_oidc_provider providers) w)) = O /\
  sleeps (trace (run h (find_oidc_provider providers) w)) = O.
Proof.
  pose proof (calls_only_trace _ h _ w (find_oidc_provider_calls providers)) as H.
  unfold mutating_calls, sleeps. induction H as [|[R c r] t Hc _ [IH1 IH2]]; [done|].
  cbn [filter]. destruct c; try done.
Qed.



(** ** [wait_for_ecs_service_running] *)

Lemma any_task_running_dicts (tasks : list json) :
  Forall is_dict tasks -> any_task_running tasks = Ret (existsb task_running tasks).
Proof.
  induction 1 as [|t rest [items ->] _ IH]; [done|].
  cbn [any_task_running existsb task_running py_get mbind prog_mbind prog_bind].
  rewrite IH. by destruct (py_eq _ (JStr "RUNNING")).
Qed.



(** ** The tunnel credentials *)

Lemma credentials_complete_tunnel (items t : list (string * json)) :
  dict_lookup "tunnel" items = Some (JObj t) ->
  credentials_complete (JObj items) <->
  py_truthy (from_option id JNull (dict_lookup "seed" t)) = true /\
  py_truthy (from_option id JNull (dict_lookup "auth_token" t)) = true.
Proof.
  intros Ht. split.
  - intros (items' & t' & [= <-] & Ht' & Hseed & Hauth).
    rewrite Ht in Ht'. by injection Ht' as <-.
  - intros [Hseed Hauth]. by exists items, t.
Qed.

Lemma load_ngrok_credentials_reads {W} (h : handler W) (w : W) :
  let e := run h load_ngrok_credentials w in
  let file := h _ ReadCredFile w in
  trace e = [Ev ReadCredFile file.1] /\ final e = file.2 /\
  (exists found, result e = Returned found) /\
  (forall data, result e = Returned (Some data) <->
                file.1 = CredFile data /\ credentials_complete data).
Proof.
  intros e file. subst e file. unfold load_ngrok_credentials. run_step.
  destruct (h _ ReadCredFile w) as [file w1]. cbn [fst snd].
  assert (forall data : json, ~ (Returned (@None json) = Returned (Some data))) as Hno
    by (intros data; discriminate).
  destruct file as [| |data]; run_step.
  - split_and!; [done|done|by eexists|]. intros data. split; [by intros ?%Hno|]. by intros [[=] _].
  - split_and!; [done|done|by eexists|]. intros data. split; [by intros ?%Hno|]. by intros [[=] _].
  - destruct data as [|b|n|s|l|items].
    1-5: split_and!; [by destruct (h _ ReadCredFile w)|by destruct (h _ ReadCredFile w)
                     |by eexists|];
         intros data'; (split; [by intros ?%Hno|]);
         by intros [[= <-] (items & t & [=] & _)].
    destruct (dict_lookup "tunnel" items) as [tunnel|] eqn:Ht; cbn [from_option id].
    + destruct tunnel as [|b|n|s|l|t].
      1-5: split_and!; [done|done|by eexists|];
           intros data'; (split; [by intros ?%Hno|]);
           intros [[= <-] (items' & t & [= <-] & Ht' & _)]; by rewrite Ht in Ht'.
      pose proof (credentials_complete_tunnel items t Ht) as Hc.
      destruct (py_truthy (JObj t)) eqn:Htruthy; cbn [andb].
      * destruct (py_truthy (from_option id JNull (dict_lookup "seed" t))) eqn:Hseed;
          cbn [andb].
        -- destruct (py_truthy (from_option id JNull (dict_lookup "auth_token" t))) eqn:Hauth.
           ++ split_and!; [done|done|by eexists|]. intros data'. split.
              ** intros [= <-]. split; [done|]. by apply Hc.
              ** by intros [[= <-] _].
           ++ split_and!; [done|done|by eexists|]. intros data'.
              split; [by intros ?%Hno|]. intros [[= <-] [_ ?]%Hc]. done.
        -- split_and!; [done|done|by eexists|]. intros data'.
           split; [by intros ?%Hno|]. intros [[= <-] [? _]%Hc]. done.
      * split_and!; [done|done|by eexists|]. intros data'.
        split; [by intros ?%Hno|]. intros [[= <-] [Hseed _]%Hc].
        destruct t; [|done]. done.
    + split_and!; [done|done|by eexists|]. intros data'.
      split; [by intros ?%Hno|].
      intros [[= <-] (items' & t & [= <-] & Ht' & _)]. by rewrite Ht in Ht'.
Qed.

(** X21. [load_ngrok_credentials] reads the credential file once and
    never ends the run, whatever the file holds: a missing file, an
    unreadable one, a document that is not a dict and a [tunnel] that is
    not a dict all give [None].  It hands the document back exactly when
    its [tunnel] is a dict with a truthy [seed] and a truthy
    [auth_token]. *)
Theorem load_ngrok_credentials_accepts {W} (h : handler W) (w : W) :
  let e := run h load_ngrok_credentials w in
  let file := h _ ReadCredFile w in
  trace e = [Ev ReadCredFile file.1] /\ final e = file.2 /\
  (exists found, result e = Returned found) /\
  (forall data, result e = Returned (Some data) <->
                file.1 = CredFile data /\ credentials_complete data).
Proof. apply load_ngrok_credentials_reads. Qed.

Lemma load_ngrok_credentials_run {W} (h : handler W) (w w1 : W) (file : cred_file) :
  h _ ReadCredFile w = (file, w1) ->
  exists found,
    run h load_ngrok_credentials w
    = {| result := Returned found; trace := [Ev ReadCredFile file]; final := w1 |} /\
    (forall data, found = Some data <-> file = CredFile data /\ credentials_complete data).
Proof.
  intros Hread.
  pose proof (load_ngrok_credentials_reads h w) as (Ht & Hf & [found Hr] & Hiff).
  rewrite Hread in Ht, Hf, Hiff. cbn [fst snd] in Ht, Hf, Hiff.
  exists found. split.
  - destruct (run h load_ngrok_credentials w) as [r t f]. cbn in *. by subst.
  - intros data. rewrite <- Hiff, Hr. split; [by intros ->|by intros [=]].
Qed.

(** X22. [ensure_ngrok_setup] with the credential file read.  Complete
    credentials on disk are returned as they are, with no request to
    the API.  Otherwise, when the GET answers 200 with a dict whose
    [tunnel] is truthy, the whole answer is written to the credential
    file and returned, and nothing is POSTed; a failed write ends the
    run.  The answer is written whether or not its tunnel carries a
    [seed] and an [auth_token]. *)
Theorem ensure_ngrok_setup_reuses {W} (h : handler W) (resourcely_api_token : string)
    (w w1 : W) (file : cred_file) :
  h _ ReadCredFile w = (file, w1) ->
  let e := run h (ensure_ngrok_setup resourcely_api_token) w in
  let get := HttpGet campaigns_url (resourcely_auth resourcely_api_token) [] in
  (forall data, file = CredFile data -> credentials_complete data ->
     e = {| result := Returned data; trace := [Ev ReadCredFile file]; final := w1 |}) /\
  ((forall data, file = CredFile data -> ~ credentials_complete data) ->
   forall response w2 items tunnel,
     h _ get w1 = (Responded response, w2) ->
     status_code response = 200 ->
     json_body response = Some (JObj items) ->
     dict_lookup "tunnel" items = Some tunnel ->
     py_truthy tunnel = true ->
     let write := h _ (WriteCredFile (JObj items)) w2 in
     e = {| result := if write.1 then Returned (JObj items)
                      else Exited "Failed to save credentials file";
            trace := [Ev ReadCredFile file; Ev get (Responded response);
                      Ev (WriteCredFile (JObj items)) write.1];
            final := write.2 |}).
Proof.
  intros Hread e get. subst e get.
  destruct (load_ngrok_credentials_run h w w1 file Hread) as (found & Hload & Hfound).
  unfold ensure_ngrok_setup. rewrite run_bind, Hload. unfold then_run. cbn [result trace final].
  split.
  - intros data Hfile Hcomplete.
    assert (found = Some data) as -> by by apply Hfound.
    run_step. by rewrite app_nil_r.
  - intros Hincomplete response w2 items tunnel Hget Hstatus Hbody Htunnel Htruthy.
    destruct found as [data|].
    { destruct (proj1 (Hfound data) eq_refl) as [Hfile Hcomplete].
      by destruct (Hincomplete data Hfile). }
    run_step. rewrite Hget. run_step. rewrite Hstatus. change (200 =? 200) with true.
    unfold response_json. rewrite Hbody. run_step.
    assert (py_truthy (JObj items) = true) as ->.
    { destruct items; [done|]. done. }
    unfold py_get. run_step. rewrite Htunnel. cbn [from_option id]. rewrite Htruthy.
    unfold save_ngrok_credentials. run_step.
    destruct (h _ (WriteCredFile (JObj items)) w2) as [[] w3]; by run_step.
Qed.

Lemma ensure_ngrok_setup_reuses_witness :
  let e := run (host_with_file (ok_response seedless_credentials))
             (ensure_ngrok_setup "token") NoCredFile in
  result e = Returned seedless_credentials /\
  final e = CredFile seedless_credentials /\
  result (run (host_with_file (ok_response seedless_credentials))
            load_ngrok_credentials (final e)) = Returned None.
Proof.
  intros e.
  pose proof (proj2 (ensure_ngrok_setup_reuses (host_with_file (ok_response seedless_credentials))
                       "token" NoCredFile NoCredFile NoCredFile eq_refl)) as H.
  cbv zeta in H.
  specialize (H ltac:(by intros data [=]) _ NoCredFile _ _ eq_refl eq_refl eq_refl
                eq_refl eq_refl).
  assert (e = run (host_with_file (ok_response seedless_credentials))
                (ensure_ngrok_setup "token") NoCredFile) as He by reflexivity.
  rewrite H in He. rewrite He. vm_compute. done.
Defined.

(** X23. A GET that fails does not stop [ensure_ngrok_setup].  With no
    usable credentials on disk, a request that raises or an answer other
    than 200 is passed over and the tunnel is provisioned by POST: the
    run ends when the POST is answered with a status other than 200 and
    201, an exception of the POST leaves the script, and a 200 or 201
    answer with a tunnel is written to the credential file and
    returned. *)
Theorem ensure_ngrok_setup_provisions {W} (h : handler W) (resourcely_api_token : string)
    (w w1 w2 : W) (file : cred_file) (got : http_result) :
  let auth := resourcely_auth resourcely_api_token in
  let get := HttpGet campaigns_url auth [] in
  let post := HttpPost campaigns_url auth (JObj []) in
  h _ ReadCredFile w = (file, w1) ->
  (forall data, file = CredFile data -> ~ credentials_complete data) ->
  h _ get w1 = (got, w2) ->
  (forall response, got = Responded response -> status_code response <> 200) ->
  let e := run h (ensure_ngrok_setup resourcely_api_token) w in
  let asked (answer : http_result) := [Ev ReadCredFile file; Ev get got; Ev post answer] in
  (forall x w3, h _ post w2 = (RequestFailed x, w3) ->
     e = {| result := Raised x; trace := asked (RequestFailed x); final := w3 |}) /\
  (forall response w3, h _ post w2 = (Responded response, w3) ->
     (status_code response <> 200 -> status_code response <> 201 ->
      e = {| result := Exited ("Failed to provision ngrok proxy: " +:+ text response);
             trace := asked (Responded response); final := w3 |}) /\
     (status_code response = 200 \/ status_code response = 201 ->
      forall items tunnel,
        json_body response = Some (JObj items) ->
        dict_lookup "tunnel" items = Some (JObj tunnel) -> tunnel <> [] ->
        let write := h _ (WriteCredFile (JObj items)) w3 in
        e = {| result := if write.1 then Returned (JObj items)
                         else Exited "Failed to save credentials file";
               trace := asked (Responded response)
                          ++ [Ev (WriteCredFile (JObj items)) write.1];
               final := write.2 |})).
Proof.
  intros auth get post Hread Hincomplete Hget Hfailed e asked. subst e asked get post auth.
  destruct (load_ngrok_credentials_run h w w1 file Hread) as (found & Hload & Hfound).
  destruct found as [data|].
  { destruct (proj1 (Hfound data) eq_refl) as [Hfile Hcomplete].
    by destruct (Hincomplete data Hfile). }
  assert (run h (ensure_ngrok_setup resourcely_api_token) w =
          let e' := run h (provision_tunnel (resourcely_auth resourcely_api_token)) w2 in
          {| result := result e';
             trace := Ev ReadCredFile file
                        :: Ev (HttpGet campaigns_url (resourcely_auth resourcely_api_token) []) got
                        :: trace e';
             final := final e' |}) as ->.
  { unfold ensure_ngrok_setup. rewrite run_bind, Hload. unfold then_run.
    cbn [result trace final]. run_step. rewrite Hget. run_step.
    destruct got as [response|x]; run_step; [|done].
    pose proof (Hfailed response eq_refl) as Hstatus.
    apply Z.eqb_neq in Hstatus. rewrite Hstatus. run_step. done. }
  cbv zeta. unfold provision_tunnel, requests_post. split.
  - intros x w3 Hpost. run_step. rewrite Hpost. by run_step.
  - intros response w3 Hpost. split.
    + intros H200 H201. run_step. rewrite Hpost. run_step.
      apply Z.eqb_neq in H200, H201. rewrite H200, H201. by run_step.
    + intros Hok items tunnel Hbody Htunnel Hne. run_step. rewrite Hpost. run_step.
      assert ((status_code response =? 200) || (status_code response =? 201) = true) as ->.
      { destruct Hok as [-> | ->]; done. }
      cbn [negb]. unfold response_json. rewrite Hbody. run_step.
      unfold py_get. run_step. rewrite Htunnel. cbn [from_option id].
      assert (py_truthy (JObj tunnel) = true) as -> by by destruct tunnel.
      cbn [negb]. unfold save_ngrok_credentials. run_step.
      destruct (h _ (WriteCredFile (JObj items)) w3) as [[] w4]; by run_step.
Qed.

Lemma ensure_ngrok_setup_provisions_witness :
  let e := run (host_with_file (created_response complete_credentials))
             (ensure_ngrok_setup "token") (CredFile seedless_credentials) in
  result e = Returned complete_credentials /\
  List.length (trace e) = 4%nat /\
  final e = CredFile complete_credentials.
Proof.
  intros e.
  assert (forall data, CredFile seedless_credentials = CredFile data ->
                       ~ credentials_complete data) as Hincomplete.
  { intros data [= <-] (items & t & [= <-] & Ht & Hseed & _).
    vm_compute in Ht. injection Ht as <-. vm_compute in Hseed. done. }
  pose proof (ensure_ngrok_setup_provisions
                (host_with_file (created_response complete_credentials)) "token"
                (CredFile seedless_credentials) (CredFile seedless_credentials)
                (CredFile seedless_credentials) (CredFile seedless_credentials)
                (created_response complete_credentials)
                eq_refl Hincomplete eq_refl) as H.
  cbv zeta in H.
  specialize (H ltac:(by intros r [= <-])).
  destruct H as [_ H].
  destruct (H _ (CredFile seedless_credentials) eq_refl) as [_ H'].
  specialize (H' (or_intror eq_refl) _ _ eq_refl eq_refl ltac:(done)).
  assert (e = run (host_with_file (created_response complete_credentials))
                (ensure_ngrok_setup "token") (CredFile seedless_credentials)) as He
    by reflexivity.
  rewrite H' in He. rewrite He. vm_compute. done.
Defined.

(** ** The other two diagnostics pollers *)

Lemma evaluate_yaml_config_trace {W} (h : handler W) (api_token repo_url : string) (w : W) :
  trace (run h (evaluate_yaml_config api_token repo_url) w) =
    [Ev (HttpGet yaml_config_url (resourcely_auth api_token) [])
        (h _ (HttpGet yaml_config_url (resourcely_auth api_token) []) w).1].
Proof.
  unfold evaluate_yaml_config. apply one_get_trace. intros r.
  destruct (negb _); [done|].
  apply pure_bind; [apply pure_response_json|]. intros data.
  apply pure_bind; [apply pure_py_get|]. intros repos.
  apply pure_bind; [apply pure_py_get|]. intros repo_diag.
  destruct (py_truthy repo_diag); [|done].
  apply pure_bind; [apply pure_py_get|]. intros res.
  apply pure_bind; [apply pure_py_get|]. intros errors.
  by destruct (_ && _).
Qed.



Lemma collect_checks_shape (checks : list json) (check_statuses : list (string * json)) :
  Forall agent_check_shape checks ->
  exists collected,
    collect_checks checks check_statuses = Ret collected /\
    forall k, k ∈ required_checks ->
      recorded_success k collected
      = recorded_success k check_statuses || existsb (reports_success k) checks.
Proof.
  intros Hshape. revert check_statuses.
  induction Hshape as [|check rest (items & -> & Htype) _ IH]; intros check_statuses.
  { exists check_statuses. split; [done|]. intros k _. cbn [existsb]. by rewrite orb_false_r. }
  cbn [collect_checks py_get mbind prog_mbind prog_bind existsb reports_success].
  set (ctype := from_option id JNull (dict_lookup "type" items)) in *.
  set (cstatus := from_option id JNull (dict_lookup "status" items)).
  assert (forall st, (forall k, k ∈ required_checks ->
                        recorded_success k st
                        = recorded_success k check_statuses
                          || py_eq ctype (JStr k) && py_eq cstatus status_success) ->
          exists collected,
            collect_checks rest st = Ret collected /\
            forall k, k ∈ required_checks ->
              recorded_success k collected
              = recorded_success k check_statuses
                || (py_eq ctype (JStr k) && py_eq cstatus status_success
                    || existsb (reports_success k) rest)) as Hnext.
  { intros st Hst. destruct (IH st) as (collected & Hc & Hk).
    exists collected. split; [done|]. intros k Hin.
    by rewrite (Hk k Hin), (Hst k Hin), orb_assoc. }
  destruct ctype as [|b|n|t|l|l]; [by apply Hnext; intros k _; rewrite orb_false_r..| | |];
    [|done..].
  destruct (bool_decide (t ∈ required_checks)) eqn:Ht.
  - fold (recorded_success t check_statuses).
    destruct (recorded_success t check_statuses) eqn:Hrec; cbn [negb].
    + apply Hnext. intros k _. cbn [py_eq].
      destruct (String.eqb t k) eqn:E; cbn [andb]; [|by rewrite orb_false_r].
      apply String.eqb_eq in E as <-. by rewrite Hrec.
    + apply Hnext. intros k _. cbn [py_eq]. unfold recorded_success at 1.
      destruct (String.eqb t k) eqn:E; cbn [andb].
      * apply String.eqb_eq in E as <-. rewrite dict_lookup_set_eq. cbn [from_option id].
        by rewrite Hrec.
      * apply String.eqb_neq in E.
        rewrite dict_lookup_set_ne by (by intros ->). by rewrite orb_false_r.
  - apply Hnext. intros k Hin. cbn [py_eq].
    destruct (String.eqb t k) eqn:E; cbn [andb]; [|by rewrite orb_false_r].
    apply String.eqb_eq in E as <-. apply bool_decide_eq_false in Ht. done.
Qed.

Lemma collect_diagnostics_shape (diagnostics : list json)
    (check_statuses : list (string * json)) :
  Forall agent_diagnostic_shape diagnostics ->
  exists collected,
    collect_diagnostics diagnostics check_statuses = Ret collected /\
    forall k, k ∈ required_checks ->
      recorded_success k collected
      = recorded_success k check_statuses
        || existsb (reports_success k) (concat (checks_of <$> diagnostics)).
Proof.
  intros Hshape. revert check_statuses.
  induction Hshape as [|d rest (items & checks & -> & Hchecks & Hdicts) _ IH];
    intros check_statuses.
  { exists check_statuses. split; [done|]. intros k _. cbn. by rewrite orb_false_r. }
  cbn [collect_diagnostics py_get mbind prog_mbind prog_bind fmap list_fmap concat checks_of].
  rewrite Hchecks. cbn [py_iter mbind prog_mbind prog_bind].
  destruct (collect_checks_shape checks check_statuses Hdicts) as (st & -> & Hst).
  cbn [mbind prog_mbind prog_bind].
  destruct (IH st) as (collected & Hc & Hk).
  exists collected. split; [done|]. intros k Hin.
  by rewrite (Hk k Hin), (Hst k Hin), existsb_app, orb_assoc.
Qed.

(** Before the answer is read no required check is recorded as a
    success. *)
Lemma nothing_recorded (k : string) (keys : list string) :
  recorded_success k ((λ k0, (k0, JNull)) <$> keys) = false.
Proof.
  unfold recorded_success.
  assert (from_option id JNull (dict_lookup k ((λ k0, (k0, JNull)) <$> keys)) = JNull)
    as ->; [|done].
  induction keys as [|k0 keys IH]; [done|].
  rewrite fmap_cons. cbn [dict_lookup]. by destruct (String.eqb k0 k).
Qed.

(** X25. One look of [poll_agent_diagnostics] at a well-shaped 200
    answer succeeds exactly when each of the three required check types
    is reported with [DIAGNOSTIC_STATUS_SUCCESS] by some check of some
    diagnostic.  One success per type is enough wherever it stands: a
    failure reported for the same type, before or after it, in the same
    diagnostic or in another, does not undo it, and checks of other
    types are not looked at. *)
Theorem evaluate_agent_diagnostics_accepts {W} (h : handler W) (api_token : string)
    (w w' : W) (response : http_response) (body : list (string * json))
    (diagnostics : list json) :
  h _ (HttpGet diagnostics_url (resourcely_auth api_token) []) w = (Responded response, w') ->
  status_code response = 200 ->
  json_body response = Some (JObj body) ->
  from_option id (JArr []) (dict_lookup "diagnostics" body) = JArr diagnostics ->
  Forall agent_diagnostic_shape diagnostics ->
  run h (evaluate_agent_diagnostics api_token) w =
    {| result := Returned
                   (forallb (λ k, existsb (reports_success k)
                                    (concat (checks_of <$> diagnostics)))
                      required_checks);
       trace := [Ev (HttpGet diagnostics_url (resourcely_auth api_token) [])
                    (Responded response)];
       final := w' |}.
Proof.
  intros Hget Hstatus Hbody Hdiag Hshape.
  unfold evaluate_agent_diagnostics, requests_get, response_json. run_step.
  fold diagnostics_url. rewrite Hget. run_step. rewrite Hstatus, Hbody.
  cbn [Z.eqb Pos.eqb negb]. run_step. cbn [py_get]. run_step. rewrite Hdiag.
  cbn [py_iter]. run_step.
  destruct (collect_diagnostics_shape diagnostics ((λ k, (k, JNull)) <$> required_checks)
              Hshape) as (collected & -> & Hk).
  run_step. do 2 f_equal.
  unfold all_required_success. fold (recorded_success).
  change (λ k : string, py_eq (from_option id JNull (dict_lookup k collected)) status_success)
    with (λ k : string, recorded_success k collected).
  assert (forall ks : list string, (forall k, k ∈ ks -> k ∈ required_checks) ->
            forallb (λ k, recorded_success k collected) ks
            = forallb (λ k, existsb (reports_success k) (concat (checks_of <$> diagnostics)))
                ks) as Hall.
  { induction ks as [|k ks IHks]; [done|]. intros Hin. cbn [forallb].
    rewrite IHks by (intros k' Hk'; apply Hin; by right).
    rewrite (Hk k) by (apply Hin; by left).
    f_equal.
    assert (recorded_success k ((λ k0, (k0, JNull)) <$> required_checks) = false) as ->; [|done].
    apply nothing_recorded. }
  by apply Hall.
Qed.

Lemma evaluate_agent_diagnostics_accepts_witness :
  result (run (always_answers (ok_response agent_partial_body))
            (evaluate_agent_diagnostics "token") ()) = Returned true.
Proof.
  rewrite (evaluate_agent_diagnostics_accepts (always_answers (ok_response agent_partial_body))
             "token" () () _ _ _ eq_refl eq_refl eq_refl eq_refl); [reflexivity|].
  repeat constructor.
  - eexists _, _. split_and!; [reflexivity..|]. repeat constructor; by eexists.
  - eexists _, _. split_and!; [reflexivity..|]. repeat constructor; by eexists.
Defined.
